(** * MapDataMiner: the extraction orchestrator

    A shallow embedding of [GoogleMapsScraper] (src/lib/scraper.ts) and of the
    [POST] handler that drives it (src/app/api/scrape/route.ts).

    The scraper is one mutable object whose methods are asynchronous.  It is
    modelled by explicit state passing over the record [Scraper]; everything
    the browser answers comes from an oracle record [World]; the commands
    that the control route delivers while a method is suspended on an
    [await] are a queue carried in the state. *)

From Stdlib Require Import ZArith List String Ascii Bool Arith Lia.
From Stdlib Require Import QArith Qround DecimalString Lqa.
Import ListNotations.

Local Open Scope string_scope.
Local Open Scope list_scope.
Local Open Scope nat_scope.

(** ** JavaScript numbers

    Doubles are modelled as exact rationals extended with NaN and the two
    infinities; the sign of zero and rounding error are not modelled. *)

Module JsNum.

Inductive num : Type :=
| NaN
| Inf (positive : bool)
| Fin (q : Q).

Definition ofZ (z : Z) : num := Fin (inject_Z z).
Definition ofNat (n : nat) : num := ofZ (Z.of_nat n).

Definition sgn (q : Q) : comparison := Qcompare q 0.

Definition add (a b : num) : num :=
  match a, b with
  | NaN, _ | _, NaN => NaN
  | Fin x, Fin y => Fin (Qred (x + y))
  | Inf s, Fin _ | Fin _, Inf s => Inf s
  | Inf s, Inf t => if Bool.eqb s t then Inf s else NaN
  end.

Definition mul (a b : num) : num :=
  match a, b with
  | NaN, _ | _, NaN => NaN
  | Fin x, Fin y => Fin (Qred (x * y))
  | Inf s, Fin y | Fin y, Inf s =>
      match sgn y with
      | Eq => NaN
      | Gt => Inf s
      | Lt => Inf (negb s)
      end
  | Inf s, Inf t => Inf (Bool.eqb s t)
  end.

Definition div (a b : num) : num :=
  match a, b with
  | NaN, _ | _, NaN => NaN
  | Fin x, Fin y =>
      match sgn y with
      | Eq => match sgn x with
              | Eq => NaN
              | Gt => Inf true
              | Lt => Inf false
              end
      | _ => Fin (Qred (x / y))
      end
  | Fin _, Inf _ => Fin 0
  | Inf s, Fin y => match sgn y with Lt => Inf (negb s) | _ => Inf s end
  | Inf _, Inf _ => NaN
  end.

(** [Math.round]: the nearest integer, halves rounded up. *)
Definition round (a : num) : num :=
  match a with
  | Fin q => Fin (inject_Z (Qfloor (q + (1 # 2))))
  | other => other
  end.

Definition isNaN (a : num) : bool :=
  match a with NaN => true | _ => false end.

(** [a < b]; every comparison with NaN is false. *)
Definition ltb (a b : num) : bool :=
  match a, b with
  | NaN, _ | _, NaN => false
  | Fin x, Fin y => match Qcompare x y with Lt => true | _ => false end
  | Fin _, Inf s => s
  | Inf s, Fin _ => negb s
  | Inf s, Inf t => negb s && t
  end.

(** [a <= b]. *)
Definition leb (a b : num) : bool :=
  match a, b with
  | NaN, _ | _, NaN => false
  | Fin x, Fin y => match Qcompare x y with Gt => false | _ => true end
  | Fin _, Inf s => s
  | Inf s, Fin _ => negb s
  | Inf s, Inf t => negb s || t
  end.

Definition gtb (a b : num) : bool := ltb b a.
Definition geb (a b : num) : bool := leb b a.

End JsNum.

Import JsNum.

(** ** JavaScript strings *)

Module JsString.

(** [s.includes(needle)] *)
Fixpoint includes (needle s : string) : bool :=
  String.prefix needle s
  || match s with
     | EmptyString => false
     | String _ rest => includes needle rest
     end.

(** A string is a sequence of UTF-16 code units, and a character of the
    model is one code unit below 256 (not a byte of an encoding): the
    character 160 is U+00A0.  Texts with other code units are outside the
    model.

    [is_space]: the white space and the line terminators of the language
    among these code units, which are what [trim] strips and what the class
    of white space of a regular expression matches: tab, line feed, vertical
    tab, form feed, carriage return, space and no-break space. *)
Definition is_space (c : ascii) : bool :=
  let n := nat_of_ascii c in
  ((9 <=? n) && (n <=? 13)) || (n =? 32) || (n =? 160).

Fixpoint ltrim (s : string) : string :=
  match s with
  | String c rest => if is_space c then ltrim rest else s
  | EmptyString => EmptyString
  end.

Definition reverse (s : string) : string :=
  string_of_list_ascii (rev (list_ascii_of_string s)).

(** [s.trim()] *)
Definition trim (s : string) : string :=
  reverse (ltrim (reverse (ltrim s))).

(** A string is truthy when it is not empty. *)
Definition truthy (s : string) : bool :=
  match s with EmptyString => false | _ => true end.

(** [a || b] on strings. *)
Definition or_else (a b : string) : string := if truthy a then a else b.

(** [a || undefined] on strings. *)
Definition or_undefined (a : string) : option string :=
  if truthy a then Some a else None.

(** The decimal text of an integer, as a template literal prints it. *)
Definition showZ (z : Z) : string := NilZero.string_of_int (Z.to_int z).
Definition showNat (n : nat) : string := showZ (Z.of_nat n).

Definition is_digit (c : ascii) : bool :=
  (48 <=? nat_of_ascii c) && (nat_of_ascii c <=? 57).

Definition is_letter (c : ascii) : bool :=
  let n := nat_of_ascii c in
  ((65 <=? n) && (n <=? 90)) || ((97 <=? n) && (n <=? 122)).

(** The characters that [encodeURIComponent] leaves as they are: letters,
    digits and - _ . ! ~ * ' ( ). *)
Definition unreserved (c : ascii) : bool :=
  is_letter c || is_digit c
  || match nat_of_ascii c with
     | 45 | 95 | 46 | 33 | 126 | 42 | 39 | 40 | 41 => true
     | _ => false
     end.

Definition hexDigit (n : nat) : ascii :=
  ascii_of_nat (if n <? 10 then 48 + n else 55 + n).

(** A percent sign and the two hexadecimal digits of a byte, in capitals. *)
Definition percentByte (byte : nat) : string :=
  String "%"
    (String (hexDigit (byte / 16))
       (String (hexDigit (byte mod 16)) EmptyString)).

(** [encodeURIComponent(s)]: every other character is replaced by the bytes
    of its UTF-8 encoding, one below 128 and two from 128 on. *)
Fixpoint encodeURIComponent (s : string) : string :=
  match s with
  | EmptyString => EmptyString
  | String c rest =>
      let n := nat_of_ascii c in
      (if unreserved c then String c EmptyString
       else if n <? 128 then percentByte n
       else percentByte (192 + n / 64) ++ percentByte (128 + n mod 64))
      ++ encodeURIComponent rest
  end.

End JsString.

Import JsString.

(** ** The data model (src/types) *)

Record BusinessData : Type := mkBusiness {
  id : string;
  name : string;
  address : string;
  phone : option string;
  website : option string;
  rating : option num;
  reviewCount : option Z;
  category : option string;
  hours : option string;
  coordinates : option (num * num);
  scrapedAt : Z
}.

Inductive Status : Type :=
| st_idle | st_searching | st_scraping | st_paused
| st_cancelled | st_completed | st_error.

Record ScrapingProgress : Type := mkProgress {
  status : Status;
  currentStep : string;
  progress : num;
  totalFound : Z;
  scraped : nat;
  errors : list string
}.

Record SearchParams : Type := mkParams {
  location : string;
  categories : list string;
  radius : Z;
  maxResults : Z
}.

Inductive ScrapingState : Type := running | paused | cancelled | completed.

Definition ScrapingState_eqb (a b : ScrapingState) : bool :=
  match a, b with
  | running, running | paused, paused
  | cancelled, cancelled | completed, completed => true
  | _, _ => false
  end.

Inductive Command : Type := Pause | Resume | Cancel.

(** A browser page is named by the number under which it was opened. *)
Abbreviation PageId := nat (only parsing).

(** ** The scraper object

    The fields above the blank line are fields of the class; [browser] tells
    whether the field of that name holds a browser or null.  The clock of the
    health check is left to the outside, which answers whether the browser
    is healthy.  The fields below the blank line record what the object did:
    the snapshots handed to [progressCallback], the pages it opened, closed
    and navigated, and the commands still to arrive, grouped by the
    suspension point at which they arrive. *)

Record Scraper : Type := mkScraper {
  browser : bool;
  page : option PageId;
  scrapingState : ScrapingState;
  scrapedBusinesses : list BusinessData;
  currentBusinessIndex : nat;
  totalBusinessesToScrape : Z;
  businessLinks : list string;

  emitted : list ScrapingProgress;
  nextPageId : PageId;
  closedPages : list PageId;
  gotoLog : list (PageId * string);
  pending : list (list Command)
}.

Definition set_browser (b : bool) (p : option PageId) (s : Scraper) : Scraper :=
  mkScraper b p (scrapingState s) (scrapedBusinesses s)
    (currentBusinessIndex s) (totalBusinessesToScrape s) (businessLinks s)
    (emitted s) (nextPageId s) (closedPages s) (gotoLog s) (pending s).

Definition set_state (st : ScrapingState) (s : Scraper) : Scraper :=
  mkScraper (browser s) (page s) st (scrapedBusinesses s)
    (currentBusinessIndex s) (totalBusinessesToScrape s) (businessLinks s)
    (emitted s) (nextPageId s) (closedPages s) (gotoLog s) (pending s).

Definition set_scraped (l : list BusinessData) (s : Scraper) : Scraper :=
  mkScraper (browser s) (page s) (scrapingState s) l
    (currentBusinessIndex s) (totalBusinessesToScrape s) (businessLinks s)
    (emitted s) (nextPageId s) (closedPages s) (gotoLog s) (pending s).

Definition set_index (i : nat) (s : Scraper) : Scraper :=
  mkScraper (browser s) (page s) (scrapingState s) (scrapedBusinesses s)
    i (totalBusinessesToScrape s) (businessLinks s)
    (emitted s) (nextPageId s) (closedPages s) (gotoLog s) (pending s).

Definition set_links (l : list string) (total : Z) (s : Scraper) : Scraper :=
  mkScraper (browser s) (page s) (scrapingState s) (scrapedBusinesses s)
    (currentBusinessIndex s) total l
    (emitted s) (nextPageId s) (closedPages s) (gotoLog s) (pending s).

Definition set_emitted (l : list ScrapingProgress) (s : Scraper) : Scraper :=
  mkScraper (browser s) (page s) (scrapingState s) (scrapedBusinesses s)
    (currentBusinessIndex s) (totalBusinessesToScrape s) (businessLinks s)
    l (nextPageId s) (closedPages s) (gotoLog s) (pending s).

Definition set_pages (next : PageId) (closed : list PageId) (s : Scraper)
  : Scraper :=
  mkScraper (browser s) (page s) (scrapingState s) (scrapedBusinesses s)
    (currentBusinessIndex s) (totalBusinessesToScrape s) (businessLinks s)
    (emitted s) next closed (gotoLog s) (pending s).

Definition set_gotoLog (l : list (PageId * string)) (s : Scraper) : Scraper :=
  mkScraper (browser s) (page s) (scrapingState s) (scrapedBusinesses s)
    (currentBusinessIndex s) (totalBusinessesToScrape s) (businessLinks s)
    (emitted s) (nextPageId s) (closedPages s) l (pending s).

Definition set_pending (l : list (list Command)) (s : Scraper) : Scraper :=
  mkScraper (browser s) (page s) (scrapingState s) (scrapedBusinesses s)
    (currentBusinessIndex s) (totalBusinessesToScrape s) (businessLinks s)
    (emitted s) (nextPageId s) (closedPages s) (gotoLog s) l.

(** [new GoogleMapsScraper(callback)], that will receive the commands [cmds]. *)
Definition newScraper (cmds : list (list Command)) : Scraper :=
  mkScraper false None running [] 0 0%Z [] [] 0 [] [] cmds.

(** [updateProgress] *)
Definition updateProgress (p : ScrapingProgress) (s : Scraper) : Scraper :=
  set_emitted (emitted s ++ [p]) s.

(** [push] on [scrapedBusinesses] *)
Definition pushBusiness (b : BusinessData) (s : Scraper) : Scraper :=
  set_scraped (scrapedBusinesses s ++ [b]) s.

(** ** Control methods *)

(** [Math.round((currentBusinessIndex / totalBusinessesToScrape) * 100)] *)
Definition controlPercent (s : Scraper) : num :=
  round (mul (div (ofNat (currentBusinessIndex s))
                  (ofZ (totalBusinessesToScrape s)))
             (ofZ 100)).

Definition pause (s : Scraper) : Scraper :=
  let s := set_state paused s in
  updateProgress
    (mkProgress st_paused "Scraping paused by user" (controlPercent s)
       (totalBusinessesToScrape s) (List.length (scrapedBusinesses s)) []) s.

Definition resume (s : Scraper) : Scraper :=
  let s := set_state running s in
  updateProgress
    (mkProgress st_scraping "Scraping resumed..." (controlPercent s)
       (totalBusinessesToScrape s) (List.length (scrapedBusinesses s)) []) s.

Definition cancel (s : Scraper) : Scraper :=
  let s := set_state cancelled s in
  updateProgress
    (mkProgress st_cancelled "Scraping cancelled by user" (controlPercent s)
       (totalBusinessesToScrape s) (List.length (scrapedBusinesses s)) []) s.

Definition getState (s : Scraper) : ScrapingState := scrapingState s.

Definition isCancelled (s : Scraper) : bool :=
  ScrapingState_eqb (scrapingState s) cancelled.

Definition isPaused (s : Scraper) : bool :=
  ScrapingState_eqb (scrapingState s) paused.

(** The control route: one action, one method call. *)
Definition runCommand (c : Command) (s : Scraper) : Scraper :=
  match c with
  | Pause => pause s
  | Resume => resume s
  | Cancel => cancel s
  end.

Definition runCommands (cs : list Command) (s : Scraper) : Scraper :=
  fold_left (fun s c => runCommand c s) cs s.

(** ** Asynchronous methods

    An asynchronous method is a state transformer whose promise resolves,
    rejects, or never settles.  The last happens in one way only: the method
    polls a paused scraper and no command is left to arrive. *)

Inductive Outcome (A : Type) : Type :=
| Ret (a : A)
| Throw (msg : string)
| Blocked.

Arguments Ret {A} a.
Arguments Throw {A} msg.
Arguments Blocked {A}.

Definition M (A : Type) : Type := Scraper -> Outcome A * Scraper.

Definition ret {A : Type} (a : A) : M A := fun s => (Ret a, s).

Definition throw {A : Type} (msg : string) : M A := fun s => (Throw msg, s).

Definition bind {A B : Type} (c : M A) (k : A -> M B) : M B :=
  fun s =>
    match c s with
    | (Ret a, s') => k a s'
    | (Throw msg, s') => (Throw msg, s')
    | (Blocked, s') => (Blocked, s')
    end.

Definition get : M Scraper := fun s => (Ret s, s).

Definition modify (f : Scraper -> Scraper) : M unit := fun s => (Ret tt, f s).

(** [try { body } catch (error) { handler(error.message) }]: what the body
    did to the object before it threw stays done. *)
Definition try_catch {A : Type} (body : M A) (handler : string -> M A) : M A :=
  fun s =>
    match body s with
    | (Throw msg, s') => handler msg s'
    | other => other
    end.

Declare Scope async_scope.
Delimit Scope async_scope with async.
Notation "x <- c ;; k" := (bind c (fun x => k))
  (at level 61, c at next level, right associativity) : async_scope.
Notation "c ;; k" := (bind c (fun _ => k))
  (at level 61, right associativity) : async_scope.
Local Open Scope async_scope.

(** One suspension of the running method: the commands that arrive during
    it are executed by the control route before the method goes on. *)
Definition awaitPoint : M unit :=
  fun s =>
    match pending s with
    | [] => (Ret tt, s)
    | cs :: rest => (Ret tt, runCommands cs (set_pending rest s))
    end.

(** [waitForResume]: sleep one second, look again. *)
Fixpoint waitLoop (ticks : list (list Command)) (s : Scraper)
  : Outcome unit * Scraper :=
  if isPaused s then
    match ticks with
    | [] => (Blocked, set_pending [] s)
    | cs :: rest => waitLoop rest (runCommands cs s)
    end
  else (Ret tt, set_pending ticks s).

Definition waitForResume : M unit := fun s => waitLoop (pending s) s.

(** ** The browser, as the scraper sees it *)

(** [browser.newPage()] with its configuration, when it succeeds. *)
Definition newPage : M PageId :=
  fun s => (Ret (nextPageId s),
            set_pages (S (nextPageId s)) (closedPages s) s).

(** [page.close().catch(() => {})] *)
Definition closePage (p : PageId) : M unit :=
  modify (fun s => set_pages (nextPageId s) (closedPages s ++ [p]) s).

(** [close]: releases the page and the browser, never throws. *)
Definition close : M unit :=
  s <- get ;;
  match page s with
  | Some p => closePage p
  | None => ret tt
  end ;;
  modify (set_browser false None).

(** [initialize], given how the launch goes: [None] when it succeeds,
    [Some msg] when any step of it throws [msg].  A failure closes what was
    opened and is thrown again under the prefix of the source. *)
Definition initialize (launch : option string) : M unit :=
  modify (set_browser false None) ;;
  match launch with
  | None =>
      p <- newPage ;;
      modify (set_browser true (Some p))
  | Some msg =>
      close ;;
      throw ("Browser initialization failed: " ++ msg)
  end.

(** [page.goto(url, ...)] *)
Definition goto (p : PageId) (url : string) (result : option string) : M unit :=
  modify (fun s => set_gotoLog (gotoLog s ++ [(p, url)]) s) ;;
  match result with
  | None => ret tt
  | Some msg => throw msg
  end.

(** ** Reading one detail page *)

Record Element : Type := mkElement {
  textContent : string;
  href : string
}.

(** [document.querySelector].  Selectors are keys of this function only;
    they are spelled with single quotes where the source has double ones. *)
Definition Dom : Type := string -> option Element.

(** [for (const selector of selectors) { ... return ... } return fallback] *)
Fixpoint cascade {A : Type} (try : string -> option A) (selectors : list string)
  (fallback : A) : A :=
  match selectors with
  | [] => fallback
  | sel :: rest =>
      match try sel with
      | Some a => a
      | None => cascade try rest fallback
      end
  end.

(** [element?.textContent?.trim()] accepted when truthy *)
Definition trimmedText (d : Dom) (sel : string) : option string :=
  match d sel with
  | Some el => or_undefined (trim (textContent el))
  | None => None
  end.

Definition getName (d : Dom) : string :=
  cascade (trimmedText d)
    [ "h1[data-attrid='title']"; "[data-attrid='title'] span"; "h1.DUwDvf";
      "h1.x3AX1-LfntMc-header-title-title"; "h1"; ".DUwDvf"; ".SPZz6b h1" ]
    EmptyString.

Definition getAddress (d : Dom) : string :=
  cascade (trimmedText d)
    [ "[data-item-id='address'] .Io6YTe";
      "[data-attrid='kc:/location/location:address']"; ".LrzXr";
      "[data-value='Address']"; ".rogA2c .Io6YTe"; ".lI9IFe" ]
    EmptyString.

(** [/[\d\+\-\(\)\s]{7,}/.test(phone)]: seven characters of the class in a
    row, anywhere in the string. *)
Definition phone_char (c : ascii) : bool :=
  is_digit c || is_space c
  || match nat_of_ascii c with
     | 43 | 45 | 40 | 41 => true
     | _ => false
     end.

Fixpoint phone_run (run : nat) (s : string) : bool :=
  (7 <=? run)
  || match s with
     | EmptyString => false
     | String c rest =>
         if phone_char c then phone_run (S run) rest else phone_run 0 rest
     end.

Definition phone_like (s : string) : bool := phone_run 0 s.

Definition getPhone (d : Dom) : string :=
  cascade
    (fun sel =>
       match trimmedText d sel with
       | Some phone => if phone_like phone then Some phone else None
       | None => None
       end)
    [ "[data-item-id*='phone'] .Io6YTe"; "[data-attrid*='phone']";
      "span[dir='ltr']"; "[data-value='Phone']";
      ".rogA2c [data-item-id*='phone']"; "a[href^='tel:']" ]
    EmptyString.

Definition getWebsite (d : Dom) : string :=
  cascade
    (fun sel =>
       match d sel with
       | Some el =>
           if truthy (href el) && negb (includes "google.com" (href el))
           then Some (href el) else None
       | None => None
       end)
    [ "a[data-item-id*='authority']"; "a[data-attrid*='website']";
      "a[href^='http']:not([href*='google.com'])"; "[data-value='Website'] a" ]
    EmptyString.

(** [parseFloat] is the language's; it is a parameter of the model. *)
Definition getRating (parseFloat : string -> num) (d : Dom) : num :=
  cascade
    (fun sel =>
       match d sel with
       | Some el =>
           if truthy (textContent el) then
             let rating := parseFloat (trim (textContent el)) in
             if negb (isNaN rating) && geb rating (ofZ 0) && leb rating (ofZ 5)
             then Some rating else None
           else None
       | None => None
       end)
    [ "[data-attrid='review-score'] span"; ".lTi8oc"; "[aria-label*='stars']";
      ".fontDisplayLarge" ]
    (ofZ 0).

(** The regular expression of [getReviewCount] matches the first run of
    digits of the text together with the comma-separated digit groups that
    follow it; [replace(/,/g, '')] then drops the commas.  [first_number]
    is the two together. *)
Fixpoint number_tail (s : string) : string :=
  match s with
  | EmptyString => EmptyString
  | String c rest =>
      if is_digit c then String c (number_tail rest)
      else if Ascii.eqb c "," then
        match rest with
        | String d _ => if is_digit d then number_tail rest else EmptyString
        | EmptyString => EmptyString
        end
      else EmptyString
  end.

Fixpoint first_number (s : string) : option string :=
  match s with
  | EmptyString => None
  | String c rest => if is_digit c then Some (number_tail s) else first_number rest
  end.

(** [parseInt] of a string of decimal digits.  The value is taken exactly;
    a double does so up to 2^53. *)
Fixpoint parseDigits (acc : Z) (s : string) : Z :=
  match s with
  | EmptyString => acc
  | String c rest =>
      parseDigits (acc * 10 + (Z.of_nat (nat_of_ascii c) - 48))%Z rest
  end.

Definition getReviewCount (d : Dom) : Z :=
  cascade
    (fun sel =>
       match d sel with
       | Some el =>
           if truthy (textContent el) then
             match first_number (trim (textContent el)) with
             | Some digits => Some (parseDigits 0 digits)
             | None => None
             end
           else None
       | None => None
       end)
    [ "[data-attrid='review-score'] + span"; ".lTi8oc + span";
      "[aria-label*='reviews']" ]
    0%Z.

Definition getCategory (d : Dom) : string :=
  cascade (trimmedText d)
    [ "[data-attrid='kc:/local:place_type']"; ".rogA2c .Io6YTe";
      "[data-value='Category']"; ".lI9IFe" ]
    EmptyString.

Definition getHours (d : Dom) : string :=
  cascade (trimmedText d)
    [ "[data-item-id*='hours']"; "[data-attrid*='hours']";
      "[data-value='Hours']"; ".rogA2c [data-item-id*='hours']" ]
    EmptyString.

(** What [page.evaluate] returns from the detail page. *)
Record RawBusinessData : Type := mkRaw {
  raw_name : string;
  raw_address : string;
  raw_phone : string;
  raw_website : string;
  raw_rating : num;
  raw_reviewCount : Z;
  raw_category : string;
  raw_hours : string
}.

Definition evaluateBusinessData (parseFloat : string -> num) (d : Dom)
  : RawBusinessData :=
  mkRaw (getName d) (getAddress d) (getPhone d) (getWebsite d)
    (getRating parseFloat d) (getReviewCount d) (getCategory d) (getHours d).

(** The object literal [business] of both extraction paths. *)
Definition makeBusiness (raw : RawBusinessData) (now : Z) (index : nat)
  (coords : option (num * num)) : BusinessData :=
  mkBusiness
    ("business_" ++ showZ now ++ "_" ++ showNat index)
    (or_else (raw_name raw) "Unknown Business")
    (or_else (raw_address raw) "Address not available")
    (or_undefined (raw_phone raw))
    (or_undefined (raw_website raw))
    (if gtb (raw_rating raw) (ofZ 0) then Some (raw_rating raw) else None)
    (if (0 <? raw_reviewCount raw)%Z then Some (raw_reviewCount raw) else None)
    (or_undefined (raw_category raw))
    (or_undefined (raw_hours raw))
    coords
    now.

(** ** What the outside answers

    The concurrency setting is taken to be a positive integer, as its default
    is; the other settings are as [parseInt] returns them, [None] for NaN. *)

(** One pass through the body of the retry loop of an extractor. *)
Record Attempt : Type := mkAttempt {
  a_connected : bool;           (* [this.browser.connected], first read *)
  a_init : option string;       (* how [initialize] goes if called *)
  a_pageAlive : bool;           (* the [readyState] probe succeeds *)
  a_reconnected : bool;         (* [this.browser.connected], second read *)
  a_newPageOk : bool;           (* opening the replacement page succeeds *)
  a_goto : option string;       (* [Some msg]: the navigation throws [msg] *)
  a_title : string;             (* [page.title().catch(() => '')] *)
  a_url : string;               (* [page.url()] *)
  a_content : bool;             (* [waitForSelector] finds a title element *)
  a_dom : option Dom;           (* [None]: the extracting [evaluate] throws *)
  a_reinit : option string;     (* how [initialize] goes in the [catch] *)
  a_now : Z                     (* [Date.now()] *)
}.

(** One pass through the body of the scroll loop. *)
Record ScrollObs : Type := mkScrollObs {
  o_current : option nat;       (* the count before scrolling; [None]: it throws *)
  o_new : option nat;           (* the count after scrolling *)
  o_millis : Z                  (* how long the pass takes *)
}.

Inductive PageTry : Type := NotConnected | Opens | Rejects.

Inductive Health : Type :=
| Healthy
| Unhealthy (reinit : option string).

Record World : Type := mkWorld {
  w_parseFloat : string -> num;
  w_coordinates : string -> option (num * num);  (* [extractCoordinatesFromUrl] *)
  w_envMaxResults : option Z;       (* [parseInt(MAX_BUSINESSES_PER_SEARCH || '500')] *)
  w_maxConcurrent : positive;       (* [parseInt(MAX_CONCURRENT_SCRAPERS || '3')] *)
  w_conservative : bool;            (* [CONSERVATIVE_SCRAPING === 'true'] *)
  w_launch : option string;         (* the route's call of [initialize] *)
  w_search : option string;         (* the navigation to the search page *)
  w_selectorFound : string -> bool; (* [waitForSelector] on the results page *)
  w_scroll : nat -> ScrollObs;
  w_method1 : option (list string); (* the three harvests; [None]: it throws *)
  w_method2 : option (list string);
  w_method3 : option (list string);
  w_pageStillValid : bool;
  w_health : nat -> Health;         (* by the start index of the batch *)
  w_batchPage : nat -> nat -> PageTry;   (* batch start, member *)
  w_sequential : nat -> nat -> Attempt;  (* target, attempt *)
  w_parallel : nat -> nat -> Attempt;
  w_timedOut : bool                 (* the route's timer wins the race *)
}.

(** ** The per-target extractor *)

(** How a pass through the loop body ends: with [return], or at the loop
    head again. *)
Inductive Step : Type :=
| Done (result : option BusinessData)
| Again.

(** [retries--; if (retries === 0) return null;] then on to the next pass.
    [remaining] is the value of [retries] after the decrement. *)
Definition decremented (remaining : nat) : Step :=
  if remaining =? 0 then Done None else Again.

Definition invalidPage (pageTitle pageUrl : string) : bool :=
  negb (truthy pageTitle)
  || includes "Error" pageTitle
  || includes "404" pageTitle
  || includes "sorry" pageUrl
  || includes "blocked" pageUrl.

Definition isDisconnectError (msg : string) : bool :=
  includes "frame was detached" msg
  || includes "Target closed" msg
  || includes "Session closed" msg.

Definition nullDereference : string :=
  "TypeError: Cannot read properties of null".

(** From the navigation to the end of the [try] block; the same in both
    paths. *)
Definition navigateAndExtract (w : World) (a : Attempt) (p : PageId)
  (url : string) (index remaining : nat) : M Step :=
  goto p url (a_goto a) ;;
  if invalidPage (a_title a) (a_url a) then ret (decremented remaining)
  else if negb (a_content a) then ret (decremented remaining)
  else
    match a_dom a with
    | None => throw "Execution context was destroyed"
    | Some d =>
        ret (Done (Some (makeBusiness (evaluateBusinessData (w_parseFloat w) d)
                           (a_now a) index (w_coordinates w url))))
    end.

(** The [try] block of [scrapeBusinessDetails]. *)
Definition sequentialTry (w : World) (a : Attempt) (url : string)
  (index remaining : nat) : M Step :=
  s <- get ;;
  if negb (browser s) then throw nullDereference
  else
    (if a_connected a then ret tt else initialize (a_init a)) ;;
    s <- get ;;
    if negb (a_connected a) && match page s with None => true | _ => false end
    then ret (Done None)
    else
      let alive := match page s with Some _ => a_pageAlive a | None => false end in
      fresh <-
        (if alive then ret (page s)
         else if browser s && a_reconnected a then
           (if a_newPageOk a then
              p <- newPage ;;
              modify (fun s => set_browser (browser s) (Some p) s) ;;
              ret (Some p)
            else throw "Protocol error (Target.createTarget)")
         else ret None) ;;
      match fresh with
      | None => ret (Done None)
      | Some p => navigateAndExtract w a p url index remaining
      end.

(** The [catch] block of [scrapeBusinessDetails]. *)
Definition sequentialCatch (a : Attempt) (remaining : nat) (msg : string) : M Step :=
  giveUp <-
    (if isDisconnectError msg then
       try_catch
         (initialize (a_reinit a) ;;
          s <- get ;;
          ret (match page s with None => true | Some _ => false end))
         (fun _ => ret true)
     else ret false) ;;
  if giveUp then ret (Done None) else ret (decremented remaining).

(** [while (retries > 0) { try { ... } catch (error) { ... } } return null;]
    [pass] counts the passes made so far. *)
Fixpoint sequentialLoop (w : World) (target : nat) (url : string) (index : nat)
  (retries pass : nat) : M (option BusinessData) :=
  match retries with
  | 0 => ret None
  | S remaining =>
      let a := w_sequential w target pass in
      step <- try_catch (sequentialTry w a url index remaining)
                        (sequentialCatch a remaining) ;;
      match step with
      | Done result => ret result
      | Again => sequentialLoop w target url index remaining (S pass)
      end
  end.

(** [scrapeBusinessDetails(url, currentBusinessIndex, totalBusinesses)];
    [target] is the position of [url] among the links, for the oracle. *)
Definition scrapeBusinessDetails (w : World) (target : nat) (url : string)
  (index : nat) : M (option BusinessData) :=
  s <- get ;;
  match page s with
  | None => ret None
  | Some _ =>
      if negb (browser s) then ret None
      else sequentialLoop w target url index 3 0
  end.

(** The [try] block of [scrapeBusinessDetailsParallel], on the page [p] that
    the variable [page] holds.  It returns the page that the variable holds
    afterwards as well. *)
Definition parallelCatch (remaining : nat) (p : PageId) (_ : string)
  : M (Step * PageId) :=
  ret (decremented remaining, p).

Definition parallelAttempt (w : World) (a : Attempt) (p : PageId)
  (url : string) (index remaining : nat) : M (Step * PageId) :=
  try_catch
    (s <- get ;;
     fresh <-
       (if a_pageAlive a then ret (Some p)
        else if browser s && a_reconnected a then
          (if a_newPageOk a then q <- newPage ;; ret (Some q)
           else throw "Protocol error (Target.createTarget)")
        else ret None) ;;
     match fresh with
     | None => ret (Done None, p)
     | Some q =>
         try_catch
           (step <- navigateAndExtract w a q url index remaining ;; ret (step, q))
           (parallelCatch remaining q)
     end)
    (parallelCatch remaining p).

Fixpoint parallelLoop (w : World) (target : nat) (url : string) (index : nat)
  (p : PageId) (retries pass : nat) : M (option BusinessData) :=
  match retries with
  | 0 => ret None
  | S remaining =>
      r <- parallelAttempt w (w_parallel w target pass) p url index remaining ;;
      match r with
      | (Done result, _) => ret result
      | (Again, q) => parallelLoop w target url index q remaining (S pass)
      end
  end.

(** [scrapeBusinessDetailsParallel(url, currentBusinessIndex, totalBusinesses,
    page)] with a page that is not null. *)
Definition scrapeBusinessDetailsParallel (w : World) (target : nat)
  (url : string) (index : nat) (p : PageId) : M (option BusinessData) :=
  parallelLoop w target url index p 2 0.

(** ** Discovery: the scroll loop

    The scrolling and the clicking of a pass act on the page only; what they
    achieve is what the second count of the pass shows. *)

Record ScrollState : Type := mkScroll {
  scrollAttempts : nat;
  consecutiveNoChange : nat;
  previousBusinessCount : nat;
  lastBusinessCount : nat;
  elapsed : Z;            (* milliseconds since [setTimeout] was called *)
  timeoutFired : bool     (* the timer's callback has run *)
}.

Definition maxScrollAttempts (conservative : bool) : nat :=
  if conservative then 15 else 30.

Definition maxConsecutiveNoChange (conservative : bool) : nat :=
  if conservative then 3 else 6.

Definition scrollTimeoutMillis : Z := 180000.

(** The callback given to [setTimeout]: it writes the line "Scroll timeout
    reached, stopping scroll process" to the console and returns. *)
Definition scrollTimeoutCallback (st : ScrollState) : ScrollState :=
  mkScroll (scrollAttempts st) (consecutiveNoChange st)
    (previousBusinessCount st) (lastBusinessCount st) (elapsed st) true.

(** Time passes; the timer fires once when its delay is over. *)
Definition advanceClock (millis : Z) (st : ScrollState) : ScrollState :=
  let st' := mkScroll (scrollAttempts st) (consecutiveNoChange st)
               (previousBusinessCount st) (lastBusinessCount st)
               (elapsed st + millis)%Z (timeoutFired st) in
  if (scrollTimeoutMillis <=? elapsed st')%Z && negb (timeoutFired st')
  then scrollTimeoutCallback st' else st'.

(** [scrollAttempts++] *)
Definition countAttempt (st : ScrollState) : ScrollState :=
  mkScroll (S (scrollAttempts st)) (consecutiveNoChange st)
    (previousBusinessCount st) (lastBusinessCount st) (elapsed st)
    (timeoutFired st).

(** The comparison of the two counts of a pass.  The source has two
    branches for a count that did not grow; both add one to
    [consecutiveNoChange], and one of them clicks and scrolls some more. *)
Definition compareCounts (currentBusinessCount newBusinessCount : nat)
  (st : ScrollState) : ScrollState :=
  if currentBusinessCount <? newBusinessCount then
    mkScroll (scrollAttempts st) 0 newBusinessCount newBusinessCount
      (elapsed st) (timeoutFired st)
  else
    mkScroll (scrollAttempts st) (S (consecutiveNoChange st))
      (previousBusinessCount st) (lastBusinessCount st) (elapsed st)
      (timeoutFired st).

Definition currentCount (o : ScrollObs) : nat :=
  match o_current o with Some n => n | None => 0 end.

Definition newCount (o : ScrollObs) : nat :=
  match o_new o with Some n => n | None => currentCount o end.

(** [while (scrollAttempts < maxScrollAttempts &&
            consecutiveNoChange < maxConsecutiveNoChange) { ... }] *)
Fixpoint scrollLoop (w : World) (fuel : nat) (st : ScrollState)
  : M ScrollState :=
  match fuel with
  | 0 => ret st
  | S fuel' =>
      if (scrollAttempts st <? maxScrollAttempts (w_conservative w))
         && (consecutiveNoChange st <? maxConsecutiveNoChange (w_conservative w))
      then
        let obs := w_scroll w (scrollAttempts st) in
        let st := countAttempt st in
        s <- get ;;
        if isCancelled s then ret st
        else
          (if isPaused s then waitForResume else ret tt) ;;
          awaitPoint ;;
          let st := compareCounts (currentCount obs) (newCount obs) st in
          let st := advanceClock (o_millis obs) st in
          if (4 <=? consecutiveNoChange st) && (0 <? lastBusinessCount st)
          then ret st
          else scrollLoop w fuel' st
      else ret st
  end.

Definition scrollStart : ScrollState := mkScroll 0 0 0 0 0%Z false.

(** [scrollAndLoadAllResults].  A pass adds one to [scrollAttempts], which
    the loop keeps below [maxScrollAttempts]: that many passes are all the
    loop can make. *)
Definition scrollAndLoadAllResults (w : World) : M ScrollState :=
  s <- get ;;
  match page s with
  | None => ret scrollStart
  | Some _ => scrollLoop w (maxScrollAttempts (w_conservative w)) scrollStart
  end.

(** ** Discovery: the harvest *)

(** [Array.from(new Set(l))]: the first occurrence of each string, in order. *)
Definition dedupe (l : list string) : list string :=
  fold_left
    (fun seen x => if existsb (String.eqb x) seen then seen else seen ++ [x])
    l [].

Definition validLink (link : string) : bool :=
  truthy link && includes "/maps/place/" link && (10 <? String.length link).

Definition harvest (w : World) : list string :=
  let businessLinks := match w_method1 w with Some l => l | None => [] end in
  let businessLinks :=
    match w_method2 w with
    | Some method2Links => dedupe (businessLinks ++ method2Links)
    | None => businessLinks
    end in
  let businessLinks :=
    match w_method3 w with
    | Some method3Links => dedupe (businessLinks ++ method3Links)
    | None => businessLinks
    end in
  filter validLink (dedupe businessLinks).

(** ** The scheduler *)

(** [l.slice(0, e)] for an integer [e], or NaN. *)
Definition sliceTo {A : Type} (e : option Z) (l : list A) : list A :=
  match e with
  | None => []
  | Some e =>
      if (e <? 0)%Z
      then firstn (Z.to_nat (Z.max (Z.of_nat (List.length l) + e) 0)) l
      else firstn (Z.to_nat e) l
  end.

(** [params.maxResults || 500] *)
Definition userMaxResults (params : SearchParams) : Z :=
  if (maxResults params =? 0)%Z then 500%Z else maxResults params.

(** [Math.min(userMaxResults, envMaxResults)] *)
Definition actualMaxResults (w : World) (params : SearchParams) : option Z :=
  match w_envMaxResults w with
  | Some envMaxResults => Some (Z.min (userMaxResults params) envMaxResults)
  | None => None
  end.

Definition linksToProcess (w : World) (params : SearchParams)
  (links : list string) : list string :=
  sliceTo (actualMaxResults w params) links.

(** [Math.min(maxConcurrentScrapers, 5)] *)
Definition batchSize (w : World) : nat :=
  Nat.min (Pos.to_nat (w_maxConcurrent w)) 5.

(** [ensureBrowserHealth] *)
Definition ensureBrowserHealth (h : Health) : M bool :=
  awaitPoint ;;
  match h with
  | Healthy => ret true
  | Unhealthy reinit =>
      try_catch (initialize reinit ;; ret true) (fun _ => ret false)
  end.

(** The loop that opens one page per member of the batch. *)
Fixpoint openPages (tries : list PageTry) (pages : list PageId)
  : M (list PageId) :=
  match tries with
  | [] => ret pages
  | t :: rest =>
      s <- get ;;
      match t with
      | Opens =>
          if browser s then p <- newPage ;; openPages rest (pages ++ [p])
          else openPages rest pages
      | NotConnected => openPages rest pages
      | Rejects =>
          if browser s then throw "Protocol error (Target.createTarget)"
          else openPages rest pages
      end
  end.

(** [pages.length = 0] in the [catch]. *)
Definition createBatchPages (w : World) (batchStart : nat)
  (currentBatch : list string) : M (list PageId) :=
  try_catch
    (openPages (map (w_batchPage w batchStart)
                  (seq 0 (List.length currentBatch))) [])
    (fun _ => ret []).

(** [pages[index % pages.length]] *)
Definition assignedPage (pages : list PageId) (index : nat) : PageId :=
  nth (index mod List.length pages) pages 0.

(** The promises of one batch.  Their bodies share nothing that they write
    but the page counter and the navigation log, so they are run here one
    after the other. *)
Fixpoint batchPromises (w : World) (pages : list PageId) (batchStart index : nat)
  (batch : list string) : M (list (option BusinessData)) :=
  match batch with
  | [] => ret []
  | businessLink :: rest =>
      let globalIndex := batchStart + index in
      r <- try_catch
             (scrapeBusinessDetailsParallel w globalIndex businessLink
                (globalIndex + 1) (assignedPage pages index))
             (fun _ => ret None) ;;
      rs <- batchPromises w pages batchStart (S index) rest ;;
      ret (r :: rs)
  end.

Fixpoint pushResults (results : list (option BusinessData)) : M unit :=
  match results with
  | [] => ret tt
  | Some b :: rest => modify (pushBusiness b) ;; pushResults rest
  | None :: rest => pushResults rest
  end.

Fixpoint closePages (pages : list PageId) : M unit :=
  match pages with
  | [] => ret tt
  | p :: rest => closePage p ;; closePages rest
  end.

Definition parallelBatch (w : World) (pages : list PageId) (batchStart : nat)
  (currentBatch : list string) : M unit :=
  batchResults <- batchPromises w pages batchStart 0 currentBatch ;;
  awaitPoint ;;
  pushResults batchResults ;;
  closePages pages.

(** [10 + (globalIndex / linksToProcess.length) * 85] *)
Definition progressPercent (globalIndex total : nat) : num :=
  add (ofZ 10) (mul (div (ofNat globalIndex) (ofNat total)) (ofZ 85)).

Definition itemProgress (globalIndex total : nat) (s : Scraper)
  : ScrapingProgress :=
  mkProgress
    (if isPaused s then st_paused else st_scraping)
    (if isPaused s then "Scraping paused by user"
     else "Scraped " ++ showNat (List.length (scrapedBusinesses s)) ++ "/"
          ++ showNat total ++ " businesses")
    (progressPercent globalIndex total)
    (Z.of_nat total)
    (List.length (scrapedBusinesses s))
    [].

(** The sequential fallback: [for (let i = 0; i < currentBatch.length; i++)]. *)
Fixpoint sequentialBatch (w : World) (total batchStart i : nat)
  (batch : list string) : M unit :=
  match batch with
  | [] => ret tt
  | businessLink :: rest =>
      let globalIndex := batchStart + i in
      modify (set_index globalIndex) ;;
      try_catch
        (if truthy businessLink then
           awaitPoint ;;
           business <- scrapeBusinessDetails w globalIndex businessLink
                         (globalIndex + 1) ;;
           match business with
           | Some b => modify (pushBusiness b)
           | None => ret tt
           end
         else ret tt)
        (fun _ => ret tt) ;;
      s <- get ;;
      modify (updateProgress (itemProgress globalIndex total s)) ;;
      sequentialBatch w total batchStart (S i) rest
  end.

(** [for (let batchStart = 0; batchStart < linksToProcess.length;
         batchStart += batchSize)] *)
Fixpoint batchLoop (w : World) (links : list string) (fuel batchStart : nat)
  : M unit :=
  match fuel with
  | 0 => ret tt
  | S fuel' =>
      if batchStart <? List.length links then
        let batchEnd := Nat.min (batchStart + batchSize w) (List.length links) in
        let currentBatch := firstn (batchEnd - batchStart) (skipn batchStart links) in
        s <- get ;;
        if isCancelled s then ret tt
        else
          stop <- (if isPaused s
                   then waitForResume ;; s <- get ;; ret (isCancelled s)
                   else ret false) ;;
          if (stop : bool) then ret tt
          else
            healthOk <- ensureBrowserHealth (w_health w batchStart) ;;
            if negb healthOk then ret tt
            else
              pages <- createBatchPages w batchStart currentBatch ;;
              (if 1 <? List.length pages
               then parallelBatch w pages batchStart currentBatch
               else sequentialBatch w (List.length links) batchStart 0
                      currentBatch) ;;
              (if batchEnd <? List.length links then awaitPoint else ret tt) ;;
              batchLoop w links fuel' (batchStart + batchSize w)
      else ret tt
  end.

(** The wait for one of the result selectors.  [None]: cancelled meanwhile. *)
Fixpoint waitForResults (w : World) (selectors : list string)
  : M (option bool) :=
  match selectors with
  | [] => ret (Some false)
  | selector :: rest =>
      s <- get ;;
      if isCancelled s then ret None
      else
        awaitPoint ;;
        if w_selectorFound w selector then ret (Some true)
        else waitForResults w rest
  end.

Definition resultSelectors : list string :=
  [ "[role='main']"; ".m6QErb"; "[data-value='Directions']";
    "a[href*='maps/place']"; ".hfpxzc" ].

(** The statements of [scrapeBusinesses] from the harvest on. *)
Definition extractAll (w : World) (params : SearchParams) : M (list BusinessData) :=
  let found := harvest w in
  if List.length found =? 0 then
    modify (updateProgress
              (mkProgress st_completed "No businesses found" (ofZ 100) 0%Z 0
                 ["No business links found in search results"])) ;;
    ret []
  else
    modify (set_links found
              (Z.min (Z.of_nat (List.length found)) (maxResults params))) ;;
    modify (updateProgress
              (mkProgress st_scraping "Extracting business information..."
                 (ofZ 10) (Z.of_nat (List.length found)) 0 [])) ;;
    if negb (w_pageStillValid w) then
      modify (updateProgress
                (mkProgress st_error "Page context invalid" (ofZ 0)
                   (Z.of_nat (List.length found)) 0
                   ["Page context became invalid after scrolling. This may be due to page refresh or navigation."])) ;;
      ret []
    else
      let links := linksToProcess w params found in
      batchLoop w links (List.length links) 0 ;;
      s <- get ;;
      (if isCancelled s then
         modify (updateProgress
                   (mkProgress st_cancelled "Scraping cancelled by user"
                      (round (mul (div (ofNat (currentBusinessIndex s))
                                       (ofNat (List.length links)))
                                  (ofZ 100)))
                      (Z.of_nat (List.length links))
                      (List.length (scrapedBusinesses s)) []))
       else
         modify (set_state completed) ;;
         modify (updateProgress
                   (mkProgress st_completed "Scraping completed!" (ofZ 100)
                      (Z.of_nat (List.length links))
                      (List.length (scrapedBusinesses s)) []))) ;;
      s <- get ;;
      ret (scrapedBusinesses s).

(** [params.categories.join(' OR ')], or the word business when there is no
    category. *)
Definition categoryQuery (params : SearchParams) : string :=
  match categories params with
  | [] => "business"
  | cs => String.concat " OR " cs
  end.

(** The address of the search page. *)
Definition searchUrl (params : SearchParams) : string :=
  "https://www.google.com/maps/search/"
  ++ encodeURIComponent (categoryQuery params ++ " near " ++ location params).

(** The [try] block of [scrapeBusinesses]; [p] is the control page. *)
Definition searchAndExtract (w : World) (params : SearchParams) (p : PageId)
  : M (list BusinessData) :=
  goto p (searchUrl params) (w_search w) ;;
  awaitPoint ;;
  s <- get ;;
  if isCancelled s then ret (scrapedBusinesses s)
  else
    resultsFound <- waitForResults w resultSelectors ;;
    match resultsFound with
    | None => s <- get ;; ret (scrapedBusinesses s)
    | Some false =>
        throw "No search results found - page may have changed structure"
    | Some true =>
        scrollAndLoadAllResults w ;;
        s <- get ;;
        if isCancelled s then ret (scrapedBusinesses s)
        else extractAll w params
    end.

(** [scrapeBusinesses(params)].  The [catch] of its [try] block throws again
    what it caught. *)
Definition scrapeBusinesses (w : World) (params : SearchParams)
  : M (list BusinessData) :=
  s <- get ;;
  match page s with
  | None => throw "Scraper not initialized"
  | Some p =>
      modify (set_state running) ;;
      modify (set_scraped []) ;;
      modify (set_index 0) ;;
      modify (updateProgress
                (mkProgress st_searching "Searching for businesses..." (ofZ 0)
                   0%Z 0 [])) ;;
      searchAndExtract w params p
  end.

(** ** The route *)

(** The last event of the stream; [None] when the stream never ends. *)
Inductive SseFinal : Type :=
| SseComplete (businesses : list BusinessData) (count : nat)
| SseError (error message : string).

(** The streaming branch of [POST], once the request has been validated. *)
Definition postStreaming (w : World) (params : SearchParams)
  (cmds : list (list Command)) : option SseFinal * list ScrapingProgress :=
  let run := initialize (w_launch w) ;; scrapeBusinesses w params in
  match run (newScraper cmds) with
  | (Ret businesses, s) =>
      (Some (SseComplete businesses (List.length businesses)), emitted s)
  | (Throw msg, s) =>
      (Some (SseError "Scraping Failed"
               (or_else msg "Unknown scraping error")), emitted s)
  | (Blocked, s) => (None, emitted s)
  end.

Record JsonResponse : Type := mkResponse {
  httpStatus : Z;
  errorCategory : option string;
  payload : list BusinessData
}.

(** The chain of tests on [scrapingError.message]. *)
Definition classifyError (msg : string) : JsonResponse :=
  if includes "Browser initialization failed" msg
  then mkResponse 500 (Some "Browser Setup Error") []
  else if includes "timeout" msg
  then mkResponse 408 (Some "Scraping Timeout") []
  else if includes "No search results found" msg
          || includes "No businesses found" msg
  then mkResponse 404 (Some "No Results Found") []
  else if includes "blocked" msg || includes "captcha" msg
          || includes "rate limit" msg
  then mkResponse 429 (Some "Access Blocked") []
  else if includes "navigation" msg || includes "page" msg
          || includes "net::" msg
  then mkResponse 502 (Some "Connection Error") []
  else mkResponse 500 (Some "Scraping Failed") [].

(** The other branch of [POST], once the request and the delay settings
    have been validated; [None] when it never answers. *)
Definition postNonStreaming (w : World) (params : SearchParams)
  (cmds : list (list Command)) : option JsonResponse :=
  match initialize (w_launch w) (newScraper cmds) with
  | (Ret _, s) =>
      if w_timedOut w then Some (classifyError "Scraping operation timed out")
      else
        match scrapeBusinesses w params s with
        | (Ret allBusinesses, _) =>
            let businesses := sliceTo (Some (maxResults params)) allBusinesses in
            if List.length businesses =? 0
            then Some (mkResponse 404 (Some "No Results Found") [])
            else Some (mkResponse 200 None businesses)
        | (Throw msg, _) => Some (classifyError msg)
        | (Blocked, _) => None
        end
  | (Throw msg, _) => Some (classifyError msg)
  | (Blocked, _) => None
  end.

(** * The vocabulary of the properties *)

(** ** Control states *)

Definition terminal (a : ScrapingState) : bool :=
  match a with
  | cancelled | completed => true
  | running | paused => false
  end.

(** The transitions that the specification lists, and staying where one is. *)
Definition listedTransition (a b : ScrapingState) : bool :=
  match a, b with
  | running, paused | paused, running => true
  | running, cancelled | paused, cancelled => true
  | running, completed => true
  | _, _ => ScrapingState_eqb a b
  end.

(** The state that a command asks for. *)
Definition requested (c : Command) : ScrapingState :=
  match c with
  | Pause => paused
  | Resume => running
  | Cancel => cancelled
  end.

(** ** Discovery *)

(** Pass [i] of the scroll loop sees no more targets after scrolling than
    before. *)
Definition noGrowth (w : World) (i : nat) : bool :=
  newCount (w_scroll w i) <=? currentCount (w_scroll w i).


(** No pass from [k] on sees growth: the source has stopped producing. *)
Definition exhaustedFrom (w : World) (k : nat) : Prop :=
  forall i, k <= i -> noGrowth w i = true.



(** ** What a method may do *)

(** The promise resolves, whatever the state at the call. *)
Definition returns {A : Type} (c : M A) : Prop :=
  forall s, exists a, fst (c s) = Ret a.

(** The promise resolves or rejects. *)
Definition settles {A : Type} (c : M A) : Prop :=
  forall s, fst (c s) <> Blocked.

(** Whatever the promise resolves to satisfies [Q]. *)
Definition yields {A : Type} (Q : A -> Prop) (c : M A) : Prop :=
  forall s a, fst (c s) = Ret a -> Q a.

(** The method leaves the observation [f] of the object as it was. *)
Definition preserves {A B : Type} (f : Scraper -> B) (c : M A) : Prop :=
  forall s, f (snd (c s)) = f s.

(** ** Extracted records *)

(** A name and an address that are not empty; a rating, if any, above 0 and
    at most 5; a review count, if any, above 0. *)
Definition wellFormed (b : BusinessData) : Prop :=
  name b <> EmptyString
  /\ address b <> EmptyString
  /\ (forall r, rating b = Some r -> exists q, r = Fin q /\ 0 < q /\ q <= 5)%Q
  /\ (forall n, reviewCount b = Some n -> 0 < n)%Z.

Definition wellFormedResult (r : option BusinessData) : Prop :=
  match r with Some b => wellFormed b | None => True end.

(** [l'] is [l] with at most [n] records appended, all of them well formed. *)
Definition grown (n : nat) (l l' : list BusinessData) : Prop :=
  exists added,
    l' = l ++ added /\ List.length added <= n /\ Forall wellFormed added.

(** The method appends at most [n] records to the result set, all of them
    well formed, and does nothing else to it. *)
Definition appendsAtMost {A : Type} (n : nat) (c : M A) : Prop :=
  forall s, grown n (scrapedBusinesses s) (scrapedBusinesses (snd (c s))).

(** What the method returns is the result set, or an empty list. *)
Definition returnsResultSet (c : M (list BusinessData)) : Prop :=
  forall s l,
    fst (c s) = Ret l -> l = [] \/ l = scrapedBusinesses (snd (c s)).

(** An observation of the object that commands and their delivery do not
    change. *)
Definition ignoresControl {B : Type} (f : Scraper -> B) : Prop :=
  (forall st s, f (set_state st s) = f s)
  /\ (forall l s, f (set_emitted l s) = f s)
  /\ (forall l s, f (set_pending l s) = f s).

(** ** The per-target extractor *)

(** The pass reaches the navigation, and the page that loads is taken for an
    error page or a blocking interstitial. *)
Definition navigatesToInvalidPage (a : Attempt) : bool :=
  a_pageAlive a
  && match a_goto a with None => true | Some _ => false end
  && invalidPage (a_title a) (a_url a).

(** An observation of the object that opening and navigating pages does not
    change. *)
Definition ignoresNavigation {B : Type} (f : Scraper -> B) : Prop :=
  (forall s, f (snd (newPage s)) = f s)
  /\ (forall l s, f (set_gotoLog l s) = f s).

(** An observation that the life of the browser and its pages does not
    change. *)
Definition ignoresBrowser {B : Type} (f : Scraper -> B) : Prop :=
  ignoresNavigation f
  /\ (forall b p s, f (set_browser b p s) = f s)
  /\ (forall p s, f (snd (closePage p s)) = f s).

(** ** The harvest *)

Definition harvestOf (method : option (list string)) : list string :=
  match method with Some links => links | None => [] end.

(** What the three strategies found, one after the other. *)
Definition harvested (w : World) : list string :=
  harvestOf (w_method1 w) ++ harvestOf (w_method2 w) ++ harvestOf (w_method3 w).

(** The final list in the words of the specification: the union, without
    duplicates, without the tokens that are too short. *)
Definition harvestBySpec (w : World) : list string :=
  filter (fun link => 10 <? String.length link) (dedupe (harvested w)).

(** ** Worlds to run the model in *)

(** A detail page with a name, a rating and a number of reviews. *)
Definition cafeDom : Dom :=
  fun selector =>
    if String.eqb selector "h1"
    then Some (mkElement "  Cafe Luna " EmptyString)
    else if String.eqb selector ".lTi8oc"
    then Some (mkElement "4.5" EmptyString)
    else if String.eqb selector ".lTi8oc + span"
    then Some (mkElement "(1,234 reviews)" EmptyString)
    else None.

(** A pass in which the detail page loads. *)
Definition loads : Attempt :=
  mkAttempt true None true true true None "Cafe Luna - Google Maps"
    "https://www.google.com/maps/place/Cafe+Luna" true (Some cafeDom) None
    1700000000000%Z.

(** A pass in which the source answers with its blocking interstitial. *)
Definition blocks : Attempt :=
  mkAttempt true None true true true None "Sorry..."
    "https://www.google.com/sorry/index" false None None 1700000000000%Z.

Definition place (token : string) : string :=
  "https://www.google.com/maps/place/" ++ token.

Definition fourPlaces : list string :=
  [place "A"; place "B"; place "C"; place "D"].

(** Five more targets at each of the first three passes, then none. *)
Definition growsThreeTimes (i : nat) : ScrollObs :=
  mkScrollObs (Some (5 * i)) (Some (if i <? 3 then 5 * (i + 1) else 5 * i))
    2000%Z.

(** Ten more targets at every pass, each pass taking ten seconds. *)
Definition growsSlowly (i : nat) : ScrollObs :=
  mkScrollObs (Some (10 * i)) (Some (10 * (i + 1))) 10000%Z.

(** A world in which the browser launches, the search page loads and stays
    valid, the browser is healthy, and [parseFloat] reads 4.5. *)
Definition world (envMaxResults : option Z) (scroll : nat -> ScrollObs)
  (method1 method2 method3 : option (list string))
  (batchPage : nat -> nat -> PageTry) (attempt : nat -> nat -> Attempt)
  : World :=
  mkWorld (fun _ => Fin (9 # 2)) (fun _ => None) envMaxResults 3%positive false
    None None (fun _ => true) scroll method1 method2 method3 true
    (fun _ => Healthy) batchPage attempt attempt false.

(** Four targets, found twice over; no auxiliary page can be opened, so the
    extraction is sequential. *)
Definition plainWorld (envMaxResults : option Z) : World :=
  world envMaxResults growsThreeTimes
    (Some [place "A"; place "B"]) (Some [place "B"; place "C"; place "D"])
    None (fun _ _ => Rejects) (fun _ _ => loads).

Definition slowWorld : World :=
  world (Some 500%Z) growsSlowly (Some fourPlaces) None None
    (fun _ _ => Rejects) (fun _ _ => loads).

(** The only anchor found is a directions link. *)
Definition directionsWorld : World :=
  world (Some 500%Z) growsThreeTimes
    (Some ["https://www.google.com/maps/dir//Cafe+Luna"]) (Some []) (Some [])
    (fun _ _ => Rejects) (fun _ _ => loads).

(** Nothing is found. *)
Definition emptyWorld : World :=
  world (Some 500%Z) (fun _ => mkScrollObs (Some 0) (Some 0) 2000%Z)
    (Some []) (Some []) (Some [])
    (fun _ _ => Rejects) (fun _ _ => loads).


(** Every auxiliary page opens. *)
Definition parallelWorld : World :=
  world (Some 500%Z) growsThreeTimes (Some fourPlaces) None None
    (fun _ _ => Opens) (fun _ _ => loads).



(** Every detail page is the blocking interstitial. *)
Definition blockedWorld : World :=
  world (Some 500%Z) growsThreeTimes (Some fourPlaces) None None
    (fun _ _ => Rejects) (fun _ _ => blocks).

Definition request (n : Z) : SearchParams :=
  mkParams "Springfield" [] 1000%Z n.

(** An initialized scraper, with the commands that will come. *)
Definition readyScraper (cmds : list (list Command)) : Scraper :=
  snd (initialize None (newScraper cmds)).

(** A pass of the retry loop ends with a well-formed record, with null, or
    at the loop head. *)
Definition wellFormedStep (step : Step) : Prop :=
  match step with
  | Done r => wellFormedResult r
  | Again => True
  end.

(** ** The pages of a parallel batch *)



(** ** Progress *)

Definition isError (p : ScrapingProgress) : bool :=
  match status p with st_error => true | _ => false end.

(** No snapshot reports a lower percentage than the one before it, unless
    it reports an error. *)
Fixpoint nonDecreasing (snapshots : list ScrapingProgress) : bool :=
  match snapshots with
  | a :: rest =>
      match rest with
      | b :: _ => (isError b || leb (progress a) (progress b))
                  && nonDecreasing rest
      | [] => true
      end
  | [] => true
  end.

Definition percentages (snapshots : list ScrapingProgress)
  : list (Status * num) :=
  map (fun p => (status p, progress p)) snapshots.

(** Nine suspensions pass during the search and the seven passes of the
    scroll loop; the tenth is the health check of the first batch. *)
Definition pauseAfterDiscovery : list (list Command) :=
  repeat [] 9 ++ [[Pause]; [Resume]].

(** The cancel arrives while the second target is being extracted. *)
Definition cancelInFirstBatch : list (list Command) :=
  repeat [] 11 ++ [[Cancel]].

(** ** Pages of a batch *)


(** ** The scroll loop and the clock *)

(** Two states of the scroll loop that differ in nothing but the time. *)
Definition sameCounters (a b : ScrollState) : Prop :=
  scrollAttempts a = scrollAttempts b
  /\ consecutiveNoChange a = consecutiveNoChange b
  /\ previousBusinessCount a = previousBusinessCount b
  /\ lastBusinessCount a = lastBusinessCount b.

(** Two worlds whose results pages show the same counts, at whatever
    speed. *)
Definition sameCounts (w1 w2 : World) : Prop :=
  w_conservative w1 = w_conservative w2
  /\ forall i,
       currentCount (w_scroll w1 i) = currentCount (w_scroll w2 i)
       /\ newCount (w_scroll w1 i) = newCount (w_scroll w2 i).

Definition sameOutcome (a b : Outcome ScrollState) : Prop :=
  match a, b with
  | Ret st1, Ret st2 => sameCounters st1 st2
  | Throw m1, Throw m2 => m1 = m2
  | Blocked, Blocked => True
  | _, _ => False
  end.

(** * More of the code *)

(** ** The scraper manager and the control route
    (src/lib/scraper-manager, the route that serves pause, resume, cancel) *)

(** The module variable [globalScraperInstance]; [None] is null. *)
Definition Manager : Type := option Scraper.

Definition initialManager : Manager := None.

Definition setGlobalScraperInstance (instance : option Scraper) (_ : Manager)
  : Manager := instance.

Definition getGlobalScraperInstance (m : Manager) : option Scraper := m.

Definition clearGlobalScraperInstance (_ : Manager) : Manager := None.

(** The answer of the control route: the status, and the state that the
    payload reports, if it reports one. *)
Record ControlResponse : Type := mkControl {
  controlStatus : Z;
  reportedState : option ScrapingState
}.

(** [POST] of the control route; [action] is [None] when the body is not
    JSON.  The instance is an object: what a command does to it is seen by
    whoever holds it. *)
Definition controlPost (action : option string) (m : Manager)
  : ControlResponse * Manager :=
  match action with
  | None => (mkControl 500 None, m)
  | Some action =>
      match getGlobalScraperInstance m with
      | None => (mkControl 404 None, m)
      | Some instance =>
          if String.eqb action "pause" then
            (mkControl 200 (Some (getState (pause instance))),
             Some (pause instance))
          else if String.eqb action "resume" then
            (mkControl 200 (Some (getState (resume instance))),
             Some (resume instance))
          else if String.eqb action "cancel" then
            (mkControl 200 (Some (getState (cancel instance))),
             Some (cancel instance))
          else (mkControl 400 None, m)
      end
  end.

(** [GET] of the control route: whether a session is active, and its state. *)
Definition controlGet (m : Manager) : bool * option ScrapingState :=
  match getGlobalScraperInstance m with
  | None => (false, None)
  | Some instance => (true, Some (getState instance))
  end.

(** The requests that the two routes serve. *)
Inductive Request : Type :=
| ScrapeStreaming (w : World) (params : SearchParams)
| ScrapeNonStreaming (w : World) (params : SearchParams)
| ControlPost (action : option string)
| ControlGet.

Inductive Response : Type :=
| Streamed (final : option SseFinal) (snapshots : list ScrapingProgress)
| Answered (response : option JsonResponse)
| Controlled (response : ControlResponse)
| Reported (active : bool) (state : option ScrapingState).

(** One request served.  The scrape route builds its scraper and closes it;
    it never stores it in the manager, so no command reaches its run. *)
Definition serve (r : Request) (m : Manager) : Response * Manager :=
  match r with
  | ScrapeStreaming w params =>
      let (final, snapshots) := postStreaming w params [] in
      (Streamed final snapshots, m)
  | ScrapeNonStreaming w params => (Answered (postNonStreaming w params []), m)
  | ControlPost action =>
      let (response, m') := controlPost action m in (Controlled response, m')
  | ControlGet => let (active, state) := controlGet m in (Reported active state, m)
  end.

Fixpoint serveAll (rs : list Request) (m : Manager) : list Response * Manager :=
  match rs with
  | [] => ([], m)
  | r :: rest =>
      let (response, m') := serve r m in
      let (responses, m'') := serveAll rest m' in
      (response :: responses, m'')
  end.

(** The method that an action of the control route calls; [None] for an
    action that the route does not know, and for a body that is not JSON. *)
Definition knownAction (action : option string) : option Command :=
  match action with
  | Some action =>
      if String.eqb action "pause" then Some Pause
      else if String.eqb action "resume" then Some Resume
      else if String.eqb action "cancel" then Some Cancel
      else None
  | None => None
  end.

(** The state that the last known action of a list asks for; [st] when
    there is none. *)
Definition lastRequested (st : ScrapingState) (actions : list (option string))
  : ScrapingState :=
  fold_left (fun st action =>
               match knownAction action with
               | Some c => requested c
               | None => st
               end) actions st.

(** ** The client of the event stream (src/lib/sse-client) *)

Definition newline : ascii := ascii_of_nat 10.

(** [s.split('\n')] *)
Fixpoint splitLines (s : string) : list string :=
  match s with
  | EmptyString => [EmptyString]
  | String c rest =>
      if Ascii.eqb c newline then EmptyString :: splitLines rest
      else
        match splitLines rest with
        | line :: lines => String c line :: lines
        | [] => [String c EmptyString]
        end
  end.

(** What the stream carries, once parsed. *)
Inductive SseEvent : Type :=
| EvProgress (snapshot : ScrapingProgress)
| EvComplete (businesses : list BusinessData) (warnings : option (list string))
| EvError (error message : string)
| EvOther.

(** The [switch] of the client on a parsed event; [None] when [JSON.parse]
    threw. *)
Definition handled (parsed : option SseEvent) : list SseEvent :=
  match parsed with
  | Some EvOther => []
  | Some event => [event]
  | None => []
  end.

(** What the client tells its caller for one line: the calls of
    [onProgress], [onComplete] and [onError], in order. *)
Definition dispatch (parse : string -> option SseEvent) (line : string)
  : list SseEvent :=
  if String.prefix "data: " line
  then handled (parse (String.substring 6 (String.length line - 6) line))
  else [].

(** One turn of the read loop after [reader.read()] gave a chunk:
    [buffer += chunk], the complete lines are handled, the last, incomplete
    line is kept.  [parse] is [JSON.parse], [None] when it throws. *)
Definition receive (parse : string -> option SseEvent) (buffer chunk : string)
  : list SseEvent * string :=
  let lines := splitLines (buffer ++ chunk) in
  (flat_map (dispatch parse) (removelast lines),
   or_else (last lines EmptyString) EmptyString).

(** The read loop over the chunks of a stream, until [done]. *)
Fixpoint readAll (parse : string -> option SseEvent) (buffer : string)
  (chunks : list string) : list SseEvent * string :=
  match chunks with
  | [] => ([], buffer)
  | chunk :: rest =>
      let (events, buffer') := receive parse buffer chunk in
      let (more, final) := readAll parse buffer' rest in
      (events ++ more, final)
  end.

(** The frame that the route puts around the JSON text of an event:
    the template literal that starts with data and ends with two line
    feeds. *)
Definition sseData (json : string) : string :=
  "data: " ++ json ++ String newline (String newline EmptyString).

(** ** The exporter (src/lib/exporter) *)

Definition quote : ascii := ascii_of_nat 34.

(** The [replace] of the exporter: every quotation mark is written twice. *)
Fixpoint escapeQuotes (s : string) : string :=
  match s with
  | EmptyString => EmptyString
  | String c rest =>
      if Ascii.eqb c quote then String quote (String quote (escapeQuotes rest))
      else String c (escapeQuotes rest)
  end.

(** A template literal that puts [s] between quotation marks. *)
Definition quoted (s : string) : string :=
  String quote (s ++ String quote EmptyString).

(** [array.join(sep)] *)
Definition join (sep : string) (cells : list string) : string :=
  String.concat sep cells.

Definition csvHeaders : list string :=
  [ "Business Name"; "Address"; "Phone"; "Website"; "Rating"; "Review Count";
    "Category"; "Hours"; "Coordinates"; "Scraped At" ].

(** [s || ''] *)
Definition orEmpty (s : option string) : string :=
  match s with Some s => s | None => EmptyString end.

(** One row of the file.  How a number and a date are printed is the
    language's: [showNum] is the conversion of a number to a string,
    [toISOString] that of a date. *)
Definition csvRow (showNum : num -> string) (toISOString : Z -> string)
  (business : BusinessData) : string :=
  join ","
    [ quoted (escapeQuotes (name business));
      quoted (escapeQuotes (address business));
      quoted (orEmpty (phone business));
      quoted (orEmpty (website business));
      match rating business with
      | Some r =>
          match r with
          | NaN => EmptyString
          | Fin q => if Qeq_bool q 0 then EmptyString else showNum r
          | Inf _ => showNum r
          end
      | None => EmptyString
      end;
      match reviewCount business with
      | Some n => if (n =? 0)%Z then EmptyString else showZ n
      | None => EmptyString
      end;
      quoted (orEmpty (category business));
      quoted (orEmpty (hours business));
      match coordinates business with
      | Some (lat, lng) => quoted (showNum lat ++ "," ++ showNum lng)
      | None => EmptyString
      end;
      toISOString (scrapedAt business) ].

(** [DataExporter.generateCSVContent(data, options)] *)
Definition generateCSVContent (showNum : num -> string)
  (toISOString : Z -> string) (data : list BusinessData) : string :=
  join (String newline EmptyString)
    (join "," csvHeaders :: map (csvRow showNum toISOString) data).

(** ** The statistics of the page (src/app/page.tsx) *)

(** A number that is defined, not zero and not NaN. *)
Definition truthyNum (r : option num) : bool :=
  match r with
  | Some NaN => false
  | Some (Fin q) => negb (Qeq_bool q 0)
  | Some (Inf _) => true
  | None => false
  end.

(** [b.rating || 0] *)
Definition ratingOrZero (b : BusinessData) : num :=
  match rating b with
  | Some r => if truthyNum (Some r) then r else ofZ 0
  | None => ofZ 0
  end.

(** [stats.avgRating] *)
Definition avgRating (businesses : list BusinessData) : num :=
  if 0 <? List.length businesses then
    div (fold_left (fun sum b => add sum (ratingOrZero b)) businesses (ofZ 0))
        (ofNat (List.length (filter (fun b => truthyNum (rating b)) businesses)))
  else ofZ 0.

(** The test of [filter(b => b.rating)]. *)
Definition rated (b : BusinessData) : bool := truthyNum (rating b).

(** ** Words for the further properties *)

(** The snapshot handed to the callback last. *)
Definition lastSnapshot (s : Scraper) : option ScrapingProgress :=
  match rev (emitted s) with
  | p :: _ => Some p
  | [] => None
  end.

Fixpoint allDigits (s : string) : bool :=
  match s with
  | EmptyString => true
  | String c rest => is_digit c && allDigits rest
  end.

(** The timer of the route fires before the run is over. *)
Definition timedOutWorld : World :=
  mkWorld (fun _ => Fin (9 # 2)) (fun _ => None) (Some 500%Z) 3%positive false
    None None (fun _ => true) growsThreeTimes (Some fourPlaces) None None true
    (fun _ => Healthy) (fun _ _ => Rejects) (fun _ _ => loads)
    (fun _ _ => loads) true.

(** The browser cannot be launched. *)
Definition noBrowserWorld : World :=
  mkWorld (fun _ => Fin (9 # 2)) (fun _ => None) (Some 500%Z) 3%positive false
    (Some "Failed to launch the browser process") None (fun _ => true)
    growsThreeTimes (Some fourPlaces) None None true
    (fun _ => Healthy) (fun _ _ => Rejects) (fun _ _ => loads)
    (fun _ _ => loads) false.

(** The results page shows none of the elements that the scraper waits
    for. *)
Definition noSelectorWorld : World :=
  mkWorld (fun _ => Fin (9 # 2)) (fun _ => None) (Some 500%Z) 3%positive false
    None None (fun _ => false) growsThreeTimes (Some fourPlaces) None None true
    (fun _ => Healthy) (fun _ _ => Rejects) (fun _ _ => loads)
    (fun _ _ => loads) false.

(** The browser dies before the first batch and cannot be started again. *)
Definition unhealthyWorld : World :=
  mkWorld (fun _ => Fin (9 # 2)) (fun _ => None) (Some 500%Z) 3%positive false
    None None (fun _ => true) growsThreeTimes (Some fourPlaces) None None true
    (fun _ => Unhealthy (Some "Failed to launch the browser process"))
    (fun _ _ => Rejects) (fun _ _ => loads) (fun _ _ => loads) false.

(** No command to arrive is a cancel. *)
Definition withoutCancel (cmds : list (list Command)) : Prop :=
  Forall (Forall (fun c => c <> Cancel)) cmds.

(** The scraper is not cancelled and will not be. *)
Definition notToBeCancelled (s : Scraper) : Prop :=
  isCancelled s = false /\ withoutCancel (pending s).

(** The [try] statement in the body of the sequential loop. *)
Definition scrapeMember (w : World) (globalIndex : nat) (businessLink : string)
  : M unit :=
  try_catch
    (if truthy businessLink then
       awaitPoint ;;
       business <- scrapeBusinessDetails w globalIndex businessLink
                     (globalIndex + 1) ;;
       match business with
       | Some b => modify (pushBusiness b)
       | None => ret tt
       end
     else ret tt)
    (fun _ => ret tt).

(** ** Words for a run that nobody interrupts *)

(** No command is waiting and the scraper is running. *)
Definition calm (s : Scraper) : Prop :=
  pending s = [] /\ scrapingState s = running.

(** What the control route and the callback see of the scraper. *)
Definition trace (s : Scraper)
  : list (list Command) * ScrapingState * list ScrapingProgress :=
  (pending s, scrapingState s, emitted s).

(** A calm scraper stays calm and the callback hears nothing. *)
Definition silent {A : Type} (c : M A) : Prop :=
  forall s, calm s -> trace (snd (c s)) = trace s.

(** The percentages of the snapshots [l] are numbers that rise from [lo]
    to [hi]. *)
Fixpoint within (lo hi : Q) (l : list ScrapingProgress) : Prop :=
  match l with
  | [] => True
  | p :: rest =>
      exists q, progress p = Fin q /\ (lo <= q)%Q /\ (q <= hi)%Q
                /\ within q hi rest
  end.

(** A calm scraper stays calm, and the callback hears snapshots whose
    percentages rise from [lo] to [hi]. *)
Definition emitsWithin {A : Type} (lo hi : Q) (c : M A) : Prop :=
  forall s,
    calm s ->
    calm (snd (c s))
    /\ exists l, emitted (snd (c s)) = emitted s ++ l /\ within lo hi l.

(** Percentages that rise from [lo] to [hi], but for a last snapshot that
    reports an error. *)
Definition ordered (lo hi : Q) (l : list ScrapingProgress) : Prop :=
  within lo hi l
  \/ exists l' e, l = l' ++ [e] /\ within lo hi l' /\ isError e = true.

(** From a calm scraper on, the callback hears snapshots [l] such that
    [P l]. *)
Definition finishes {A : Type} (P : list ScrapingProgress -> Prop) (c : M A)
  : Prop :=
  forall s, calm s -> exists l, emitted (snd (c s)) = emitted s ++ l /\ P l.

(** [10 + (g / n) * 85], as a rational number. *)
Definition percentOf (n g : nat) : Q :=
  10 + (inject_Z (Z.of_nat g) / inject_Z (Z.of_nat n)) * 85.

(** * Properties *)

(** ** The control state machine *)

Lemma runCommand_state (c : Command) (s : Scraper) :
  scrapingState (runCommand c s) = requested c.
Proof. destruct c; reflexivity. Qed.

(** C1, as the code has it: pause(), resume() and cancel() each set the state
    they stand for, whatever the state was.  After any sequence of calls, a
    further call made in running or paused therefore moves along
    running <-> paused or running|paused -> cancelled (or stays), and
    cancel() always ends in cancelled; a call made in cancelled or completed
    is carried out all the same. *)
Theorem control_calls_set_state (cs : list Command) (c : Command) (s : Scraper) :
  let before := scrapingState (runCommands cs s) in
  let after := scrapingState (runCommand c (runCommands cs s)) in
  after = requested c
  /\ (terminal before = true \/ listedTransition before after = true).
Proof.
  cbv zeta. rewrite runCommand_state. split; [reflexivity|].
  destruct (scrapingState (runCommands cs s)), c; simpl; auto.
Qed.

(** C1, refuted as stated: pause() after cancel() leaves the terminal state
    cancelled, and so does resume(). *)
Lemma cancelled_is_left_by_pause :
  scrapingState (runCommands [Cancel] (newScraper [])) = cancelled
  /\ scrapingState (runCommands [Cancel; Pause] (newScraper [])) = paused
  /\ scrapingState (runCommands [Cancel; Resume] (newScraper [])) = running.
Proof. repeat split. Qed.

(** ** Waiting and suspension *)

Lemma waitLoop_no_throw (ticks : list (list Command)) :
  forall s msg, fst (waitLoop ticks s) <> Throw msg.
Proof.
  induction ticks as [|cs rest IH]; intros s msg; simpl;
    destruct (isPaused s); simpl; try discriminate.
  apply IH.
Qed.

Lemma waitLoop_blocked (ticks : list (list Command)) :
  forall s,
    fst (waitLoop ticks s) = Blocked ->
    isPaused (snd (waitLoop ticks s)) = true
    /\ pending (snd (waitLoop ticks s)) = [].
Proof.
  induction ticks as [|cs rest IH]; intros s; simpl;
    destruct (isPaused s) eqn:Hp; simpl; try discriminate.
  - intros _. split; [exact Hp|reflexivity].
  - apply IH.
Qed.

Lemma awaitPoint_returns (s : Scraper) : fst (awaitPoint s) = Ret tt.
Proof. unfold awaitPoint. destruct (pending s); reflexivity. Qed.

(** ** Discovery terminates *)

Section ScrollLoop.

Variable w : World.

Let limit := maxScrollAttempts (w_conservative w).
Let patience := maxConsecutiveNoChange (w_conservative w).


Lemma compareCounts_attempts (c n : nat) (st : ScrollState) :
  scrollAttempts (compareCounts c n st) = scrollAttempts st.
Proof. unfold compareCounts. destruct (c <? n); reflexivity. Qed.

Lemma advanceClock_attempts (ms : Z) (st : ScrollState) :
  scrollAttempts (advanceClock ms st) = scrollAttempts st.
Proof.
  unfold advanceClock. cbv zeta.
  match goal with |- context [if ?b then _ else _] => destruct b end;
    reflexivity.
Qed.

Lemma advanceClock_noChange (ms : Z) (st : ScrollState) :
  consecutiveNoChange (advanceClock ms st) = consecutiveNoChange st.
Proof.
  unfold advanceClock. cbv zeta.
  match goal with |- context [if ?b then _ else _] => destruct b end;
    reflexivity.
Qed.




(** More fuel than the passes that are left changes nothing. *)
Lemma scrollLoop_fuel (fuel : nat) :
  forall st s extra,
    limit - scrollAttempts st <= fuel ->
    scrollLoop w (fuel + extra) st s = scrollLoop w fuel st s.
Proof.
  induction fuel as [|fuel IH]; intros st s extra Hfuel.
  - destruct extra as [|extra]; [reflexivity|]. simpl. fold limit.
    replace (scrollAttempts st <? limit) with false; [reflexivity|].
    symmetry. apply Nat.ltb_ge. lia.
  - simpl. fold limit patience.
    destruct ((scrollAttempts st <? limit)
              && (consecutiveNoChange st <? patience)); [|reflexivity].
    unfold bind, get.
    destruct (isCancelled s); [reflexivity|].
    destruct ((if isPaused s then waitForResume else ret tt) s)
      as [[[]|msg|] s1]; try reflexivity.
    destruct (awaitPoint s1) as [[[]|msg|] s2]; try reflexivity.
    match goal with |- context [if ?b then _ else _] => destruct b end;
      [reflexivity|].
    apply IH.
    rewrite advanceClock_attempts, compareCounts_attempts. simpl. lia.
Qed.

End ScrollLoop.


(** ** Methods that settle, return, yield and preserve *)

Section MethodLogic.

Context {A B : Type}.

Lemma returns_ret (a : A) : returns (ret a).
Proof. intros s. exists a. reflexivity. Qed.

Lemma returns_get : returns get.
Proof. intros s. exists s. reflexivity. Qed.

Lemma returns_modify (f : Scraper -> Scraper) : returns (modify f).
Proof. intros s. exists tt. reflexivity. Qed.

Lemma returns_bind (c : M A) (k : A -> M B) :
  returns c -> (forall a, returns (k a)) -> returns (bind c k).
Proof.
  intros Hc Hk s. unfold bind. destruct (Hc s) as [a Ha].
  destruct (c s) as [o s']. simpl in Ha. subst o. apply Hk.
Qed.

Lemma settles_returns (c : M A) : returns c -> settles c.
Proof. intros Hc s. destruct (Hc s) as [a Ha]. rewrite Ha. discriminate. Qed.

Lemma settles_throw (msg : string) : settles (@throw A msg).
Proof. intros s. discriminate. Qed.

Lemma settles_bind (c : M A) (k : A -> M B) :
  settles c -> (forall a, settles (k a)) -> settles (bind c k).
Proof.
  intros Hc Hk s. unfold bind. specialize (Hc s).
  destruct (c s) as [[a|msg|] s']; simpl in *;
    [apply Hk|discriminate|contradiction].
Qed.

Lemma returns_try_catch (body : M A) (handler : string -> M A) :
  settles body -> (forall msg, returns (handler msg)) ->
  returns (try_catch body handler).
Proof.
  intros Hb Hh s. unfold try_catch. specialize (Hb s).
  destruct (body s) as [[a|msg|] s']; simpl in *.
  - exists a. reflexivity.
  - apply Hh.
  - contradiction.
Qed.

Lemma settles_try_catch (body : M A) (handler : string -> M A) :
  settles body -> (forall msg, settles (handler msg)) ->
  settles (try_catch body handler).
Proof.
  intros Hb Hh s. unfold try_catch. specialize (Hb s).
  destruct (body s) as [[a|msg|] s']; simpl in *;
    [discriminate|apply Hh|contradiction].
Qed.

Lemma yields_ret (Q : A -> Prop) (a : A) : Q a -> yields Q (ret a).
Proof. intros Ha s a' H. inversion H. subst. exact Ha. Qed.

Lemma yields_throw (Q : A -> Prop) (msg : string) : yields Q (throw msg).
Proof. intros s a H. discriminate. Qed.

Lemma yields_bind (Q : B -> Prop) (c : M A) (k : A -> M B) :
  (forall a, yields Q (k a)) -> yields Q (bind c k).
Proof.
  intros Hk s b. unfold bind.
  destruct (c s) as [[a|msg|] s']; simpl; try discriminate. apply Hk.
Qed.

Lemma yields_bind_with (P : A -> Prop) (Q : B -> Prop) (c : M A)
  (k : A -> M B) :
  yields P c -> (forall a, P a -> yields Q (k a)) -> yields Q (bind c k).
Proof.
  intros Hc Hk s b. unfold bind. specialize (Hc s).
  destruct (c s) as [[a|msg|] s']; simpl in *; try discriminate.
  apply Hk, Hc. reflexivity.
Qed.

Lemma yields_try_catch (Q : A -> Prop) (body : M A) (handler : string -> M A) :
  yields Q body -> (forall msg, yields Q (handler msg)) ->
  yields Q (try_catch body handler).
Proof.
  intros Hb Hh s a. unfold try_catch. specialize (Hb s).
  destruct (body s) as [[a'|msg|] s']; simpl in *;
    [apply Hb|apply Hh|discriminate].
Qed.

Variable C : Type.
Variable f : Scraper -> C.

Lemma preserves_ret (a : A) : preserves f (ret a).
Proof. intros s. reflexivity. Qed.

Lemma preserves_throw (msg : string) : preserves f (@throw A msg).
Proof. intros s. reflexivity. Qed.

Lemma preserves_get : preserves f get.
Proof. intros s. reflexivity. Qed.

Lemma preserves_modify (g : Scraper -> Scraper) :
  (forall s, f (g s) = f s) -> preserves f (modify g).
Proof. intros Hg s. apply Hg. Qed.

Lemma preserves_bind (c : M A) (k : A -> M B) :
  preserves f c -> (forall a, preserves f (k a)) -> preserves f (bind c k).
Proof.
  intros Hc Hk s. unfold bind. specialize (Hc s).
  destruct (c s) as [[a|msg|] s']; simpl in *; auto.
  rewrite Hk. exact Hc.
Qed.

Lemma preserves_try_catch (body : M A) (handler : string -> M A) :
  preserves f body -> (forall msg, preserves f (handler msg)) ->
  preserves f (try_catch body handler).
Proof.
  intros Hb Hh s. unfold try_catch. specialize (Hb s).
  destruct (body s) as [[a|msg|] s']; simpl in *; auto.
  rewrite Hh. exact Hb.
Qed.

End MethodLogic.

(** One step of a proof that a method settles, returns, yields or
    preserves: follow the shape of the method. *)
Ltac method_step :=
  match goal with
  | |- returns (bind _ _) => apply returns_bind; [|intros ?]
  | |- returns (ret _) => apply returns_ret
  | |- returns get => apply returns_get
  | |- returns (modify _) => apply returns_modify
  | |- returns (try_catch _ _) => apply returns_try_catch; [|intros ?]
  | |- settles (bind _ _) => apply settles_bind; [|intros ?]
  | |- settles (throw _) => apply settles_throw
  | |- settles (try_catch _ _) => apply settles_try_catch; [|intros ?]
  | |- settles (ret _) => apply settles_returns, returns_ret
  | |- settles get => apply settles_returns, returns_get
  | |- settles (modify _) => apply settles_returns, returns_modify
  | |- yields _ (bind _ _) => apply yields_bind; intros ?
  | |- yields _ (throw _) => apply yields_throw
  | |- yields _ (ret _) => apply yields_ret
  | |- yields _ (try_catch _ _) => apply yields_try_catch; [|intros ?]
  | |- preserves _ (bind _ _) => apply preserves_bind; [|intros ?]
  | |- preserves _ (ret _) => apply preserves_ret
  | |- preserves _ (throw _) => apply preserves_throw
  | |- preserves _ get => apply preserves_get
  | |- preserves _ (modify _) => apply preserves_modify; intros ?; reflexivity
  | |- preserves _ (try_catch _ _) => apply preserves_try_catch; [|intros ?]
  | |- _ (if ?b then _ else _) => destruct b
  | |- _ _ (if ?b then _ else _) => destruct b
  | |- _ (match ?x with _ => _ end) => destruct x
  | |- _ _ (match ?x with _ => _ end) => destruct x
  end.

Ltac method_leaf :=
  match goal with
  | |- returns _ => solve [intros ?; eexists; reflexivity]
  | |- settles _ => solve [intros ?; simpl; discriminate]
  | |- preserves _ _ => solve [intros ?; simpl; auto]
  | |- yields _ _ => solve [intros ? ? ?; discriminate]
  end.

Ltac method := repeat first [method_step | method_leaf]; cbv beta; auto.

(** ** The per-target extractor *)

Section Extractor.

Variable w : World.

Lemma goto_settles (p : PageId) (url : string) (r : option string) :
  settles (goto p url r).
Proof. unfold goto. method. Qed.

Lemma navigateAndExtract_settles a p url index remaining :
  settles (navigateAndExtract w a p url index remaining).
Proof. unfold navigateAndExtract. method. apply goto_settles. Qed.

Lemma close_returns : returns close.
Proof. unfold close, closePage. method. Qed.

Lemma initialize_settles (launch : option string) :
  settles (initialize launch).
Proof.
  unfold initialize. method.
  apply settles_returns, close_returns.
Qed.

Lemma sequentialTry_settles a url index remaining :
  settles (sequentialTry w a url index remaining).
Proof.
  unfold sequentialTry. cbv zeta. method;
    auto using initialize_settles, navigateAndExtract_settles.
Qed.

Lemma sequentialCatch_returns a remaining msg :
  returns (sequentialCatch a remaining msg).
Proof.
  unfold sequentialCatch. method. apply initialize_settles.
Qed.

Lemma sequentialLoop_returns target url index retries :
  forall pass, returns (sequentialLoop w target url index retries pass).
Proof.
  induction retries as [|remaining IH]; intros pass; simpl.
  - apply returns_ret.
  - method; auto using sequentialTry_settles, sequentialCatch_returns.
Qed.

Lemma scrapeBusinessDetails_returns target url index :
  returns (scrapeBusinessDetails w target url index).
Proof.
  unfold scrapeBusinessDetails. method. apply sequentialLoop_returns.
Qed.

Lemma parallelAttempt_returns a p url index remaining :
  returns (parallelAttempt w a p url index remaining).
Proof.
  unfold parallelAttempt, parallelCatch. method.
  apply navigateAndExtract_settles.
Qed.

Lemma parallelLoop_returns target url index retries :
  forall p pass, returns (parallelLoop w target url index p retries pass).
Proof.
  induction retries as [|remaining IH]; intros p pass; simpl.
  - apply returns_ret.
  - method. apply parallelAttempt_returns.
Qed.

Lemma scrapeBusinessDetailsParallel_returns target url index p :
  returns (scrapeBusinessDetailsParallel w target url index p).
Proof. apply parallelLoop_returns. Qed.

End Extractor.

Section RetryBudget.

Variable w : World.
Variables (target : nat) (url : string) (index : nat).

Lemma set_gotoLog_same (s : Scraper) : set_gotoLog (gotoLog s ++ []) s = s.
Proof. rewrite app_nil_r. destruct s; reflexivity. Qed.

Lemma sequential_blocked_pass a remaining p s :
  a_connected a = true ->
  navigatesToInvalidPage a = true ->
  browser s = true ->
  page s = Some p ->
  try_catch (sequentialTry w a url index remaining)
    (sequentialCatch a remaining) s
  = (Ret (decremented remaining), set_gotoLog (gotoLog s ++ [(p, url)]) s).
Proof.
  intros Hconn Hnav Hb Hp.
  unfold navigatesToInvalidPage in Hnav.
  apply andb_prop in Hnav. destruct Hnav as [Hnav Hinvalid].
  apply andb_prop in Hnav. destruct Hnav as [Halive Hgoto].
  destruct (a_goto a) eqn:Hg; [discriminate|].
  unfold try_catch, sequentialTry, bind, get.
  rewrite Hb, Hconn. simpl. rewrite Hp, Halive. simpl.
  unfold navigateAndExtract, goto, bind, modify. rewrite Hg. simpl.
  rewrite Hinvalid. reflexivity.
Qed.

Lemma sequentialLoop_blocked retries :
  forall pass p s,
    (forall k, a_connected (w_sequential w target k) = true
               /\ navigatesToInvalidPage (w_sequential w target k) = true) ->
    browser s = true ->
    page s = Some p ->
    sequentialLoop w target url index retries pass s
    = (Ret None, set_gotoLog (gotoLog s ++ repeat (p, url) retries) s).
Proof.
  induction retries as [|remaining IH]; intros pass p s Hall Hb Hp.
  - simpl. rewrite set_gotoLog_same. reflexivity.
  - simpl. unfold bind at 1.
    destruct (Hall pass) as [Hconn Hnav].
    rewrite (sequential_blocked_pass _ remaining p s Hconn Hnav Hb Hp).
    unfold decremented. destruct remaining as [|remaining'].
    + reflexivity.
    + cbn [Nat.eqb]. rewrite (IH (S pass) p); auto.
      simpl. rewrite <- app_assoc. reflexivity.
Qed.

Lemma parallel_blocked_pass a remaining p s :
  navigatesToInvalidPage a = true ->
  parallelAttempt w a p url index remaining s
  = (Ret (decremented remaining, p),
     set_gotoLog (gotoLog s ++ [(p, url)]) s).
Proof.
  intros Hnav.
  unfold navigatesToInvalidPage in Hnav.
  apply andb_prop in Hnav. destruct Hnav as [Hnav Hinvalid].
  apply andb_prop in Hnav. destruct Hnav as [Halive Hgoto].
  destruct (a_goto a) eqn:Hg; [discriminate|].
  unfold parallelAttempt, try_catch, bind, get.
  rewrite Halive. simpl.
  unfold navigateAndExtract, goto, bind, modify. rewrite Hg. simpl.
  rewrite Hinvalid. reflexivity.
Qed.

Lemma parallelLoop_blocked retries :
  forall pass p s,
    (forall k, navigatesToInvalidPage (w_parallel w target k) = true) ->
    parallelLoop w target url index p retries pass s
    = (Ret None, set_gotoLog (gotoLog s ++ repeat (p, url) retries) s).
Proof.
  induction retries as [|remaining IH]; intros pass p s Hall.
  - simpl. rewrite set_gotoLog_same. reflexivity.
  - simpl. unfold bind at 1.
    rewrite (parallel_blocked_pass _ remaining p s (Hall pass)).
    unfold decremented. destruct remaining as [|remaining'].
    + reflexivity.
    + cbn [Nat.eqb]. rewrite (IH (S pass) p); auto.
      simpl. rewrite <- app_assoc. reflexivity.
Qed.

End RetryBudget.

(** C5: both extractors always return, a record or null, and never throw.
    When every pass of the retry loop navigates and finds an invalid or
    blocked page, the sequential extractor navigates the control page to the
    target exactly 3 times and returns null; the parallel extractor navigates
    its page exactly 2 times and returns null. *)
Theorem retry_budget (w : World) (target : nat) (url : string) (index : nat)
  (p : PageId) (s : Scraper) :
  (exists r, fst (scrapeBusinessDetails w target url index s) = Ret r)
  /\ (exists r, fst (scrapeBusinessDetailsParallel w target url index p s) = Ret r)
  /\ (browser s = true -> page s = Some p ->
      (forall k, a_connected (w_sequential w target k) = true
                 /\ navigatesToInvalidPage (w_sequential w target k) = true) ->
      fst (scrapeBusinessDetails w target url index s) = Ret None
      /\ gotoLog (snd (scrapeBusinessDetails w target url index s))
         = gotoLog s ++ [(p, url); (p, url); (p, url)])
  /\ ((forall k, navigatesToInvalidPage (w_parallel w target k) = true) ->
      fst (scrapeBusinessDetailsParallel w target url index p s) = Ret None
      /\ gotoLog (snd (scrapeBusinessDetailsParallel w target url index p s))
         = gotoLog s ++ [(p, url); (p, url)]).
Proof.
  split; [apply scrapeBusinessDetails_returns|].
  split; [apply scrapeBusinessDetailsParallel_returns|].
  split.
  - intros Hb Hp Hall.
    pose proof (sequentialLoop_blocked w target url index 3 0 p s Hall Hb Hp)
      as Hloop.
    unfold scrapeBusinessDetails, bind, get. rewrite Hp, Hb.
    cbv beta iota delta [negb fst snd]. rewrite Hloop.
    split; reflexivity.
  - intros Hall.
    unfold scrapeBusinessDetailsParallel.
    rewrite (parallelLoop_blocked w target url index 2 0 p s Hall).
    split; reflexivity.
Qed.

(** ** The harvest *)

Section Dedupe.

Let step : list string -> string -> list string :=
  fun seen x => if existsb (String.eqb x) seen then seen else seen ++ [x].

Lemma seen_In (x : string) (seen : list string) :
  existsb (String.eqb x) seen = true <-> In x seen.
Proof.
  rewrite existsb_exists. split.
  - intros [y [Hy Heq]]. apply String.eqb_eq in Heq. subst. exact Hy.
  - intros H. exists x. split; [exact H|apply String.eqb_refl].
Qed.

Lemma step_In (l : list string) :
  forall seen y, In y (fold_left step l seen) <-> In y seen \/ In y l.
Proof.
  induction l as [|x l IH]; intros seen y; simpl.
  - tauto.
  - rewrite IH. unfold step.
    destruct (existsb (String.eqb x) seen) eqn:E.
    + apply seen_In in E. split; [tauto|].
      intros [H|[H|H]]; subst; auto.
    + rewrite in_app_iff. simpl. tauto.
Qed.

Lemma step_NoDup (l : list string) :
  forall seen, NoDup seen -> NoDup (fold_left step l seen).
Proof.
  induction l as [|x l IH]; intros seen Hseen; simpl; [exact Hseen|].
  apply IH. unfold step.
  destruct (existsb (String.eqb x) seen) eqn:E; [exact Hseen|].
  apply NoDup_app; [exact Hseen|repeat constructor; simpl; tauto|].
  intros a Ha [<-|[]].
  apply seen_In in Ha. congruence.
Qed.

Lemma step_fresh (l : list string) :
  forall seen, NoDup (seen ++ l) -> fold_left step l seen = seen ++ l.
Proof.
  induction l as [|x l IH]; intros seen Hnd; simpl.
  - symmetry. apply app_nil_r.
  - assert (Hx : existsb (String.eqb x) seen = false).
    { destruct (existsb (String.eqb x) seen) eqn:E; [|reflexivity].
      apply seen_In in E. apply NoDup_remove_2 in Hnd.
      exfalso. apply Hnd. apply in_or_app. auto. }
    unfold step at 2. rewrite Hx.
    rewrite IH; rewrite <- app_assoc; [reflexivity|exact Hnd].
Qed.

Lemma dedupe_In (l : list string) (y : string) : In y (dedupe l) <-> In y l.
Proof. unfold dedupe. fold step. rewrite step_In. simpl. tauto. Qed.

Lemma dedupe_NoDup (l : list string) : NoDup (dedupe l).
Proof. unfold dedupe. fold step. apply step_NoDup. constructor. Qed.

Lemma dedupe_app_dedupe (a b : list string) :
  dedupe (dedupe a ++ b) = dedupe (a ++ b).
Proof.
  unfold dedupe. fold step. rewrite !fold_left_app. f_equal.
  change (fold_left step a []) with (dedupe a).
  apply (step_fresh (dedupe a) []). apply dedupe_NoDup.
Qed.

Lemma dedupe_dedupe (a : list string) : dedupe (dedupe a) = dedupe a.
Proof.
  rewrite <- (app_nil_r (dedupe a)) at 1.
  rewrite dedupe_app_dedupe, app_nil_r. reflexivity.
Qed.

End Dedupe.

Lemma harvest_union (w : World) :
  harvest w = filter validLink (dedupe (harvested w)).
Proof.
  unfold harvest, harvested, harvestOf. f_equal.
  destruct (w_method1 w) as [l1|], (w_method2 w) as [l2|],
    (w_method3 w) as [l3|];
    simpl;
    rewrite ?dedupe_dedupe, ?dedupe_app_dedupe, ?app_nil_r, <- ?app_assoc;
    reflexivity.
Qed.

(** C6, as the code has it: the final list is the union of what the three
    strategies found, each token once, in the order of first discovery,
    without the tokens that do not contain /maps/place/ or have 10
    characters or fewer.  A token found by two strategies is in the list
    exactly once if it passes that test, and not at all otherwise. *)
Theorem harvest_is_filtered_union (w : World) :
  harvest w = filter validLink (dedupe (harvested w))
  /\ NoDup (harvest w)
  /\ (forall t, In t (harvest w) <-> In t (harvested w) /\ validLink t = true)
  /\ (forall t, In t (harvested w) ->
                count_occ string_dec (harvest w) t
                = if validLink t then 1 else 0).
Proof.
  assert (Hnd : NoDup (harvest w)).
  { rewrite harvest_union. apply NoDup_filter, dedupe_NoDup. }
  assert (Hin : forall t,
             In t (harvest w) <-> In t (harvested w) /\ validLink t = true).
  { intros t. rewrite harvest_union, filter_In, dedupe_In. tauto. }
  split; [apply harvest_union|]. split; [exact Hnd|]. split; [exact Hin|].
  intros t Ht. destruct (validLink t) eqn:Hv.
  - apply NoDup_count_occ'; [exact Hnd|]. apply Hin. auto.
  - apply count_occ_not_In. intros H. apply Hin in H. destruct H. congruence.
Qed.

(** C6, refuted as stated: a directions link of more than 10 characters is
    harvested and yet is not in the final list, because it does not contain
    /maps/place/. *)
Lemma harvest_drops_directions_link :
  harvest directionsWorld = []
  /\ harvestBySpec directionsWorld
     = ["https://www.google.com/maps/dir//Cafe+Luna"].
Proof. split; vm_compute; reflexivity. Qed.

(** The time that the passes take, and with it the timer, has no part in
    what the loop does. *)
Lemma scrollLoop_ignores_clock (w1 w2 : World) (fuel : nat) :
  sameCounts w1 w2 ->
  forall st1 st2 s,
    sameCounters st1 st2 ->
    snd (scrollLoop w1 fuel st1 s) = snd (scrollLoop w2 fuel st2 s)
    /\ sameOutcome (fst (scrollLoop w1 fuel st1 s))
                   (fst (scrollLoop w2 fuel st2 s)).
Proof.
  intros [Hmode Hcounts].
  induction fuel as [|fuel IH]; intros st1 st2 s Hsame; simpl.
  - split; [reflexivity|exact Hsame].
  - destruct Hsame as [Ha [Hc [Hp Hl]]].
    rewrite Hmode, Ha, Hc.
    match goal with |- context [if ?b then _ else _] => destruct b end;
      [|split; [reflexivity|repeat split; assumption]].
    unfold bind, get.
    destruct (isCancelled s);
      [split; [reflexivity|repeat split; simpl; congruence]|].
    destruct ((if isPaused s then waitForResume else ret tt) s)
      as [[[]|msg|] s1]; try (split; reflexivity).
    destruct (awaitPoint s1) as [[[]|msg|] s2]; try (split; reflexivity).
    destruct (Hcounts (scrollAttempts st2)) as [Hcur Hnew].
    rewrite Hcur, Hnew.
    set (c := currentCount (w_scroll w2 (scrollAttempts st2))).
    set (n := newCount (w_scroll w2 (scrollAttempts st2))).
    set (a1 := advanceClock (o_millis (w_scroll w1 (scrollAttempts st2)))
                 (compareCounts c n (countAttempt st1))).
    set (a2 := advanceClock (o_millis (w_scroll w2 (scrollAttempts st2)))
                 (compareCounts c n (countAttempt st2))).
    assert (Hnext : sameCounters a1 a2).
    { subst a1 a2. unfold advanceClock, compareCounts, countAttempt.
      cbv zeta.
      repeat match goal with
             | |- context [if ?b then _ else _] => destruct b
             end; repeat split; simpl; congruence. }
    pose proof Hnext as [Ha' [Hc' [Hp' Hl']]].
    rewrite Hc', Hl'.
    match goal with |- context [if ?b then _ else _] => destruct b end.
    + split; [reflexivity|exact Hnext].
    + apply IH, Hnext.
Qed.

(** A run of the scroll loop: growth at three passes, then four passes
    without. *)
Example discovery_run :
  exists st,
    fst (scrollAndLoadAllResults (plainWorld (Some 500%Z)) (readyScraper []))
    = Ret st
    /\ scrollAttempts st = 7
    /\ exhaustedFrom (plainWorld (Some 500%Z)) 3.
Proof.
  eexists. split; [vm_compute; reflexivity|]. split; [reflexivity|].
  intros i Hi. unfold noGrowth, newCount, currentCount. simpl.
  destruct (i <? 3) eqn:E; [apply Nat.ltb_lt in E; lia|].
  apply Nat.leb_refl.
Qed.

(** C4, on the code: the timer's callback only logs.  On a page that keeps
    growing and takes ten seconds a pass, the callback runs after three
    minutes and the loop goes on to its 30th pass, five minutes after the
    start. *)
Theorem scroll_timeout_stops_nothing :
  exists st,
    fst (scrollAndLoadAllResults slowWorld (readyScraper [])) = Ret st
    /\ timeoutFired st = true
    /\ scrollAttempts st = 30
    /\ elapsed st = 300000%Z.
Proof. eexists. vm_compute. repeat split. Qed.

(** The retry loop of both extractors against a source that always blocks. *)
Example retry_budget_blocked :
  let s := readyScraper [] in
  fst (scrapeBusinessDetails blockedWorld 0 (place "A") 1 s) = Ret None
  /\ gotoLog (snd (scrapeBusinessDetails blockedWorld 0 (place "A") 1 s))
     = [(0, place "A"); (0, place "A"); (0, place "A")]
  /\ gotoLog (snd (scrapeBusinessDetailsParallel blockedWorld 0 (place "A") 1 7 s))
     = [(7, place "A"); (7, place "A")].
Proof. vm_compute. repeat split. Qed.

(** ** What the extractors leave alone *)

Lemma runCommands_preserves {B : Type} (f : Scraper -> B) (cs : list Command) :
  ignoresControl f -> forall s, f (runCommands cs s) = f s.
Proof.
  intros [Hst [Hem Hpe]].
  induction cs as [|c cs IH]; intros s; [reflexivity|].
  unfold runCommands in *. simpl. rewrite IH.
  destruct c; unfold runCommand, pause, resume, cancel, updateProgress;
    cbv zeta; rewrite Hem, Hst; reflexivity.
Qed.

Lemma awaitPoint_preserves {B : Type} (f : Scraper -> B) :
  ignoresControl f -> preserves f awaitPoint.
Proof.
  intros Hf s. unfold awaitPoint. destruct (pending s); [reflexivity|].
  simpl. rewrite runCommands_preserves by exact Hf.
  destruct Hf as [_ [_ Hpe]]. apply Hpe.
Qed.

Lemma waitForResume_preserves {B : Type} (f : Scraper -> B) :
  ignoresControl f -> preserves f waitForResume.
Proof.
  intros Hf s. unfold waitForResume.
  generalize (pending s) as ticks. intros ticks. revert s.
  induction ticks as [|cs rest IH]; intros s; simpl;
    destruct (isPaused s); simpl;
    try (destruct Hf as [_ [_ Hpe]]; apply Hpe).
  rewrite IH. apply runCommands_preserves, Hf.
Qed.

Section Frames.

Context {B : Type}.
Variable f : Scraper -> B.
Variable w : World.

Lemma goto_preserves p url r : ignoresNavigation f -> preserves f (goto p url r).
Proof. intros [_ Hlog]. unfold goto. method. Qed.

Lemma navigateAndExtract_preserves a p url index remaining :
  ignoresNavigation f ->
  preserves f (navigateAndExtract w a p url index remaining).
Proof.
  intros Hf. unfold navigateAndExtract. method. apply goto_preserves, Hf.
Qed.

Lemma newPage_preserves : ignoresNavigation f -> preserves f newPage.
Proof. intros [Hnew _] s. apply Hnew. Qed.

Lemma parallelAttempt_preserves a p url index remaining :
  ignoresNavigation f ->
  preserves f (parallelAttempt w a p url index remaining).
Proof.
  intros Hf. unfold parallelAttempt, parallelCatch.
  method; auto using newPage_preserves, navigateAndExtract_preserves.
Qed.

Lemma parallelLoop_preserves target url index retries :
  ignoresNavigation f ->
  forall p pass, preserves f (parallelLoop w target url index p retries pass).
Proof.
  intros Hf. induction retries as [|remaining IH]; intros p pass; simpl.
  - apply preserves_ret.
  - method. apply parallelAttempt_preserves, Hf.
Qed.

Lemma close_preserves : ignoresBrowser f -> preserves f close.
Proof.
  intros [_ [Hb Hc]]. unfold close. method.
  - intros s. apply Hc.
Qed.

Lemma initialize_preserves launch :
  ignoresBrowser f -> preserves f (initialize launch).
Proof.
  intros Hf. pose proof Hf as [Hn [Hb Hc]].
  unfold initialize. method; auto using newPage_preserves, close_preserves.
Qed.

Lemma sequentialTry_preserves a url index remaining :
  ignoresBrowser f -> preserves f (sequentialTry w a url index remaining).
Proof.
  intros Hf. pose proof Hf as [Hn [Hb Hc]].
  unfold sequentialTry. cbv zeta.
  method; auto using initialize_preserves, newPage_preserves,
            navigateAndExtract_preserves.
Qed.

Lemma sequentialCatch_preserves a remaining msg :
  ignoresBrowser f -> preserves f (sequentialCatch a remaining msg).
Proof.
  intros Hf. unfold sequentialCatch. method. apply initialize_preserves, Hf.
Qed.

Lemma sequentialLoop_preserves target url index retries :
  ignoresBrowser f ->
  forall pass, preserves f (sequentialLoop w target url index retries pass).
Proof.
  intros Hf. induction retries as [|remaining IH]; intros pass; simpl.
  - apply preserves_ret.
  - method; auto using sequentialTry_preserves, sequentialCatch_preserves.
Qed.

Lemma scrapeBusinessDetails_preserves target url index :
  ignoresBrowser f -> preserves f (scrapeBusinessDetails w target url index).
Proof.
  intros Hf. unfold scrapeBusinessDetails. method.
  apply sequentialLoop_preserves, Hf.
Qed.

End Frames.

Lemma results_ignore_browser : ignoresBrowser scrapedBusinesses.
Proof. repeat split. Qed.

Lemma results_ignore_control : ignoresControl scrapedBusinesses.
Proof. repeat split. Qed.



(** ** Extracted records are well formed *)

Lemma cascade_ind {A : Type} (P : A -> Prop) (try : string -> option A)
  (selectors : list string) (fallback : A) :
  P fallback ->
  (forall selector a, try selector = Some a -> P a) ->
  P (cascade try selectors fallback).
Proof.
  intros Hfallback Htry.
  induction selectors as [|selector rest IH]; simpl; [exact Hfallback|].
  destruct (try selector) eqn:E; [exact (Htry _ _ E)|exact IH].
Qed.

Lemma getRating_range (parseFloat : string -> num) (d : Dom) :
  exists q, getRating parseFloat d = Fin q /\ (0 <= q /\ q <= 5)%Q.
Proof.
  unfold getRating. apply cascade_ind.
  - exists (inject_Z 0). split; [reflexivity|]. split; discriminate.
  - intros selector r H.
    destruct (d selector) as [el|]; [|discriminate].
    destruct (truthy (textContent el)); [|discriminate].
    destruct (parseFloat (trim (textContent el))) as [|positive|q];
      simpl in H; try discriminate.
    + destruct positive; discriminate.
    + unfold geb, leb, ofZ in H.
      destruct (Qcompare (inject_Z 0) q) eqn:Hlow;
        destruct (Qcompare q (inject_Z 5)) eqn:Hhigh;
        simpl in H; try discriminate;
        inversion H; subst; exists q; (split; [reflexivity|]);
        split; apply Qle_alt; unfold inject_Z in *; congruence.
Qed.

Lemma or_else_truthy (a b : string) :
  b <> EmptyString -> or_else a b <> EmptyString.
Proof. intros Hb. unfold or_else. destruct a; simpl; [exact Hb|discriminate]. Qed.

Lemma makeBusiness_wellFormed (parseFloat : string -> num) (d : Dom)
  (now : Z) (index : nat) (coords : option (num * num)) :
  wellFormed (makeBusiness (evaluateBusinessData parseFloat d) now index coords).
Proof.
  unfold wellFormed, makeBusiness, evaluateBusinessData. simpl.
  split; [apply or_else_truthy; discriminate|].
  split; [apply or_else_truthy; discriminate|].
  split.
  - intros r Hr.
    destruct (getRating_range parseFloat d) as [q [Hq [Hlow Hhigh]]].
    rewrite Hq in Hr. unfold gtb, ltb, ofZ in Hr.
    destruct (Qcompare (inject_Z 0) q) eqn:Hcmp; try discriminate.
    inversion Hr. subst r. exists q. split; [reflexivity|].
    split; [apply Qlt_alt; exact Hcmp|exact Hhigh].
  - intros n Hn.
    destruct (0 <? getReviewCount d)%Z eqn:Hpos; [|discriminate].
    inversion Hn. subst n. apply Z.ltb_lt. exact Hpos.
Qed.

Lemma decremented_wellFormed (remaining : nat) :
  wellFormedStep (decremented remaining).
Proof. unfold decremented. destruct (remaining =? 0); exact I. Qed.

Section WellFormedResults.

Variable w : World.

Lemma navigateAndExtract_wellFormed a p url index remaining :
  yields wellFormedStep (navigateAndExtract w a p url index remaining).
Proof.
  unfold navigateAndExtract. method;
    auto using decremented_wellFormed.
  simpl. apply makeBusiness_wellFormed.
Qed.

Lemma sequentialTry_wellFormed a url index remaining :
  yields wellFormedStep (sequentialTry w a url index remaining).
Proof.
  unfold sequentialTry. cbv zeta. method;
    auto using navigateAndExtract_wellFormed; exact I.
Qed.

Lemma sequentialCatch_wellFormed a remaining msg :
  yields wellFormedStep (sequentialCatch a remaining msg).
Proof.
  unfold sequentialCatch. method;
    auto using decremented_wellFormed; exact I.
Qed.

Lemma sequentialLoop_wellFormed target url index retries :
  forall pass,
    yields wellFormedResult (sequentialLoop w target url index retries pass).
Proof.
  induction retries as [|remaining IH]; intros pass; simpl.
  - apply yields_ret. exact I.
  - intros s r. unfold bind.
    pose proof (yields_try_catch wellFormedStep
                  (sequentialTry w (w_sequential w target pass) url index
                     remaining)
                  (sequentialCatch (w_sequential w target pass) remaining)
                  (sequentialTry_wellFormed _ _ _ _)
                  (sequentialCatch_wellFormed _ _) s) as Hstep.
    destruct (try_catch _ _ s) as [[[result|]|msg|] s']; simpl in *;
      try discriminate.
    + intros H. inversion H. subst. exact (Hstep _ eq_refl).
    + apply IH.
Qed.

Lemma scrapeBusinessDetails_wellFormed target url index :
  yields wellFormedResult (scrapeBusinessDetails w target url index).
Proof.
  unfold scrapeBusinessDetails. method; try exact I.
  apply sequentialLoop_wellFormed.
Qed.

Lemma parallelAttempt_wellFormed a p url index remaining :
  yields (fun r => wellFormedStep (fst r))
    (parallelAttempt w a p url index remaining).
Proof.
  unfold parallelAttempt, parallelCatch.
  apply yields_try_catch;
    [|intros msg; apply yields_ret, decremented_wellFormed].
  apply yields_bind. intros s0. apply yields_bind. intros [q|];
    [|apply yields_ret; exact I].
  apply yields_try_catch;
    [|intros msg; apply yields_ret, decremented_wellFormed].
  apply (yields_bind_with wellFormedStep).
  - apply navigateAndExtract_wellFormed.
  - intros step Hstep. apply yields_ret. exact Hstep.
Qed.

Lemma parallelLoop_wellFormed target url index retries :
  forall p pass,
    yields wellFormedResult (parallelLoop w target url index p retries pass).
Proof.
  induction retries as [|remaining IH]; intros p pass; simpl.
  - apply yields_ret. exact I.
  - intros s r. unfold bind.
    pose proof (parallelAttempt_wellFormed (w_parallel w target pass) p url
                  index remaining s) as Hstep.
    destruct (parallelAttempt _ _ _ _ _ _ s) as [[[[result|] q]|msg|] s'];
      simpl in *; try discriminate.
    + intros H. inversion H. subst. exact (Hstep _ eq_refl).
    + apply IH.
Qed.

End WellFormedResults.

(** ** The result set only grows, by well-formed records *)

Lemma grown_refl (l : list BusinessData) : grown 0 l l.
Proof. exists []. rewrite app_nil_r. repeat split; auto. Qed.

Lemma grown_trans (n m : nat) (l1 l2 l3 : list BusinessData) :
  grown n l1 l2 -> grown m l2 l3 -> grown (n + m) l1 l3.
Proof.
  intros [a [-> [Ha Hwa]]] [b [-> [Hb Hwb]]].
  exists (a ++ b). rewrite app_assoc. split; [reflexivity|]. split.
  - rewrite length_app. lia.
  - apply Forall_app. auto.
Qed.

Lemma grown_weaken (n m : nat) (l l' : list BusinessData) :
  n <= m -> grown n l l' -> grown m l l'.
Proof. intros Hle [a [-> [Ha Hwa]]]. exists a. repeat split; auto. lia. Qed.

Section Appending.

Context {A B : Type}.

Lemma appendsAtMost_preserves (c : M A) :
  preserves scrapedBusinesses c -> appendsAtMost 0 c.
Proof. intros Hc s. rewrite Hc. apply grown_refl. Qed.

Lemma appendsAtMost_weaken (n m : nat) (c : M A) :
  n <= m -> appendsAtMost n c -> appendsAtMost m c.
Proof. intros Hle Hc s. apply (grown_weaken n); auto. Qed.

Lemma appendsAtMost_bind_with (P : A -> Prop) (n m t : nat) (c : M A)
  (k : A -> M B) :
  n + m <= t ->
  yields P c -> appendsAtMost n c -> (forall a, P a -> appendsAtMost m (k a)) ->
  appendsAtMost t (bind c k).
Proof.
  intros Hle Hy Hc Hk s. unfold bind. specialize (Hc s). specialize (Hy s).
  destruct (c s) as [[a|msg|] s']; simpl in *;
    try (apply (grown_weaken n); [lia|exact Hc]).
  apply (grown_weaken (n + m)); [exact Hle|].
  apply (grown_trans n m _ _ _ Hc). apply Hk, Hy. reflexivity.
Qed.

Lemma appendsAtMost_bind (n m t : nat) (c : M A) (k : A -> M B) :
  n + m <= t ->
  appendsAtMost n c -> (forall a, appendsAtMost m (k a)) ->
  appendsAtMost t (bind c k).
Proof.
  intros Hle Hc Hk.
  apply (appendsAtMost_bind_with (fun _ => True) n m); auto.
  intros s a _. exact I.
Qed.

(** A step that leaves the result set alone, then the rest. *)
Lemma appendsAtMost_after (t : nat) (c : M A) (k : A -> M B) :
  preserves scrapedBusinesses c -> (forall a, appendsAtMost t (k a)) ->
  appendsAtMost t (bind c k).
Proof.
  intros Hc Hk. apply (appendsAtMost_bind 0 t); auto.
  apply appendsAtMost_preserves, Hc.
Qed.

Lemma appendsAtMost_try_catch (n : nat) (body : M A) (handler : string -> M A) :
  appendsAtMost n body ->
  (forall msg, preserves scrapedBusinesses (handler msg)) ->
  appendsAtMost n (try_catch body handler).
Proof.
  intros Hb Hh s. unfold try_catch. specialize (Hb s).
  destruct (body s) as [[a|msg|] s']; simpl in *; auto.
  rewrite Hh. exact Hb.
Qed.

End Appending.

Lemma appendsAtMost_ret {A : Type} (n : nat) (a : A) : appendsAtMost n (ret a).
Proof.
  apply (appendsAtMost_weaken 0); [lia|].
  apply appendsAtMost_preserves, preserves_ret.
Qed.

Lemma appendsAtMost_push (b : BusinessData) :
  wellFormed b -> appendsAtMost 1 (modify (pushBusiness b)).
Proof. intros Hb s. exists [b]. simpl. repeat split; auto. Qed.

Section Scheduler.

Variable w : World.

Lemma scrapeBusinessDetailsParallel_preserves {B : Type} (f : Scraper -> B)
  target url index p :
  ignoresNavigation f ->
  preserves f (scrapeBusinessDetailsParallel w target url index p).
Proof. intros Hf. apply parallelLoop_preserves, Hf. Qed.

Lemma sequentialBatch_appends total batchStart (batch : list string) :
  forall i,
    appendsAtMost (List.length batch)
      (sequentialBatch w total batchStart i batch).
Proof.
  induction batch as [|businessLink rest IH]; intros i; simpl.
  - apply appendsAtMost_ret.
  - apply appendsAtMost_after; [method|intros _].
    apply (appendsAtMost_bind 1 (List.length rest)); [lia| |intros _].
    + apply appendsAtMost_try_catch; [|intros msg; method].
      destruct (truthy businessLink); [|apply appendsAtMost_ret].
      apply appendsAtMost_after;
        [apply awaitPoint_preserves, results_ignore_control|intros _].
      apply (appendsAtMost_bind_with wellFormedResult 0 1); [lia| | |].
      * apply scrapeBusinessDetails_wellFormed.
      * apply appendsAtMost_preserves, scrapeBusinessDetails_preserves,
          results_ignore_browser.
      * intros [b|] Hb; [apply appendsAtMost_push, Hb|apply appendsAtMost_ret].
    + apply appendsAtMost_after; [method|intros s].
      apply appendsAtMost_after; [method|intros _].
      apply IH.
Qed.

Lemma batchPromises_preserves {B : Type} (f : Scraper -> B) pages batchStart
  (batch : list string) :
  ignoresNavigation f ->
  forall index, preserves f (batchPromises w pages batchStart index batch).
Proof.
  intros Hf. induction batch as [|businessLink rest IH]; intros index; simpl.
  - apply preserves_ret.
  - method. apply scrapeBusinessDetailsParallel_preserves, Hf.
Qed.

Lemma batchPromises_wellFormed pages batchStart (batch : list string) :
  forall index,
    yields (fun rs => List.length rs = List.length batch
                      /\ Forall wellFormedResult rs)
      (batchPromises w pages batchStart index batch).
Proof.
  induction batch as [|businessLink rest IH]; intros index; simpl.
  - apply yields_ret. split; [reflexivity|constructor].
  - apply (yields_bind_with wellFormedResult).
    + apply yields_try_catch; [|intros msg; apply yields_ret; exact I].
      apply parallelLoop_wellFormed.
    + intros r Hr. apply (yields_bind_with _ _ _ _ (IH (S index))).
      intros rs [Hlen Hrs]. apply yields_ret. simpl.
      split; [congruence|constructor; assumption].
Qed.

Lemma batchPromises_returns pages batchStart (batch : list string) :
  forall index, returns (batchPromises w pages batchStart index batch).
Proof.
  induction batch as [|businessLink rest IH]; intros index; simpl.
  - apply returns_ret.
  - method. apply settles_returns, scrapeBusinessDetailsParallel_returns.
Qed.

Lemma pushResults_appends (results : list (option BusinessData)) :
  Forall wellFormedResult results ->
  appendsAtMost (List.length results) (pushResults results).
Proof.
  induction results as [|[b|] rest IH]; intros Hwf; simpl.
  - apply appendsAtMost_ret.
  - inversion Hwf; subst.
    apply (appendsAtMost_bind 1 (List.length rest)); [lia| |intros _; auto].
    apply appendsAtMost_push. assumption.
  - inversion Hwf; subst.
    apply (appendsAtMost_weaken (List.length rest)); [lia|auto].
Qed.

Lemma closePages_preserves_results (pages : list PageId) :
  preserves scrapedBusinesses (closePages pages).
Proof.
  induction pages as [|p rest IH]; simpl; [apply preserves_ret|].
  unfold closePage. method.
Qed.

Lemma parallelBatch_appends pages batchStart (batch : list string) :
  appendsAtMost (List.length batch) (parallelBatch w pages batchStart batch).
Proof.
  unfold parallelBatch.
  eapply (appendsAtMost_bind_with _ 0 (List.length batch));
    [lia|apply batchPromises_wellFormed| |].
  - apply appendsAtMost_preserves, batchPromises_preserves. repeat split.
  - intros rs [Hlen Hrs].
    apply appendsAtMost_after;
      [apply awaitPoint_preserves, results_ignore_control|intros _].
    apply (appendsAtMost_bind (List.length batch) 0); [lia| |intros _].
    + rewrite <- Hlen. apply pushResults_appends, Hrs.
    + apply appendsAtMost_preserves, closePages_preserves_results.
Qed.

Lemma openPages_preserves_results (tries : list PageTry) :
  forall pages, preserves scrapedBusinesses (openPages tries pages).
Proof.
  induction tries as [|t rest IH]; intros pages; simpl; method.
Qed.

Lemma createBatchPages_preserves_results batchStart (batch : list string) :
  preserves scrapedBusinesses (createBatchPages w batchStart batch).
Proof.
  unfold createBatchPages. method. apply openPages_preserves_results.
Qed.

Lemma ensureBrowserHealth_preserves_results (h : Health) :
  preserves scrapedBusinesses (ensureBrowserHealth h).
Proof.
  unfold ensureBrowserHealth. method.
  - apply awaitPoint_preserves, results_ignore_control.
  - apply initialize_preserves, results_ignore_browser.
Qed.

Lemma batch_length (links : list string) (batchStart size : nat) :
  List.length
    (firstn (Nat.min (batchStart + size) (List.length links) - batchStart)
       (skipn batchStart links))
  + (List.length links - (batchStart + size))
  <= List.length links - batchStart.
Proof. rewrite length_firstn, length_skipn. lia. Qed.

Lemma bind_ext {A B : Type} (c : M A) (k1 k2 : A -> M B) (s : Scraper) :
  (forall a s', k1 a s' = k2 a s') -> bind c k1 s = bind c k2 s.
Proof.
  intros Hk. unfold bind. destruct (c s) as [[a|msg|] s']; auto.
Qed.

Lemma batchSize_positive : 1 <= batchSize w.
Proof. unfold batchSize. pose proof (Pos2Nat.is_pos (w_maxConcurrent w)). lia. Qed.

(** A batch takes at least one link: as many turns of the batch loop as
    there are links are all it can make. *)
Lemma batchLoop_fuel (links : list string) (fuel : nat) :
  forall batchStart extra s,
    List.length links - batchStart <= fuel ->
    batchLoop w links (fuel + extra) batchStart s
    = batchLoop w links fuel batchStart s.
Proof.
  induction fuel as [|fuel IH]; intros batchStart extra s Hfuel.
  - destruct extra as [|extra]; [reflexivity|]. simpl.
    replace (batchStart <? List.length links) with false; [reflexivity|].
    symmetry. apply Nat.ltb_ge. lia.
  - simpl. destruct (batchStart <? List.length links); [|reflexivity].
    apply bind_ext. intros s0 s1.
    destruct (isCancelled s0); [reflexivity|].
    apply bind_ext. intros stop s2. destruct stop; [reflexivity|].
    apply bind_ext. intros healthOk s3.
    destruct (negb healthOk); [reflexivity|].
    apply bind_ext. intros pages s4.
    apply bind_ext. intros _ s5.
    apply bind_ext. intros _ s6.
    apply IH. pose proof batchSize_positive. lia.
Qed.

Lemma batchLoop_appends (links : list string) (fuel : nat) :
  forall batchStart,
    appendsAtMost (List.length links - batchStart)
      (batchLoop w links fuel batchStart).
Proof.
  induction fuel as [|fuel IH]; intros batchStart; simpl;
    [apply appendsAtMost_ret|].
  destruct (batchStart <? List.length links); [|apply appendsAtMost_ret].
  apply appendsAtMost_after; [method|intros s].
  destruct (isCancelled s); [apply appendsAtMost_ret|].
  apply appendsAtMost_after.
  { destruct (isPaused s); method.
    apply waitForResume_preserves, results_ignore_control. }
  intros stop. destruct stop; [apply appendsAtMost_ret|].
  apply appendsAtMost_after;
    [apply ensureBrowserHealth_preserves_results|intros healthOk].
  destruct (negb healthOk); [apply appendsAtMost_ret|].
  apply appendsAtMost_after;
    [apply createBatchPages_preserves_results|intros pages].
  eapply appendsAtMost_bind; [apply batch_length| |intros _].
  - destruct (1 <? List.length pages);
      [apply parallelBatch_appends|apply sequentialBatch_appends].
  - apply appendsAtMost_after; [|intros _; apply IH].
    match goal with |- preserves _ (if ?b then _ else _) => destruct b end;
      [apply awaitPoint_preserves, results_ignore_control|apply preserves_ret].
Qed.

End Scheduler.

Section Run.

Variable w : World.
Variable params : SearchParams.

Lemma scrollLoop_preserves_results (fuel : nat) :
  forall st, preserves scrapedBusinesses (scrollLoop w fuel st).
Proof.
  induction fuel as [|fuel IH]; intros st; simpl; [apply preserves_ret|].
  match goal with |- preserves _ (if ?b then _ else _) => destruct b end;
    [|apply preserves_ret].
  apply preserves_bind; [apply preserves_get|intros s].
  destruct (isCancelled s); [apply preserves_ret|].
  apply preserves_bind.
  { destruct (isPaused s);
      [apply waitForResume_preserves, results_ignore_control
      |apply preserves_ret]. }
  intros _. apply preserves_bind;
    [apply awaitPoint_preserves, results_ignore_control|intros _].
  match goal with |- preserves _ (if ?b then _ else _) => destruct b end;
    [apply preserves_ret|apply IH].
Qed.

Lemma scrollAndLoadAllResults_preserves_results :
  preserves scrapedBusinesses (scrollAndLoadAllResults w).
Proof.
  unfold scrollAndLoadAllResults. method. apply scrollLoop_preserves_results.
Qed.

Lemma waitForResults_preserves_results (selectors : list string) :
  preserves scrapedBusinesses (waitForResults w selectors).
Proof.
  induction selectors as [|selector rest IH]; simpl; method.
  apply awaitPoint_preserves, results_ignore_control.
Qed.

Lemma extractAll_appends :
  appendsAtMost (List.length (linksToProcess w params (harvest w)))
    (extractAll w params).
Proof.
  unfold extractAll. cbv zeta.
  destruct (List.length (harvest w) =? 0).
  { apply appendsAtMost_after; [method|intros _; apply appendsAtMost_ret]. }
  apply appendsAtMost_after; [method|intros _].
  apply appendsAtMost_after; [method|intros _].
  destruct (negb (w_pageStillValid w)).
  { apply appendsAtMost_after; [method|intros _; apply appendsAtMost_ret]. }
  eapply appendsAtMost_bind; [|apply batchLoop_appends|intros _].
  { rewrite Nat.sub_0_r, Nat.add_0_r. apply Nat.le_refl. }
  apply appendsAtMost_after; [method|intros s].
  apply appendsAtMost_after; [destruct (isCancelled s); method|intros _].
  apply appendsAtMost_after; [method|intros s'].
  apply appendsAtMost_ret.
Qed.

Lemma searchAndExtract_appends (p : PageId) :
  appendsAtMost (List.length (linksToProcess w params (harvest w)))
    (searchAndExtract w params p).
Proof.
  unfold searchAndExtract.
  apply appendsAtMost_after;
    [apply goto_preserves; repeat split|intros _].
  apply appendsAtMost_after;
    [apply awaitPoint_preserves, results_ignore_control|intros _].
  apply appendsAtMost_after; [method|intros s].
  destruct (isCancelled s); [apply appendsAtMost_ret|].
  apply appendsAtMost_after;
    [apply waitForResults_preserves_results|intros [[|]|]].
  - apply appendsAtMost_after;
      [apply scrollAndLoadAllResults_preserves_results|intros _].
    apply appendsAtMost_after; [method|intros s'].
    destruct (isCancelled s'); [apply appendsAtMost_ret|].
    apply extractAll_appends.
  - apply (appendsAtMost_weaken 0); [lia|].
    apply appendsAtMost_preserves, preserves_throw.
  - apply appendsAtMost_after; [method|intros s']. apply appendsAtMost_ret.
Qed.

Lemma returnsResultSet_bind {A : Type} (c : M A) (k : A -> M (list BusinessData)) :
  (forall a, returnsResultSet (k a)) -> returnsResultSet (bind c k).
Proof.
  intros Hk s l. unfold bind.
  destruct (c s) as [[a|msg|] s']; simpl; try discriminate. apply Hk.
Qed.

Lemma returnsResultSet_current :
  returnsResultSet (bind get (fun s => ret (scrapedBusinesses s))).
Proof. intros s l H. inversion H. right. reflexivity. Qed.

Lemma returnsResultSet_nil : returnsResultSet (ret []).
Proof. intros s l H. inversion H. left. reflexivity. Qed.

Lemma returnsResultSet_throw (msg : string) : returnsResultSet (throw msg).
Proof. intros s l H. discriminate. Qed.

Lemma extractAll_returnsResultSet : returnsResultSet (extractAll w params).
Proof.
  unfold extractAll. cbv zeta.
  repeat first
    [ apply returnsResultSet_nil
    | apply returnsResultSet_current
    | apply returnsResultSet_throw
    | apply returnsResultSet_bind; intros ?
    | match goal with
      | |- returnsResultSet (if ?b then _ else _) => destruct b
      end ].
Qed.

Lemma returnsResultSet_unless_cancelled (c : M (list BusinessData)) :
  returnsResultSet c ->
  returnsResultSet
    (s <- get ;; if isCancelled s then ret (scrapedBusinesses s) else c).
Proof.
  intros Hc s l. unfold bind, get. cbv beta iota.
  destruct (isCancelled s).
  - intros H. inversion H. right. reflexivity.
  - apply Hc.
Qed.

Lemma searchAndExtract_returnsResultSet (p : PageId) :
  returnsResultSet (searchAndExtract w params p).
Proof.
  unfold searchAndExtract.
  apply returnsResultSet_bind; intros _.
  apply returnsResultSet_bind; intros _.
  apply returnsResultSet_unless_cancelled.
  apply returnsResultSet_bind. intros [[|]|].
  - apply returnsResultSet_bind. intros _.
    apply returnsResultSet_unless_cancelled, extractAll_returnsResultSet.
  - apply returnsResultSet_throw.
  - apply returnsResultSet_current.
Qed.

(** The run of [scrapeBusinesses] on an initialized scraper: the result set
    starts empty and gets at most one well-formed record per link of the
    slice; what is returned is the result set or an empty list. *)
Lemma scrapeBusinesses_results (s : Scraper) (p : PageId) :
  page s = Some p ->
  grown (List.length (linksToProcess w params (harvest w))) []
    (scrapedBusinesses (snd (scrapeBusinesses w params s)))
  /\ forall l, fst (scrapeBusinesses w params s) = Ret l ->
               grown (List.length (linksToProcess w params (harvest w))) [] l.
Proof.
  intros Hp.
  unfold scrapeBusinesses, bind, get, modify. rewrite Hp. cbv beta iota.
  set (s1 := updateProgress _ (set_index 0 (set_scraped [] (set_state running s)))).
  pose proof (searchAndExtract_appends p s1) as Happ.
  pose proof (searchAndExtract_returnsResultSet p s1) as Hret.
  destruct (searchAndExtract w params p s1) as [o s2]. simpl in *.
  split; [exact Happ|].
  intros l Hl. subst o. destruct (Hret l eq_refl) as [->| ->]; [|exact Happ].
  exists []. repeat split; auto. simpl. lia.
Qed.

End Run.

(** C2, as the code has it: with maxResults = n >= 1 and a configured
    ceiling c >= 0, the slice of links that is processed has at most
    min(n, c, number of discovered links) links, the result set never holds
    more records than the slice has links, and neither does the list that
    scrapeBusinesses returns. *)
Theorem result_count_capped (w : World) (params : SearchParams) (s : Scraper)
  (p : PageId) (ceiling : Z) :
  page s = Some p ->
  (1 <= maxResults params)%Z ->
  w_envMaxResults w = Some ceiling ->
  (0 <= ceiling)%Z ->
  let slice := linksToProcess w params (harvest w) in
  let bound := Z.min (maxResults params)
                 (Z.min ceiling (Z.of_nat (List.length (harvest w)))) in
  (Z.of_nat (List.length slice) <= bound)%Z
  /\ List.length (scrapedBusinesses (snd (scrapeBusinesses w params s)))
     <= List.length slice
  /\ forall l, fst (scrapeBusinesses w params s) = Ret l ->
               (Z.of_nat (List.length l) <= bound)%Z.
Proof.
  intros Hp Hn Hc Hc0 slice bound.
  assert (Hslice : (Z.of_nat (List.length slice) <= bound)%Z).
  { subst slice bound.
    unfold linksToProcess, actualMaxResults, userMaxResults, sliceTo.
    rewrite Hc.
    destruct (maxResults params =? 0)%Z eqn:Hz; [apply Z.eqb_eq in Hz; lia|].
    destruct (Z.min (maxResults params) ceiling <? 0)%Z eqn:Hneg;
      [apply Z.ltb_lt in Hneg; lia|].
    rewrite length_firstn. lia. }
  destruct (scrapeBusinesses_results w params s p Hp) as [Hset Hret].
  split; [exact Hslice|]. split.
  - destruct Hset as [added [Heq [Hlen _]]]. rewrite Heq. simpl. exact Hlen.
  - intros l Hl. destruct (Hret l Hl) as [added [Heq [Hlen _]]].
    simpl in Heq. subst l. fold slice in Hlen. lia.
Qed.

(** A request for at most 2 of the 4 targets that are found. *)
Lemma result_count_capped_witness :
  let w := plainWorld (Some 500%Z) in
  let run := scrapeBusinesses w (request 2) (readyScraper []) in
  (Z.of_nat (List.length (linksToProcess w (request 2) (harvest w)))
   <= Z.min 2 (Z.min 500 (Z.of_nat (List.length (harvest w)))))%Z
  /\ List.length (scrapedBusinesses (snd run))
     <= List.length (linksToProcess w (request 2) (harvest w))
  /\ forall l, fst run = Ret l ->
       (Z.of_nat (List.length l)
        <= Z.min 2 (Z.min 500 (Z.of_nat (List.length (harvest w)))))%Z.
Proof.
  apply (result_count_capped (plainWorld (Some 500%Z)) (request 2)
           (readyScraper []) 0 500%Z).
  - reflexivity.
  - simpl. lia.
  - reflexivity.
  - lia.
Defined.

(** C2, refuted as stated: with maxResults = 0 the limit falls back to 500
    and all 4 targets are returned; with a ceiling of -1 and maxResults = 2
    the slice drops the last link only and 3 records are returned. *)
Lemma result_count_not_capped :
  (exists l s',
      scrapeBusinesses (plainWorld (Some 500%Z)) (request 0) (readyScraper [])
      = (Ret l, s')
      /\ List.length l = 4)
  /\ (exists l s',
         scrapeBusinesses (plainWorld (Some (-1)%Z)) (request 2)
           (readyScraper [])
         = (Ret l, s')
         /\ List.length l = 3).
Proof. split; eexists; eexists; split; vm_compute; reflexivity. Qed.

(** C10: every record that either extractor returns, and so every record of
    the result set and of the list that scrapeBusinesses returns, has a name
    and an address that are not empty, a rating, if present, above 0 and at
    most 5, and a review count, if present, above 0; a rating or a review
    count of zero is recorded as absent. *)
Theorem records_are_well_formed (w : World) (params : SearchParams)
  (s : Scraper) (p : PageId) :
  page s = Some p ->
  Forall wellFormed (scrapedBusinesses (snd (scrapeBusinesses w params s)))
  /\ (forall l, fst (scrapeBusinesses w params s) = Ret l ->
                Forall wellFormed l)
  /\ (forall target url index,
         yields wellFormedResult (scrapeBusinessDetails w target url index))
  /\ (forall target url index q,
         yields wellFormedResult
           (scrapeBusinessDetailsParallel w target url index q))
  /\ (forall raw now index coords,
         (forall q, raw_rating raw = Fin q -> (q == 0)%Q ->
                    rating (makeBusiness raw now index coords) = None)
         /\ (raw_reviewCount raw = 0%Z ->
             reviewCount (makeBusiness raw now index coords) = None)).
Proof.
  intros Hp.
  destruct (scrapeBusinesses_results w params s p Hp) as [Hset Hret].
  split; [|split; [|split; [|split]]].
  - destruct Hset as [added [Heq [_ Hwf]]]. rewrite Heq. exact Hwf.
  - intros l Hl. destruct (Hret l Hl) as [added [Heq [_ Hwf]]].
    rewrite Heq. exact Hwf.
  - intros. apply scrapeBusinessDetails_wellFormed.
  - intros. apply parallelLoop_wellFormed.
  - intros raw now index coords. split.
    + intros q Hq Hzero. unfold makeBusiness. simpl. rewrite Hq.
      unfold gtb, ltb, ofZ.
      destruct (Qcompare (inject_Z 0) q) eqn:Hcmp; try reflexivity.
      apply Qlt_alt in Hcmp. rewrite Hzero in Hcmp.
      exfalso. exact (Qlt_irrefl _ Hcmp).
    + intros Hzero. unfold makeBusiness. simpl. rewrite Hzero. reflexivity.
Qed.

(** A run that extracts four records, each rated 4.5 by 1,234 reviewers. *)
Lemma records_are_well_formed_witness :
  let run := scrapeBusinesses (plainWorld (Some 500%Z)) (request 10)
               (readyScraper []) in
  List.length (scrapedBusinesses (snd run)) = 4
  /\ Forall wellFormed (scrapedBusinesses (snd run)).
Proof.
  split; [vm_compute; reflexivity|].
  exact (proj1 (records_are_well_formed (plainWorld (Some 500%Z)) (request 10)
                  (readyScraper []) 0 eq_refl)).
Defined.

(** ** The pages of a parallel batch *)




Lemma run_bind {A B : Type} (c : M A) (k : A -> M B) (s : Scraper) (a : A) :
  fst (c s) = Ret a -> bind c k s = k a (snd (c s)).
Proof. intros H. unfold bind. destruct (c s) as [o s']. simpl in *. subst. reflexivity. Qed.

Lemma pushResults_run (results : list (option BusinessData)) :
  forall s, fst (pushResults results s) = Ret tt
            /\ closedPages (snd (pushResults results s)) = closedPages s.
Proof.
  induction results as [|[b|] rest IH]; intros s; simpl; auto.
  unfold bind, modify. cbv beta iota.
  destruct (IH (pushBusiness b s)) as [Hret Hclosed]. auto.
Qed.



Section Dispatch.

Variable w : World.







End Dispatch.









(** ** Progress *)

(** C7, on the code: a pause that arrives right after discovery is reported
    at 0 percent after the 10 percent of the discovery, and a cancel that
    arrives in the first batch of four targets is reported at 50 percent
    after the 52.5 percent of the third target.  Neither snapshot is an
    error. *)
Theorem progress_drops_at_pause_and_cancel :
  let paused_run := snd (postStreaming (plainWorld (Some 500%Z)) (request 10)
                           pauseAfterDiscovery) in
  let cancelled_run := snd (postStreaming (plainWorld (Some 500%Z)) (request 10)
                              cancelInFirstBatch) in
  percentages paused_run
  = [ (st_searching, Fin 0); (st_scraping, Fin 10); (st_paused, Fin 0);
      (st_scraping, Fin 0); (st_scraping, Fin 10); (st_scraping, Fin (125 # 4));
      (st_scraping, Fin (105 # 2)); (st_scraping, Fin (295 # 4));
      (st_completed, Fin 100) ]
  /\ nonDecreasing paused_run = false
  /\ percentages cancelled_run
     = [ (st_searching, Fin 0); (st_scraping, Fin 10); (st_scraping, Fin 10);
         (st_cancelled, Fin 25); (st_scraping, Fin (125 # 4));
         (st_scraping, Fin (105 # 2)); (st_cancelled, Fin 50) ]
  /\ nonDecreasing cancelled_run = false.
Proof. vm_compute. repeat split. Qed.

(** ** No results *)

Lemma extractAll_nothing_found (w : World) (params : SearchParams)
  (s : Scraper) :
  harvest w = [] ->
  fst (extractAll w params s) = Ret []
  /\ percentages (emitted (snd (extractAll w params s)))
     = percentages (emitted s) ++ [(st_completed, Fin 100)].
Proof.
  intros H. unfold extractAll. rewrite H. simpl.
  split; [reflexivity|]. unfold percentages. rewrite map_app. reflexivity.
Qed.

(** C9, on the code: when nothing is discovered, the streaming branch ends
    with a complete event that carries success and an empty list, after a
    snapshot with status completed; the other branch answers with the
    category No Results Found and status 404. *)
Theorem empty_discovery_streams_success :
  fst (postStreaming emptyWorld (request 10) []) = Some (SseComplete [] 0)
  /\ percentages (snd (postStreaming emptyWorld (request 10) []))
     = [(st_searching, Fin 0); (st_completed, Fin 100)]
  /\ postNonStreaming emptyWorld (request 10) []
     = Some (mkResponse 404 (Some "No Results Found") []).
Proof. vm_compute. repeat split. Qed.

(** * Further properties of the code *)

(** ** Pausing and cancelling *)

Lemma set_pending_same (s : Scraper) : set_pending (pending s) s = s.
Proof. destruct s; reflexivity. Qed.

Lemma waitLoop_returns_unpaused (ticks : list (list Command)) :
  forall s,
    fst (waitLoop ticks s) = Ret tt ->
    isPaused (snd (waitLoop ticks s)) = false.
Proof.
  induction ticks as [|cs rest IH]; intros s; simpl;
    destruct (isPaused s) eqn:Hp; simpl; try discriminate; auto.
Qed.

(** X1: waitForResume comes back only when the scraper is not paused any
    more; it never throws; it stays suspended only when the scraper is still
    paused and no command is left to come.  It does not wait at all on a
    scraper that is not paused, and it never touches the result set. *)
Theorem waitForResume_ends_unpaused (s : Scraper) :
  match fst (waitForResume s) with
  | Ret _ => isPaused (snd (waitForResume s)) = false
  | Throw _ => False
  | Blocked => isPaused (snd (waitForResume s)) = true
               /\ pending (snd (waitForResume s)) = []
  end
  /\ scrapedBusinesses (snd (waitForResume s)) = scrapedBusinesses s
  /\ (isPaused s = false -> waitForResume s = (Ret tt, s)).
Proof.
  split; [|split].
  - unfold waitForResume.
    pose proof (waitLoop_returns_unpaused (pending s) s) as Hret.
    pose proof (waitLoop_no_throw (pending s) s) as Hthrow.
    pose proof (waitLoop_blocked (pending s) s) as Hblock.
    destruct (fst (waitLoop (pending s) s)) as [[]|msg|]; auto.
    exact (Hthrow msg eq_refl).
  - apply waitForResume_preserves, results_ignore_control.
  - intros Hp. unfold waitForResume.
    destruct (pending s) eqn:Hpend; simpl; rewrite Hp;
      rewrite <- Hpend, set_pending_same; reflexivity.
Qed.

(** X2: a cancelled scraper starts no batch: the batch loop returns at once
    and leaves the object as it is.  When the scraper is paused at the head
    of a batch and the cancel arrives during the pause, the loop ends with
    the wait: no page is opened, no target visited and no record added. *)
Theorem cancelled_scraper_starts_no_batch (w : World) (links : list string)
  (fuel batchStart : nat) (s : Scraper) :
  (isCancelled s = true -> batchLoop w links fuel batchStart s = (Ret tt, s))
  /\ (isCancelled s = false -> isPaused s = true ->
      batchStart < List.length links ->
      fst (waitForResume s) = Ret tt ->
      isCancelled (snd (waitForResume s)) = true ->
      batchLoop w links (S fuel) batchStart s = (Ret tt, snd (waitForResume s))
      /\ gotoLog (snd (waitForResume s)) = gotoLog s
      /\ nextPageId (snd (waitForResume s)) = nextPageId s
      /\ scrapedBusinesses (snd (waitForResume s)) = scrapedBusinesses s).
Proof.
  split.
  - intros Hc. destruct fuel as [|fuel]; [reflexivity|]. simpl.
    destruct (batchStart <? List.length links); [|reflexivity].
    unfold bind, get. rewrite Hc. reflexivity.
  - intros Hc Hp Hlt Hwait Hcancelled.
    split; [|repeat split; apply waitForResume_preserves; repeat split].
    simpl. apply Nat.ltb_lt in Hlt. rewrite Hlt.
    unfold bind at 1. unfold get at 1. rewrite Hc.
    unfold bind at 1. rewrite Hp.
    unfold bind at 1.
    destruct (waitForResume s) as [o s1]. simpl in *. subst o.
    unfold bind, get, ret. rewrite Hcancelled. reflexivity.
Qed.

(** A pause at the head of the first batch, and the cancel that ends it. *)
Example cancel_during_pause :
  let s := pause (readyScraper [[Cancel]]) in
  batchLoop (plainWorld (Some 500%Z)) fourPlaces 4 0 s
  = (Ret tt, snd (waitForResume s))
  /\ gotoLog (snd (waitForResume s)) = []
  /\ scrapingState (snd (waitForResume s)) = cancelled.
Proof. vm_compute. repeat split. Qed.

(** ** The life of the browser *)

Lemma close_run (s : Scraper) :
  fst (close s) = Ret tt
  /\ browser (snd (close s)) = false
  /\ page (snd (close s)) = None.
Proof.
  unfold close, bind, get, closePage, modify.
  destruct (page s); repeat split.
Qed.

(** X3: a scraper without a page does no work.  close() always returns and
    leaves neither browser nor page; closing twice is closing once; a launch
    that fails throws the cause under the prefix of the source and leaves
    neither browser nor page.  On a scraper without a page, and so on one
    that was closed or whose launch failed, scrapeBusinesses throws Scraper
    not initialized and the extractor returns null, and neither changes the
    object. *)
Theorem closed_scraper_refuses_work (w : World) (params : SearchParams)
  (s : Scraper) :
  (fst (close s) = Ret tt
   /\ browser (snd (close s)) = false
   /\ page (snd (close s)) = None
   /\ snd (close (snd (close s))) = snd (close s)
   /\ scrapeBusinesses w params (snd (close s))
      = (Throw "Scraper not initialized", snd (close s))
   /\ forall target url index,
        scrapeBusinessDetails w target url index (snd (close s))
        = (Ret None, snd (close s)))
  /\ (forall cause,
         fst (initialize (Some cause) s)
         = Throw ("Browser initialization failed: " ++ cause)
         /\ browser (snd (initialize (Some cause) s)) = false
         /\ page (snd (initialize (Some cause) s)) = None
         /\ scrapeBusinesses w params (snd (initialize (Some cause) s))
            = (Throw "Scraper not initialized",
               snd (initialize (Some cause) s)))
  /\ (page s = None ->
      scrapeBusinesses w params s = (Throw "Scraper not initialized", s)
      /\ forall target url index,
           scrapeBusinessDetails w target url index s = (Ret None, s)).
Proof.
  assert (Hrefuses : forall s0,
             page s0 = None ->
             scrapeBusinesses w params s0
             = (Throw "Scraper not initialized", s0)
             /\ forall target url index,
                  scrapeBusinessDetails w target url index s0
                  = (Ret None, s0)).
  { intros s0 Hp. split.
    - unfold scrapeBusinesses, bind, get. rewrite Hp. reflexivity.
    - intros target url index.
      unfold scrapeBusinessDetails, bind, get. rewrite Hp. reflexivity. }
  destruct (close_run s) as [Hret [Hb Hp]].
  split; [|split].
  - split; [exact Hret|]. split; [exact Hb|]. split; [exact Hp|].
    split; [|exact (Hrefuses _ Hp)].
    unfold close, bind, get, closePage, modify.
    destruct (page s); reflexivity.
  - intros cause.
    assert (Hfailed : page (snd (initialize (Some cause) s)) = None).
    { unfold initialize, close, bind, get, modify, throw.
      simpl. reflexivity. }
    split; [|split; [|split; [exact Hfailed|exact (proj1 (Hrefuses _ Hfailed))]]].
    + unfold initialize, close, bind, get, modify, throw. simpl. reflexivity.
    + unfold initialize, close, bind, get, modify, throw. simpl. reflexivity.
  - exact (Hrefuses s).
Qed.

(** ** Percentages *)

Lemma controlPercent_undefined (s : Scraper) :
  currentBusinessIndex s = 0 ->
  totalBusinessesToScrape s = 0%Z ->
  controlPercent s = NaN.
Proof.
  intros Hi Ht. unfold controlPercent. rewrite Hi, Ht. reflexivity.
Qed.

Lemma lastSnapshot_updateProgress (p : ScrapingProgress) (s : Scraper) :
  lastSnapshot (updateProgress p s) = Some p.
Proof.
  unfold lastSnapshot, updateProgress. simpl. rewrite rev_app_distr. reflexivity.
Qed.

(** X4: a command that reaches the scraper before any target was counted
    (index 0 of 0) is reported with a percentage that is not a number: the
    quotient 0/0 is not guarded. *)
Theorem early_command_reports_NaN (c : Command) (s : Scraper) :
  currentBusinessIndex s = 0 ->
  totalBusinessesToScrape s = 0%Z ->
  exists p,
    lastSnapshot (runCommand c s) = Some p /\ progress p = NaN.
Proof.
  intros Hi Ht.
  destruct c; unfold runCommand, pause, resume, cancel; cbv zeta;
    rewrite lastSnapshot_updateProgress; eexists; (split; [reflexivity|]);
    simpl; apply controlPercent_undefined; assumption.
Qed.

(** A pause sent to a scraper that was just built. *)
Lemma early_command_reports_NaN_witness :
  exists p,
    lastSnapshot (runCommand Pause (newScraper [])) = Some p
    /\ progress p = NaN.
Proof.
  apply (early_command_reports_NaN Pause (newScraper [])); reflexivity.
Defined.

(** ** The slice of links *)

(** X5: whatever the limits are, the links that are processed are the first
    links of the harvest, in their order: the limit drops links from the
    end only. *)
Theorem processed_links_are_a_prefix (w : World) (params : SearchParams)
  (found : list string) :
  exists dropped, found = linksToProcess w params found ++ dropped.
Proof.
  unfold linksToProcess, sliceTo.
  destruct (actualMaxResults w params) as [e|].
  - destruct (e <? 0)%Z;
      match goal with
      | |- context [firstn ?n found] =>
          exists (skipn n found); symmetry; apply firstn_skipn
      end.
  - exists found. reflexivity.
Qed.

(** ** The fields of a record *)

(** X6: a phone that is recorded is not empty and has a run of seven
    characters that are digits, blanks or one of + - ( ); a website that is
    recorded is not empty and does not contain google.com. *)
Theorem recorded_phone_and_website (parseFloat : string -> num) (d : Dom)
  (now : Z) (index : nat) (coords : option (num * num)) :
  let b := makeBusiness (evaluateBusinessData parseFloat d) now index coords in
  (forall p, phone b = Some p -> p <> EmptyString /\ phone_like p = true)
  /\ (forall u, website b = Some u ->
                u <> EmptyString /\ includes "google.com" u = false).
Proof.
  cbv zeta. unfold makeBusiness, evaluateBusinessData. simpl.
  split.
  - intros p Hp. unfold or_undefined in Hp.
    destruct (truthy (getPhone d)) eqn:Ht; [|discriminate].
    inversion Hp. subst p. split.
    + intros H. rewrite H in Ht. discriminate.
    + revert Ht. unfold getPhone. apply cascade_ind.
      * discriminate.
      * intros selector a Ha _.
        destruct (trimmedText d selector) as [t|]; [|discriminate].
        destruct (phone_like t) eqn:Hl; [|discriminate].
        inversion Ha. subst. exact Hl.
  - intros u Hu. unfold or_undefined in Hu.
    destruct (truthy (getWebsite d)) eqn:Ht; [|discriminate].
    inversion Hu. subst u. split.
    + intros H. rewrite H in Ht. discriminate.
    + revert Ht. unfold getWebsite. apply cascade_ind.
      * discriminate.
      * intros selector a Ha _.
        destruct (d selector) as [el|]; [|discriminate].
        destruct (truthy (href el)); [|discriminate].
        destruct (includes "google.com" (href el)) eqn:Hg; [discriminate|].
        simpl in Ha. inversion Ha. subst. exact Hg.
Qed.

(** A no-break space is a blank for [trim] and for the test of the phone:
    the text 555, no-break space, 1234 is kept as a phone, without the
    no-break space before it. *)
Example phone_with_no_break_space :
  let nbsp := ascii_of_nat 160 in
  let d : Dom :=
    fun selector =>
      if String.eqb selector "a[href^='tel:']"
      then Some (mkElement (String nbsp ("555" ++ String nbsp "1234")) "")
      else None in
  getPhone d = ("555" ++ String nbsp "1234")%string.
Proof. reflexivity. Qed.

Lemma number_tail_digits (s : string) : allDigits (number_tail s) = true.
Proof.
  induction s as [|c rest IH]; simpl; [reflexivity|].
  destruct (is_digit c) eqn:Hd; simpl.
  - rewrite Hd, IH. reflexivity.
  - destruct (Ascii.eqb c ","); [|reflexivity].
    destruct rest as [|d rest']; [reflexivity|].
    destruct (is_digit d); [exact IH|reflexivity].
Qed.

Lemma parseDigits_nonneg (s : string) :
  forall acc, (0 <= acc)%Z -> allDigits s = true -> (acc <= parseDigits acc s)%Z.
Proof.
  induction s as [|c rest IH]; intros acc Hacc Hd; simpl in *; [lia|].
  apply andb_prop in Hd. destruct Hd as [Hc Hrest].
  unfold is_digit in Hc. apply andb_prop in Hc. destruct Hc as [Hlow Hhigh].
  apply Nat.leb_le in Hlow.
  specialize (IH (acc * 10 + (Z.of_nat (nat_of_ascii c) - 48))%Z).
  assert (0 <= acc * 10 + (Z.of_nat (nat_of_ascii c) - 48))%Z by lia.
  specialize (IH H Hrest). lia.
Qed.

Lemma first_number_digits (t : string) (digits : string) :
  first_number t = Some digits -> allDigits digits = true.
Proof.
  induction t as [|c rest IH]; simpl; [discriminate|].
  destruct (is_digit c) eqn:Hd.
  - intros H. inversion H. simpl. rewrite Hd. apply number_tail_digits.
  - exact IH.
Qed.

(** X7: the review count read from a page is never negative, whatever the
    text of the page; the record has no review count exactly when the count
    read is zero. *)
Theorem review_count_not_negative (parseFloat : string -> num) (d : Dom)
  (now : Z) (index : nat) (coords : option (num * num)) :
  (0 <= getReviewCount d)%Z
  /\ (reviewCount (makeBusiness (evaluateBusinessData parseFloat d) now index
                     coords) = None
      <-> getReviewCount d = 0%Z).
Proof.
  assert (Hnonneg : (0 <= getReviewCount d)%Z).
  { unfold getReviewCount. apply cascade_ind; [lia|].
    intros selector n Hn.
    destruct (d selector) as [el|]; [|discriminate].
    destruct (truthy (textContent el)); [|discriminate].
    destruct (first_number (trim (textContent el))) as [digits|] eqn:Hf;
      [|discriminate].
    inversion Hn. subst n.
    apply parseDigits_nonneg; [lia|].
    exact (first_number_digits _ _ Hf). }
  split; [exact Hnonneg|].
  unfold makeBusiness, evaluateBusinessData. simpl.
  destruct (0 <? getReviewCount d)%Z eqn:Hpos.
  - apply Z.ltb_lt in Hpos. split; [discriminate|lia].
  - apply Z.ltb_ge in Hpos. split; [lia|reflexivity].
Qed.

(** ** The scroll loop after a discovery *)

Section ScrollStall.

Variable w : World.

Let patience := maxConsecutiveNoChange (w_conservative w).

Lemma advanceClock_last (ms : Z) (st : ScrollState) :
  lastBusinessCount (advanceClock ms st) = lastBusinessCount st.
Proof.
  unfold advanceClock. cbv zeta.
  match goal with |- context [if ?b then _ else _] => destruct b end;
    reflexivity.
Qed.

Lemma scrollLoop_step (fuel : nat) (st : ScrollState) :
  scrollLoop w (S fuel) st
  = if (scrollAttempts st <? maxScrollAttempts (w_conservative w))
       && (consecutiveNoChange st <? maxConsecutiveNoChange (w_conservative w))
    then
      let obs := w_scroll w (scrollAttempts st) in
      let st := countAttempt st in
      bind get (fun s =>
        if isCancelled s then ret st
        else
          bind (if isPaused s then waitForResume else ret tt) (fun _ =>
          bind awaitPoint (fun _ =>
            let st := compareCounts (currentCount obs) (newCount obs) st in
            let st := advanceClock (o_millis obs) st in
            if (4 <=? consecutiveNoChange st) && (0 <? lastBusinessCount st)
            then ret st
            else scrollLoop w fuel st)))
    else ret st.
Proof. reflexivity. Qed.

Lemma scrollLoop_stall (fuel : nat) :
  forall st s,
    consecutiveNoChange st <= patience ->
    (0 < lastBusinessCount st -> consecutiveNoChange st <= 3) ->
    match fst (scrollLoop w fuel st s) with
    | Ret st' =>
        consecutiveNoChange st' <= patience
        /\ (0 < lastBusinessCount st' -> consecutiveNoChange st' <= 4)
    | Throw _ => False
    | Blocked => True
    end.
Proof.
  induction fuel as [|fuel IH]; intros st s Hpat Hinv.
  - simpl. split; [exact Hpat|]. intros H. specialize (Hinv H). lia.
  - rewrite scrollLoop_step. fold patience. cbv zeta.
    destruct ((scrollAttempts st <? maxScrollAttempts (w_conservative w))
              && (consecutiveNoChange st <? patience)) eqn:Hcond.
    2:{ simpl. split; [exact Hpat|]. intros H. specialize (Hinv H). lia. }
    apply andb_prop in Hcond. destruct Hcond as [_ Hlt].
    apply Nat.ltb_lt in Hlt.
    unfold bind at 1. unfold get at 1.
    destruct (isCancelled s).
    { simpl. split; [exact Hpat|]. intros H. specialize (Hinv H). lia. }
    unfold bind at 1.
    destruct ((if isPaused s then waitForResume else ret tt) s)
      as [o s1] eqn:Hwait.
    assert (Hnothrow : forall msg, o <> Throw msg).
    { intros msg. destruct (isPaused s).
      - unfold waitForResume in Hwait.
        pose proof (waitLoop_no_throw (pending s) s msg) as H.
        rewrite Hwait in H. exact H.
      - unfold ret in Hwait. inversion Hwait. discriminate. }
    destruct o as [[]|msg|]; [|exact (Hnothrow msg eq_refl)|exact I].
    unfold bind at 1.
    pose proof (awaitPoint_returns s1) as Haw.
    destruct (awaitPoint s1) as [o2 s2]. simpl in Haw. subst o2.
    set (obs := w_scroll w (scrollAttempts st)).
    set (st' := advanceClock (o_millis obs)
                  (compareCounts (currentCount obs) (newCount obs)
                     (countAttempt st))).
    assert (Hnext : consecutiveNoChange st' <= patience
                    /\ (0 < lastBusinessCount st' ->
                        consecutiveNoChange st' <= 4)
                    /\ (consecutiveNoChange st' < 4 \/ lastBusinessCount st' = 0 ->
                        0 < lastBusinessCount st' ->
                        consecutiveNoChange st' <= 3)).
    { subst st'. rewrite advanceClock_noChange, advanceClock_last.
      unfold compareCounts, countAttempt.
      destruct (currentCount obs <? newCount obs);
        cbn [consecutiveNoChange lastBusinessCount].
      - repeat split; lia.
      - split; [lia|]. split.
        + intros H. specialize (Hinv H). lia.
        + intros [H|H] H0; lia. }
    destruct Hnext as [Hpat' [Hfour Hthree]].
    destruct ((4 <=? consecutiveNoChange st') && (0 <? lastBusinessCount st'))
      eqn:Hbreak.
    + simpl. split; assumption.
    + apply IH; [exact Hpat'|].
      apply Hthree.
      apply andb_false_iff in Hbreak. destruct Hbreak as [H|H].
      * left. apply Nat.leb_gt in H. exact H.
      * right. apply Nat.ltb_ge in H. lia.
Qed.

End ScrollStall.

(** X8: once a pass of the scroll loop has seen the number of targets grow,
    the loop ends with the fourth pass in a row that sees no growth, in
    normal mode too, where the patience is set to 6; that setting decides
    only as long as nothing was found at all.  The method never throws. *)
Theorem discovery_stops_at_fourth_stall (w : World) (s : Scraper) :
  match fst (scrollAndLoadAllResults w s) with
  | Ret st =>
      consecutiveNoChange st <= (if w_conservative w then 3 else 6)
      /\ (0 < lastBusinessCount st -> consecutiveNoChange st <= 4)
  | Throw _ => False
  | Blocked => True
  end.
Proof.
  unfold scrollAndLoadAllResults, bind, get.
  destruct (page s).
  - apply scrollLoop_stall; simpl.
    + destruct (w_conservative w); simpl; lia.
    + lia.
  - simpl. split; [destruct (w_conservative w); lia|lia].
Qed.

(** ** The percentage of a target *)

Lemma progressPercent_value (i n : nat) :
  0 < n ->
  exists q,
    progressPercent i n = Fin q
    /\ (q == 10 + (inject_Z (Z.of_nat i) / inject_Z (Z.of_nat n)) * 85)%Q.
Proof.
  intros Hn.
  unfold progressPercent, div, mul, add, ofNat, ofZ, sgn.
  assert (Hpos : (0 < inject_Z (Z.of_nat n))%Q).
  { change 0%Q with (inject_Z 0). rewrite <- Zlt_Qlt. lia. }
  apply Qgt_alt in Hpos. rewrite Hpos.
  eexists. split; [reflexivity|].
  rewrite !Qred_correct. reflexivity.
Qed.

(** X9: the percentages that the sequential path reports for the targets of
    a run start at 10, stay below 95 and never decrease from one target to
    a later one. *)
Theorem item_percentages_rise (i j n : nat) :
  i <= j -> j < n ->
  exists a b,
    progressPercent i n = Fin a /\ progressPercent j n = Fin b
    /\ (10 <= a /\ a <= b /\ b < 95)%Q.
Proof.
  intros Hij Hjn.
  assert (Hn : 0 < n) by lia.
  destruct (progressPercent_value i n Hn) as [a [Ha Hav]].
  destruct (progressPercent_value j n Hn) as [b [Hb Hbv]].
  exists a, b. split; [exact Ha|]. split; [exact Hb|].
  assert (Hpos : (0 < inject_Z (Z.of_nat n))%Q).
  { change 0%Q with (inject_Z 0). rewrite <- Zlt_Qlt. lia. }
  assert (Hi0 : (0 <= inject_Z (Z.of_nat i) / inject_Z (Z.of_nat n))%Q).
  { apply Qle_shift_div_l; [exact Hpos|]. rewrite Qmult_0_l.
    change 0%Q with (inject_Z 0). rewrite <- Zle_Qle. lia. }
  assert (Hle : (inject_Z (Z.of_nat i) / inject_Z (Z.of_nat n)
                 <= inject_Z (Z.of_nat j) / inject_Z (Z.of_nat n))%Q).
  { apply Qle_shift_div_l; [exact Hpos|].
    unfold Qdiv. rewrite <- Qmult_assoc, (Qmult_comm (/ _)), Qmult_inv_r.
    - rewrite Qmult_1_r. rewrite <- Zle_Qle. lia.
    - intros H. rewrite H in Hpos. exact (Qlt_irrefl _ Hpos). }
  assert (Hlt : (inject_Z (Z.of_nat j) / inject_Z (Z.of_nat n) < 1)%Q).
  { apply Qlt_shift_div_r; [exact Hpos|]. rewrite Qmult_1_l.
    rewrite <- Zlt_Qlt. lia. }
  rewrite Hav, Hbv.
  set (x := (inject_Z (Z.of_nat i) / inject_Z (Z.of_nat n))%Q) in *.
  set (y := (inject_Z (Z.of_nat j) / inject_Z (Z.of_nat n))%Q) in *.
  clearbody x y. lra.
Qed.

(** The second and the third of four targets. *)
Lemma item_percentages_rise_witness :
  exists a b,
    progressPercent 1 4 = Fin a /\ progressPercent 2 4 = Fin b
    /\ (10 <= a /\ a <= b /\ b < 95)%Q.
Proof. apply (item_percentages_rise 1 2 4); lia. Defined.

(** ** A browser that cannot be revived *)

Lemma batchLoop_unhealthy (w : World) (links : list string) (fuel : nat)
  (s : Scraper) (cause : string) :
  0 < List.length links ->
  w_health w 0 = Unhealthy (Some cause) ->
  isCancelled s = false -> isPaused s = false -> pending s = [] ->
  batchLoop w links (S fuel) 0 s = (Ret tt, set_browser false None s).
Proof.
  intros Hlen Hh Hc Hp Hq. simpl.
  apply Nat.ltb_lt in Hlen. rewrite Hlen.
  unfold bind at 1. unfold get at 1. rewrite Hc.
  unfold bind at 1. rewrite Hp. unfold ret at 1.
  unfold bind at 1. rewrite Hh.
  unfold ensureBrowserHealth, bind at 1, awaitPoint. rewrite Hq.
  unfold try_catch, initialize, close, bind, get, modify, throw. simpl.
  reflexivity.
Qed.

(** X10: when the browser is found dead at the first batch and cannot be
    started again, the run does not fail: scrapeBusinesses visits no target,
    returns the empty result set, reports the status completed at 100
    percent and leaves the scraper in the state completed, without browser. *)
Theorem dead_browser_is_reported_completed (w : World) (params : SearchParams)
  (s : Scraper) (cause : string) :
  linksToProcess w params (harvest w) <> [] ->
  w_pageStillValid w = true ->
  w_health w 0 = Unhealthy (Some cause) ->
  isCancelled s = false -> isPaused s = false -> pending s = [] ->
  let run := extractAll w params s in
  fst run = Ret (scrapedBusinesses s)
  /\ scrapingState (snd run) = completed
  /\ browser (snd run) = false
  /\ gotoLog (snd run) = gotoLog s
  /\ exists p, lastSnapshot (snd run) = Some p
               /\ status p = st_completed /\ progress p = ofZ 100.
Proof.
  intros Hlinks Hvalid Hh Hc Hp Hq run. subst run.
  assert (Hfound : (List.length (harvest w) =? 0) = false).
  { apply Nat.eqb_neq. intros H0. apply Hlinks.
    destruct (harvest w); [|discriminate].
    unfold linksToProcess, sliceTo.
    destruct (actualMaxResults w params) as [e|]; [|reflexivity].
    destruct (e <? 0)%Z; apply firstn_nil. }
  assert (Hrun : exists s',
             extractAll w params s = (Ret (scrapedBusinesses s), s')
             /\ scrapingState s' = completed
             /\ browser s' = false
             /\ gotoLog s' = gotoLog s
             /\ exists p, lastSnapshot s' = Some p
                          /\ status p = st_completed /\ progress p = ofZ 100).
  { unfold extractAll. cbv zeta. rewrite Hfound, Hvalid. simpl negb. cbv iota.
    set (links := linksToProcess w params (harvest w)) in *.
    assert (Hlen : 0 < List.length links).
    { destruct links; [contradiction|simpl; lia]. }
    destruct (List.length links) as [|fuel] eqn:Hfuel; [lia|].
    unfold bind at 1. unfold modify at 1.
    unfold bind at 1. unfold modify at 1.
    unfold bind at 1.
    rewrite (batchLoop_unhealthy w links fuel _ cause); auto; [|lia].
    unfold bind, get, modify, ret. simpl.
    unfold isCancelled in *. simpl. rewrite Hc. simpl.
    eexists. split; [reflexivity|]. simpl. repeat split.
    eexists. split.
    - unfold lastSnapshot. simpl. rewrite rev_app_distr. reflexivity.
    - split; reflexivity. }
  destruct Hrun as [s' [Heq Hprops]]. rewrite Heq. simpl. tauto.
Qed.

(** The browser dies after the discovery of four targets. *)
Lemma dead_browser_is_reported_completed_witness :
  let s := readyScraper [] in
  let run := extractAll unhealthyWorld (request 10) s in
  fst run = Ret (scrapedBusinesses s)
  /\ scrapingState (snd run) = completed
  /\ browser (snd run) = false
  /\ gotoLog (snd run) = gotoLog s
  /\ exists p, lastSnapshot (snd run) = Some p
               /\ status p = st_completed /\ progress p = ofZ 100.
Proof.
  apply (dead_browser_is_reported_completed unhealthyWorld (request 10)
           (readyScraper []) "Failed to launch the browser process");
    try reflexivity.
  vm_compute. discriminate.
Defined.

(** ** What the route answers *)

Lemma prefix_append (p x : string) : String.prefix p (p ++ x)%string = true.
Proof.
  induction p as [|c p IH]; simpl; [destruct x; reflexivity|].
  destruct (ascii_dec c c); [exact IH|contradiction].
Qed.

Lemma includes_prefix (p x : string) : includes p (p ++ x)%string = true.
Proof.
  assert (H : forall n s, String.prefix n s = true -> includes n s = true).
  { intros n s Hn. destruct s; cbn [includes]; rewrite Hn; reflexivity. }
  apply H, prefix_append.
Qed.

Lemma initialize_launches (cmds : list (list Command)) :
  initialize None (newScraper cmds) = (Ret tt, readyScraper cmds).
Proof. reflexivity. Qed.

Lemma initialize_fails (cause : string) (s : Scraper) :
  initialize (Some cause) s
  = (Throw ("Browser initialization failed: " ++ cause),
     snd (initialize (Some cause) s)).
Proof. reflexivity. Qed.

Lemma launch_failure_recognized (cause : string) :
  includes "Browser initialization failed"
    ("Browser initialization failed: " ++ cause) = true.
Proof.
  exact (includes_prefix "Browser initialization failed" (": " ++ cause)).
Qed.

(** X11: when the timer of the non-streaming branch fires first, the answer
    is not the category Scraping Timeout with status 408 but the generic
    Scraping Failed with status 500: the message of the timer says timed
    out, and the route looks for timeout. *)
Theorem timeout_is_answered_as_generic_failure (w : World)
  (params : SearchParams) (cmds : list (list Command)) :
  w_launch w = None ->
  w_timedOut w = true ->
  postNonStreaming w params cmds
  = Some (mkResponse 500 (Some "Scraping Failed") []).
Proof.
  intros Hl Ht. unfold postNonStreaming.
  rewrite Hl, initialize_launches, Ht. reflexivity.
Qed.

Lemma timeout_is_answered_as_generic_failure_witness :
  postNonStreaming timedOutWorld (request 10) []
  = Some (mkResponse 500 (Some "Scraping Failed") []).
Proof.
  apply (timeout_is_answered_as_generic_failure timedOutWorld (request 10) []);
    reflexivity.
Defined.

(** X12: when the browser cannot be launched, the non-streaming branch
    answers Browser Setup Error with status 500; the streaming branch sends
    no snapshot and ends with an error event of the category Scraping Failed
    whose message carries the cause. *)
Theorem failed_launch_is_answered (w : World) (params : SearchParams)
  (cmds : list (list Command)) (cause : string) :
  w_launch w = Some cause ->
  postNonStreaming w params cmds
  = Some (mkResponse 500 (Some "Browser Setup Error") [])
  /\ postStreaming w params cmds
     = (Some (SseError "Scraping Failed"
                ("Browser initialization failed: " ++ cause)), []).
Proof.
  intros Hl. split.
  - unfold postNonStreaming. rewrite Hl, initialize_fails.
    unfold classifyError. rewrite launch_failure_recognized. reflexivity.
  - unfold postStreaming. rewrite Hl. unfold bind at 1.
    rewrite initialize_fails. reflexivity.
Qed.

Lemma failed_launch_is_answered_witness :
  postNonStreaming noBrowserWorld (request 10) []
  = Some (mkResponse 500 (Some "Browser Setup Error") [])
  /\ postStreaming noBrowserWorld (request 10) []
     = (Some (SseError "Scraping Failed"
                ("Browser initialization failed: "
                 ++ "Failed to launch the browser process")), []).
Proof.
  apply (failed_launch_is_answered noBrowserWorld (request 10) []
           "Failed to launch the browser process").
  reflexivity.
Defined.

(** X13: an answer of the non-streaming branch with status 200 carries at
    least one record, only well-formed records, no error category and, for a
    maxResults that is not negative, at most maxResults records; every other
    answer carries an error category and no record. *)
Theorem answer_of_non_streaming_branch (w : World) (params : SearchParams)
  (cmds : list (list Command)) (r : JsonResponse) :
  postNonStreaming w params cmds = Some r ->
  if (httpStatus r =? 200)%Z then
    payload r <> [] /\ Forall wellFormed (payload r) /\ errorCategory r = None
    /\ ((0 <= maxResults params)%Z ->
        (Z.of_nat (List.length (payload r)) <= maxResults params)%Z)
  else payload r = [] /\ errorCategory r <> None.
Proof.
  assert (Hclass : forall msg,
             (httpStatus (classifyError msg) =? 200)%Z = false
             /\ payload (classifyError msg) = []
             /\ errorCategory (classifyError msg) <> None).
  { intros msg. unfold classifyError.
    repeat match goal with
           | |- context [if ?b then _ else _] => destruct b
           end; repeat split; discriminate. }
  unfold postNonStreaming.
  destruct (w_launch w) as [cause|] eqn:Hl.
  - rewrite initialize_fails.
    intros H. injection H as <-.
    match goal with
    | |- context [classifyError ?m] => destruct (Hclass m) as [H1 [H2 H3]]
    end.
    rewrite H1. auto.
  - rewrite initialize_launches.
    destruct (w_timedOut w).
    { intros H. injection H as <-.
      destruct (Hclass "Scraping operation timed out") as [H1 [H2 H3]].
      rewrite H1. auto. }
    destruct (scrapeBusinesses_results w params (readyScraper cmds) 0 eq_refl)
      as [_ Hret].
    destruct (scrapeBusinesses w params (readyScraper cmds))
      as [[l|msg|] s']; simpl in Hret.
    + destruct (Hret l eq_refl) as [added [Heq [_ Hwf]]].
      simpl in Heq. subst added.
      assert (Hslice : Forall wellFormed (sliceTo (Some (maxResults params)) l)
                       /\ ((0 <= maxResults params)%Z ->
                           (Z.of_nat (List.length
                                        (sliceTo (Some (maxResults params)) l))
                            <= maxResults params)%Z)).
      { split.
        - assert (Hfirst : forall n, Forall wellFormed (firstn n l)).
          { intros n. rewrite <- (firstn_skipn n l) in Hwf.
            apply Forall_app in Hwf. tauto. }
          unfold sliceTo. destruct (maxResults params <? 0)%Z; apply Hfirst.
        - intros Hn. unfold sliceTo.
          destruct (maxResults params <? 0)%Z eqn:Hneg;
            [apply Z.ltb_lt in Hneg; lia|].
          rewrite length_firstn. lia. }
      set (businesses := sliceTo (Some (maxResults params)) l) in *.
      clearbody businesses.
      destruct businesses as [|b rest]; intros H; injection H as <-; simpl.
      * split; [reflexivity|discriminate].
      * split; [discriminate|]. split; [tauto|]. split; [reflexivity|tauto].
    + intros H. injection H as <-.
      destruct (Hclass msg) as [H1 [H2 H3]]. rewrite H1. auto.
    + discriminate.
Qed.

Lemma answer_of_non_streaming_branch_witness :
  exists r,
    postNonStreaming (plainWorld (Some 500%Z)) (request 2) [] = Some r
    /\ httpStatus r = 200%Z
    /\ List.length (payload r) = 2
    /\ Forall wellFormed (payload r).
Proof.
  assert (Hrun : exists r,
             postNonStreaming (plainWorld (Some 500%Z)) (request 2) [] = Some r
             /\ httpStatus r = 200%Z /\ List.length (payload r) = 2).
  { vm_compute. eexists. repeat split. }
  destruct Hrun as [r [Hr [Hs Hl]]].
  exists r. split; [exact Hr|]. split; [exact Hs|]. split; [exact Hl|].
  pose proof (answer_of_non_streaming_branch _ _ _ r Hr) as H.
  rewrite Hs in H. apply H.
Defined.

(** ** The client of the event stream *)

Lemma append_empty (s : string) : (s ++ "")%string = s.
Proof. induction s as [|c s IH]; simpl; [|rewrite IH]; reflexivity. Qed.

Lemma append_associative (a b c : string) :
  ((a ++ b) ++ c)%string = (a ++ (b ++ c))%string.
Proof. induction a as [|x a IH]; simpl; [|rewrite IH]; reflexivity. Qed.

Lemma concat_cons (chunk : string) (rest : list string) :
  String.concat "" (chunk :: rest) = (chunk ++ String.concat "" rest)%string.
Proof.
  destruct rest as [|c rest]; simpl; [rewrite append_empty|]; reflexivity.
Qed.

Lemma splitLines_nonempty (s : string) : splitLines s <> [].
Proof.
  induction s as [|c s IH]; simpl; [discriminate|].
  destruct (Ascii.eqb c newline); [discriminate|].
  destruct (splitLines s); discriminate.
Qed.

(** A line of [split] holds no line feed: split again, it is itself. *)
Lemma splitLines_lines (s : string) :
  Forall (fun line => splitLines line = [line]) (splitLines s).
Proof.
  induction s as [|c s IH]; simpl.
  - constructor; [reflexivity|constructor].
  - destruct (Ascii.eqb c newline) eqn:Hc.
    + constructor; [reflexivity|exact IH].
    + destruct (splitLines s) as [|line lines]; simpl.
      * constructor; [|constructor]. simpl. rewrite Hc. reflexivity.
      * inversion IH as [|? ? Hline Hlines]; subst.
        constructor; [|exact Hlines]. simpl. rewrite Hc, Hline. reflexivity.
Qed.

Lemma splitLines_last (s : string) :
  splitLines (last (splitLines s) "") = [last (splitLines s) ""].
Proof.
  pose proof (splitLines_lines s) as H.
  pose proof (splitLines_nonempty s) as Hne.
  induction (splitLines s) as [|line lines IH]; [contradiction|].
  inversion H as [|? ? Hline Hlines]; subst.
  destruct lines as [|l2 ls]; [exact Hline|].
  apply IH; [exact Hlines|discriminate].
Qed.

(** The lines of a text continued: the complete lines of the first part,
    then the lines of its last, incomplete line continued. *)
Lemma splitLines_app (a b : string) :
  splitLines (a ++ b)
  = removelast (splitLines a) ++ splitLines (last (splitLines a) "" ++ b).
Proof.
  induction a as [|c a IH]; [reflexivity|].
  pose proof (splitLines_nonempty a) as Hne.
  cbn [append splitLines]. rewrite IH.
  destruct (Ascii.eqb c newline) eqn:Hc.
  - destruct (splitLines a) as [|line lines]; [contradiction|]. reflexivity.
  - destruct (splitLines a) as [|line lines]; [contradiction|].
    destruct lines as [|l2 ls].
    + cbn [removelast last app append splitLines]. rewrite Hc. reflexivity.
    + reflexivity.
Qed.

Lemma removelast_continued {A : Type} (l l' : list A) :
  l' <> [] -> removelast (l ++ l') = l ++ removelast l'.
Proof.
  intros Hne. induction l as [|x l IH]; [reflexivity|].
  simpl. rewrite IH. destruct (l ++ l') eqn:E; [|reflexivity].
  apply app_eq_nil in E. tauto.
Qed.

Lemma last_continued {A : Type} (l l' : list A) (d : A) :
  l' <> [] -> last (l ++ l') d = last l' d.
Proof.
  intros Hne. induction l as [|x l IH]; [reflexivity|].
  simpl. rewrite IH. destruct (l ++ l') eqn:E; [|reflexivity].
  apply app_eq_nil in E. tauto.
Qed.

Lemma or_else_empty (a : string) : or_else a "" = a.
Proof. destruct a; reflexivity. Qed.

Lemma readAll_receive (parse : string -> option SseEvent)
  (chunks : list string) :
  forall buffer,
    splitLines buffer = [buffer] ->
    readAll parse buffer chunks
    = receive parse buffer (String.concat "" chunks).
Proof.
  induction chunks as [|chunk rest IH]; intros buffer Hb.
  - unfold receive. simpl. rewrite append_empty, Hb. simpl.
    rewrite or_else_empty. reflexivity.
  - cbn [readAll]. unfold receive at 1. rewrite or_else_empty.
    rewrite IH by apply splitLines_last.
    unfold receive. rewrite !or_else_empty, concat_cons.
    rewrite <- append_associative, (splitLines_app (buffer ++ chunk)).
    rewrite removelast_continued, last_continued by apply splitLines_nonempty.
    rewrite flat_map_app. reflexivity.
Qed.

(** X14: the client of the event stream calls its handlers for the lines
    of the whole stream, however the stream is cut into chunks: reading the
    chunks one by one gives the calls, and leaves the unfinished line, that
    reading their concatenation in one piece gives. *)
Theorem stream_events_ignore_chunking (parse : string -> option SseEvent)
  (chunks : list string) :
  readAll parse "" chunks = receive parse "" (String.concat "" chunks).
Proof. apply readAll_receive. reflexivity. Qed.

Lemma substring_all (s : string) : String.substring 0 (String.length s) s = s.
Proof. induction s as [|c s IH]; simpl; [|rewrite IH]; reflexivity. Qed.

Lemma dispatch_data (parse : string -> option SseEvent) (json : string) :
  dispatch parse ("data: " ++ json) = handled (parse json).
Proof.
  unfold dispatch.
  rewrite (prefix_append "data: " json).
  assert (Hslice : String.substring 6 (String.length ("data: " ++ json) - 6)
                     ("data: " ++ json) = json).
  { simpl. rewrite Nat.sub_0_r. apply substring_all. }
  rewrite Hslice. reflexivity.
Qed.

Lemma dispatch_empty (parse : string -> option SseEvent) :
  dispatch parse "" = [].
Proof. reflexivity. Qed.

(** The lines of a line without line feed, ended by a line feed and
    followed by more. *)
Lemma splitLines_line (line rest : string) :
  splitLines line = [line] ->
  splitLines (line ++ String newline rest) = line :: splitLines rest.
Proof.
  induction line as [|c line IH]; intros Hline.
  - reflexivity.
  - simpl in *. destruct (Ascii.eqb c newline); [discriminate|].
    pose proof (splitLines_nonempty line) as Hne.
    destruct (splitLines line) as [|first others]; [contradiction|].
    injection Hline as -> ->. rewrite IH by reflexivity. reflexivity.
Qed.

Lemma splitLines_data (json : string) :
  splitLines json = [json] ->
  splitLines ("data: " ++ json) = [("data: " ++ json)%string].
Proof. intros H. simpl. rewrite H. reflexivity. Qed.

Lemma splitLines_sent (jsons : list string) :
  Forall (fun json => splitLines json = [json]) jsons ->
  splitLines (String.concat "" (map sseData jsons))
  = flat_map (fun json => [("data: " ++ json)%string; ""]) jsons ++ [""].
Proof.
  intros H. induction H as [|json rest Hjson _ IH]; [reflexivity|].
  cbn [map]. rewrite concat_cons. unfold sseData at 1.
  change ("data: " ++ json ++ String newline (String newline ""))%string
    with (("data: " ++ json) ++ String newline (String newline ""))%string.
  rewrite append_associative.
  change (String newline (String newline "")
          ++ String.concat "" (map sseData rest))%string
    with (String newline
            ("" ++ String newline (String.concat "" (map sseData rest))))%string.
  rewrite splitLines_line by (apply splitLines_data, Hjson).
  rewrite splitLines_line by reflexivity.
  rewrite IH. reflexivity.
Qed.

(** X23: the client reads what the route wrote.  When the JSON texts that
    the route frames as events hold no raw line feed, then however the
    stream is cut into chunks the client parses each text once, whole and
    in the order sent, calls its handlers for what the parser returns, and
    is left with an empty buffer. *)
Theorem client_reads_what_route_wrote (parse : string -> option SseEvent)
  (jsons chunks : list string) :
  Forall (fun json => splitLines json = [json]) jsons ->
  String.concat "" chunks = String.concat "" (map sseData jsons) ->
  readAll parse "" chunks
  = (flat_map (fun json => handled (parse json)) jsons, "").
Proof.
  intros Hjsons Hsent.
  rewrite readAll_receive by reflexivity.
  unfold receive. rewrite Hsent. cbn [append].
  rewrite (splitLines_sent jsons Hjsons).
  rewrite removelast_last, last_last. f_equal.
  clear. induction jsons as [|json rest IH]; [reflexivity|].
  cbn [flat_map app]. rewrite dispatch_data, dispatch_empty, IH.
  rewrite app_nil_l. reflexivity.
Qed.

Lemma client_reads_what_route_wrote_witness :
  readAll (fun json => if String.eqb json "{}" then Some EvOther
                       else Some (EvError json json))
    "" ["data: a"; String newline (String newline "data: {}");
        String newline (String newline "")]
  = ([EvError "a" "a"], "").
Proof.
  apply (client_reads_what_route_wrote
           (fun json => if String.eqb json "{}" then Some EvOther
                        else Some (EvError json json))
           ["a"; "{}"]).
  - repeat constructor.
  - reflexivity.
Defined.

(** ** The control route *)

(** X15: the scrape route never registers its scraper with the manager, so
    whatever requests the two routes serve, in whatever order, the control
    route never finds a session: pause, resume and cancel are answered with
    status 404 (500 when the body is not JSON), no state is ever reported,
    and the status request says that nothing is active. *)
Theorem control_route_finds_no_session (rs : list Request) :
  let (responses, m) := serveAll rs initialManager in
  m = initialManager
  /\ (forall c, In (Controlled c) responses ->
                reportedState c = None
                /\ (controlStatus c = 404 \/ controlStatus c = 500)%Z)
  /\ (forall active st, In (Reported active st) responses ->
                        active = false /\ st = None).
Proof.
  unfold initialManager.
  induction rs as [|r rest IH]; simpl.
  - repeat split; contradiction.
  - assert (Hserve : snd (serve r None) = None
                     /\ (forall c, fst (serve r None) = Controlled c ->
                                   reportedState c = None
                                   /\ (controlStatus c = 404
                                       \/ controlStatus c = 500)%Z)
                     /\ (forall active st,
                            fst (serve r None) = Reported active st ->
                            active = false /\ st = None)).
    { destruct r as [w params|w params|action|]; simpl.
      - destruct (postStreaming w params []). simpl.
        repeat split; discriminate.
      - repeat split; discriminate.
      - destruct action as [action|]; simpl;
          (split; [reflexivity|]); (split; [|discriminate]);
          intros c H; injection H as <-; simpl; auto.
      - split; [reflexivity|]. split; [discriminate|].
        intros active st H. injection H as <- <-. auto. }
    destruct (serve r None) as [response m']. simpl in Hserve.
    destruct Hserve as [-> [Hc Hr]].
    destruct (serveAll rest None) as [responses m''].
    destruct IH as [-> [IHc IHr]].
    split; [reflexivity|]. split.
    + intros c [H|H]; [apply Hc, H|apply IHc, H].
    + intros active st [H|H]; [apply Hr, H|apply IHr, H].
Qed.

Lemma controlPost_known (action : option string) (instance : Scraper) :
  exists instance',
    snd (controlPost action (Some instance)) = Some instance'
    /\ getState instance'
       = match knownAction action with
         | Some c => requested c
         | None => getState instance
         end.
Proof.
  destruct action as [action|]; simpl; [|eauto].
  destruct (String.eqb action "pause"); [simpl; eauto|].
  destruct (String.eqb action "resume"); [simpl; eauto|].
  destruct (String.eqb action "cancel"); simpl; eauto.
Qed.

(** X16: once a scraper is registered, the session that the control route
    reports is in the state that the last known action asked for, whatever
    came before it: the route passes every action on, also to a session that
    is cancelled or completed, and an unknown action or a body that is not
    JSON changes nothing. *)
Theorem last_control_request_wins (actions : list (option string))
  (instance : Scraper) :
  controlGet (snd (serveAll (map ControlPost actions) (Some instance)))
  = (true, Some (lastRequested (getState instance) actions)).
Proof.
  revert instance.
  induction actions as [|action rest IH]; intros instance; [reflexivity|].
  simpl.
  destruct (controlPost_known action instance) as [instance' [Hm Hst]].
  destruct (controlPost action (Some instance)) as [response m'].
  simpl in Hm. subst m'.
  specialize (IH instance').
  destruct (serveAll (map ControlPost rest) (Some instance'))
    as [responses m''].
  simpl in *. rewrite IH. unfold lastRequested. simpl.
  rewrite Hst. reflexivity.
Qed.

(** ** A results page that never shows *)

Lemma runCommands_without_cancel (cs : list Command) :
  Forall (fun c => c <> Cancel) cs ->
  forall s, isCancelled s = false ->
            isCancelled (runCommands cs s) = false
            /\ pending (runCommands cs s) = pending s.
Proof.
  intros Hcs. induction Hcs as [|c cs Hc _ IH]; intros s Hs; [auto|].
  unfold runCommands in *. simpl.
  destruct (IH (runCommand c s)) as [H1 H2].
  - destruct c; [reflexivity|reflexivity|contradiction].
  - split; [exact H1|]. rewrite H2. destruct c; reflexivity.
Qed.

Lemma awaitPoint_without_cancel (s : Scraper) :
  notToBeCancelled s ->
  exists s', awaitPoint s = (Ret tt, s') /\ notToBeCancelled s'.
Proof.
  intros [Hs Hp]. unfold awaitPoint.
  destruct (pending s) as [|cs rest] eqn:E.
  - exists s. split; [reflexivity|]. split; [exact Hs|]. rewrite E. exact Hp.
  - inversion Hp as [|? ? Hcs Hrest]; subst.
    destruct (runCommands_without_cancel cs Hcs (set_pending rest s) Hs)
      as [H1 H2].
    eexists. split; [reflexivity|]. split; [exact H1|].
    unfold withoutCancel. rewrite H2. exact Hrest.
Qed.

Lemma waitForResults_none (w : World) (selectors : list string) :
  (forall selector, w_selectorFound w selector = false) ->
  forall s, notToBeCancelled s ->
            exists s', waitForResults w selectors s = (Ret (Some false), s')
                       /\ notToBeCancelled s'.
Proof.
  intros Hw. induction selectors as [|selector rest IH]; intros s Hs.
  - exists s. split; [reflexivity|exact Hs].
  - destruct (awaitPoint_without_cancel s Hs) as [s1 [H1 Hs1]].
    destruct (IH s1 Hs1) as [s2 [H2 Hs2]].
    exists s2. split; [|exact Hs2].
    cbn [waitForResults]. unfold bind at 1. unfold get at 1.
    rewrite (proj1 Hs). unfold bind. rewrite H1, Hw. exact H2.
Qed.

Lemma scrapeBusinesses_none (w : World) (params : SearchParams)
  (cmds : list (list Command)) :
  w_search w = None ->
  (forall selector, w_selectorFound w selector = false) ->
  withoutCancel cmds ->
  fst (scrapeBusinesses w params (readyScraper cmds))
  = Throw "No search results found - page may have changed structure".
Proof.
  intros Hsearch Hsel Hcmds.
  unfold scrapeBusinesses, searchAndExtract. rewrite Hsearch.
  unfold goto. unfold bind, modify, get, ret. cbv beta iota.
  change (page (readyScraper cmds)) with (Some 0). cbv beta iota.
  match goal with
  | |- context [awaitPoint ?s] =>
      destruct (awaitPoint_without_cancel s) as [s1 [H1 Hs1]];
        [split; [reflexivity|exact Hcmds]|]
  end.
  rewrite H1, (proj1 Hs1).
  destruct (waitForResults_none w resultSelectors Hsel s1 Hs1)
    as [s2 [H2 _]].
  rewrite H2. reflexivity.
Qed.

(** X17: when the results page shows none of the elements that the scraper
    waits for, and nobody cancels, the two branches of the route disagree on
    what happened: the JSON answer is No Results Found with status 404, the
    event stream ends with the error Scraping Failed. *)
Theorem missing_results_are_answered_twice (w : World) (params : SearchParams)
  (cmds : list (list Command)) :
  w_launch w = None ->
  w_timedOut w = false ->
  w_search w = None ->
  (forall selector, w_selectorFound w selector = false) ->
  withoutCancel cmds ->
  postNonStreaming w params cmds
  = Some (mkResponse 404 (Some "No Results Found") [])
  /\ fst (postStreaming w params cmds)
     = Some (SseError "Scraping Failed"
               "No search results found - page may have changed structure").
Proof.
  intros Hl Ht Hsearch Hsel Hcmds.
  pose proof (scrapeBusinesses_none w params cmds Hsearch Hsel Hcmds) as Hrun.
  split.
  - unfold postNonStreaming. rewrite Hl, initialize_launches, Ht.
    destruct (scrapeBusinesses w params (readyScraper cmds)) as [o s'].
    simpl in Hrun. subst o. reflexivity.
  - unfold postStreaming. rewrite Hl. unfold bind.
    rewrite initialize_launches.
    destruct (scrapeBusinesses w params (readyScraper cmds)) as [o s'].
    simpl in Hrun. subst o. reflexivity.
Qed.

Lemma missing_results_are_answered_twice_witness :
  postNonStreaming noSelectorWorld (request 10) [[Pause]; [Resume]]
  = Some (mkResponse 404 (Some "No Results Found") [])
  /\ fst (postStreaming noSelectorWorld (request 10) [[Pause]; [Resume]])
     = Some (SseError "Scraping Failed"
               "No search results found - page may have changed structure").
Proof.
  apply (missing_results_are_answered_twice noSelectorWorld (request 10)
           [[Pause]; [Resume]]); try reflexivity.
  repeat constructor; discriminate.
Defined.

(** ** What a batch reports *)

Section Unreported.

Variable B : Type.
Variable f : Scraper -> B.
Hypothesis f_navigation : ignoresNavigation f.
Hypothesis f_push : forall b s, f (pushBusiness b s) = f s.
Hypothesis f_close : forall p s, f (snd (closePage p s)) = f s.

Lemma pushResults_unreported (results : list (option BusinessData)) :
  preserves f (pushResults results).
Proof.
  induction results as [|[b|] rest IH]; simpl; method.
Qed.

Lemma closePages_unreported (pages : list PageId) :
  preserves f (closePages pages).
Proof.
  induction pages as [|p rest IH]; simpl; method.
  intros s. apply f_close.
Qed.

Lemma parallelBatch_unreported (w : World) (pages : list PageId)
  (batchStart : nat) (batch : list string) (s : Scraper) :
  pending s = [] ->
  f (snd (parallelBatch w pages batchStart batch s)) = f s.
Proof.
  intros Hp. unfold parallelBatch.
  destruct (batchPromises_returns w pages batchStart batch 0 s) as [rs Hrs].
  rewrite (run_bind _ _ _ _ Hrs).
  pose proof (batchPromises_preserves w f pages batchStart batch
                f_navigation 0 s) as H1.
  pose proof (batchPromises_preserves w pending pages batchStart batch
                (conj (fun _ => eq_refl) (fun _ _ => eq_refl)) 0 s) as Hp1.
  set (s1 := snd (batchPromises w pages batchStart 0 batch s)) in *.
  assert (Hawait : awaitPoint s1 = (Ret tt, s1)).
  { unfold awaitPoint. rewrite Hp1, Hp. reflexivity. }
  unfold bind at 1. rewrite Hawait.
  destruct (pushResults_run rs s1) as [Hpush _].
  rewrite (run_bind _ _ _ _ Hpush).
  rewrite closePages_unreported, pushResults_unreported. exact H1.
Qed.

End Unreported.

(** X18: a batch that runs in parallel reports nothing: when no command
    arrives meanwhile, it hands no snapshot to the callback and leaves the
    index of the current target where it was, so the percentage that a
    later pause or cancel computes from that index does not move. *)
Theorem parallel_batch_reports_nothing (w : World) (pages : list PageId)
  (batchStart : nat) (batch : list string) (s : Scraper) :
  pending s = [] ->
  emitted (snd (parallelBatch w pages batchStart batch s)) = emitted s
  /\ currentBusinessIndex (snd (parallelBatch w pages batchStart batch s))
     = currentBusinessIndex s
  /\ controlPercent (snd (parallelBatch w pages batchStart batch s))
     = controlPercent s.
Proof.
  intros Hp.
  assert (He := parallelBatch_unreported _ emitted
                  (conj (fun _ => eq_refl) (fun _ _ => eq_refl))
                  (fun _ _ => eq_refl) (fun _ _ => eq_refl)
                  w pages batchStart batch s Hp).
  assert (Hi := parallelBatch_unreported _ currentBusinessIndex
                  (conj (fun _ => eq_refl) (fun _ _ => eq_refl))
                  (fun _ _ => eq_refl) (fun _ _ => eq_refl)
                  w pages batchStart batch s Hp).
  assert (Ht := parallelBatch_unreported _ totalBusinessesToScrape
                  (conj (fun _ => eq_refl) (fun _ _ => eq_refl))
                  (fun _ _ => eq_refl) (fun _ _ => eq_refl)
                  w pages batchStart batch s Hp).
  split; [exact He|]. split; [exact Hi|].
  unfold controlPercent. rewrite Hi, Ht. reflexivity.
Qed.

Lemma parallel_batch_reports_nothing_witness :
  let s := readyScraper [] in
  let s' := snd (parallelBatch parallelWorld [1; 2] 0 ["a"; "b"] s) in
  emitted s' = emitted s
  /\ currentBusinessIndex s' = currentBusinessIndex s
  /\ controlPercent s' = controlPercent s.
Proof.
  apply (parallel_batch_reports_nothing parallelWorld [1; 2] 0 ["a"; "b"]
           (readyScraper [])).
  reflexivity.
Defined.

Lemma try_catch_after_await {A : Type} (k : M A) (handler : string -> M A)
  (s : Scraper) :
  pending s = [] ->
  try_catch (awaitPoint ;; k) handler s = try_catch k handler s.
Proof.
  intros Hp. unfold try_catch, bind, awaitPoint. rewrite Hp. reflexivity.
Qed.

Lemma scrapeMember_returns (w : World) (globalIndex : nat)
  (businessLink : string) (s : Scraper) :
  pending s = [] -> fst (scrapeMember w globalIndex businessLink s) = Ret tt.
Proof.
  intros Hp. unfold scrapeMember.
  destruct (truthy businessLink); [|reflexivity].
  rewrite try_catch_after_await by exact Hp.
  match goal with
  | |- fst (?c s) = _ =>
      assert (H : returns c)
        by (method; apply settles_returns, scrapeBusinessDetails_returns)
  end.
  destruct (H s) as [[] Hs]. exact Hs.
Qed.

Lemma scrapeMember_unreported {B : Type} (f : Scraper -> B) (w : World)
  (globalIndex : nat) (businessLink : string) (s : Scraper) :
  ignoresBrowser f -> (forall b s, f (pushBusiness b s) = f s) ->
  pending s = [] -> f (snd (scrapeMember w globalIndex businessLink s)) = f s.
Proof.
  intros Hf Hpush Hp. unfold scrapeMember.
  destruct (truthy businessLink); [|reflexivity].
  rewrite try_catch_after_await by exact Hp.
  match goal with
  | |- f (snd (?c s)) = _ => assert (H : preserves f c)
  end.
  { method. apply scrapeBusinessDetails_preserves, Hf. }
  apply H.
Qed.

Lemma sequentialBatch_reports (w : World) (total batchStart : nat)
  (batch : list string) :
  forall i s,
    pending s = [] ->
    fst (sequentialBatch w total batchStart i batch s) = Ret tt
    /\ pending (snd (sequentialBatch w total batchStart i batch s)) = []
    /\ List.length (emitted (snd (sequentialBatch w total batchStart i batch s)))
       = List.length (emitted s) + List.length batch
    /\ (batch <> [] ->
        currentBusinessIndex (snd (sequentialBatch w total batchStart i batch s))
        = batchStart + i + List.length batch - 1
        /\ exists p,
             lastSnapshot (snd (sequentialBatch w total batchStart i batch s))
             = Some p
             /\ progress p
                = progressPercent (batchStart + i + List.length batch - 1)
                    total).
Proof.
  induction batch as [|businessLink rest IH]; intros i s Hp.
  - simpl. split; [reflexivity|]. split; [exact Hp|]. split; [lia|].
    intros H. contradiction.
  - set (s1 := set_index (batchStart + i) s).
    assert (Hp1 : pending s1 = []) by exact Hp.
    pose proof (scrapeMember_returns w (batchStart + i) businessLink s1 Hp1)
      as Hret.
    pose proof (scrapeMember_unreported pending w (batchStart + i) businessLink s1
                  (conj (conj (fun _ => eq_refl) (fun _ _ => eq_refl))
                     (conj (fun _ _ _ => eq_refl) (fun _ _ => eq_refl)))
                  (fun _ _ => eq_refl) Hp1) as Hp2.
    pose proof (scrapeMember_unreported emitted w (batchStart + i) businessLink s1
                  (conj (conj (fun _ => eq_refl) (fun _ _ => eq_refl))
                     (conj (fun _ _ _ => eq_refl) (fun _ _ => eq_refl)))
                  (fun _ _ => eq_refl) Hp1) as He2.
    pose proof (scrapeMember_unreported currentBusinessIndex w
                  (batchStart + i) businessLink s1
                  (conj (conj (fun _ => eq_refl) (fun _ _ => eq_refl))
                     (conj (fun _ _ _ => eq_refl) (fun _ _ => eq_refl)))
                  (fun _ _ => eq_refl) Hp1) as Hi2.
    unfold scrapeMember in Hret, Hp2, He2, Hi2.
    match type of Hret with
    | fst (?c s1) = _ => set (s2 := snd (c s1)) in *
    end.
    set (s3 := updateProgress (itemProgress (batchStart + i) total s2) s2).
    assert (Hrun : sequentialBatch w total batchStart i (businessLink :: rest) s
                   = sequentialBatch w total batchStart (S i) rest s3).
    { cbn [sequentialBatch].
      unfold bind at 1. unfold modify at 1. fold s1.
      rewrite (run_bind _ _ _ _ Hret). reflexivity. }
    rewrite Hrun.
    assert (Hp3 : pending s3 = []) by (rewrite <- Hp1, <- Hp2; reflexivity).
    destruct (IH (S i) s3 Hp3) as [Hr [Hpend [Hlen Hlast]]].
    split; [exact Hr|]. split; [exact Hpend|]. split.
    + rewrite Hlen. unfold s3, updateProgress. simpl.
      rewrite length_app, He2. change (emitted s1) with (emitted s).
      simpl. rewrite <- Nat.add_assoc. reflexivity.
    + intros _. destruct rest as [|l2 rest'].
      * simpl. rewrite Hi2. change (currentBusinessIndex s1) with (batchStart + i).
        split; [lia|].
        eexists. split.
        -- unfold lastSnapshot. simpl. rewrite rev_app_distr. reflexivity.
        -- simpl. f_equal. lia.
      * destruct Hlast as [Hidx [p [Hsnap Hprog]]]; [discriminate|].
        split; [rewrite Hidx; simpl; lia|].
        exists p. split; [exact Hsnap|]. rewrite Hprog. f_equal. simpl. lia.
Qed.

(** X19: a batch that runs on the sequential path reports every member:
    when no command arrives meanwhile, it hands the callback one snapshot
    for each link of the batch, and after the last one the index of the
    current target is that of the last link, whose percentage the last
    snapshot carries. *)
Theorem sequential_batch_reports_each_member (w : World)
  (total batchStart : nat) (batch : list string) (s : Scraper) :
  pending s = [] ->
  batch <> [] ->
  let s' := snd (sequentialBatch w total batchStart 0 batch s) in
  List.length (emitted s') = List.length (emitted s) + List.length batch
  /\ currentBusinessIndex s' = batchStart + List.length batch - 1
  /\ exists p,
       lastSnapshot s' = Some p
       /\ progress p
          = progressPercent (batchStart + List.length batch - 1) total.
Proof.
  intros Hp Hne. cbv zeta.
  destruct (sequentialBatch_reports w total batchStart batch 0 s Hp)
    as [_ [_ [Hlen Hlast]]].
  destruct (Hlast Hne) as [Hidx Hsnap].
  rewrite Nat.add_0_r in Hidx, Hsnap. auto.
Qed.

Lemma sequential_batch_reports_each_member_witness :
  let s := readyScraper [] in
  let s' := snd (sequentialBatch (plainWorld None) 4 0 0 ["a"; "b"] s) in
  List.length (emitted s') = List.length (emitted s) + 2
  /\ currentBusinessIndex s' = 1
  /\ exists p, lastSnapshot s' = Some p /\ progress p = progressPercent 1 4.
Proof.
  apply (sequential_batch_reports_each_member (plainWorld None) 4 0 ["a"; "b"]
           (readyScraper [])); [reflexivity|discriminate].
Defined.

(** ** Commands during a batch *)

Lemma index_ignores_control : ignoresControl currentBusinessIndex.
Proof. repeat split. Qed.

Lemma index_ignores_browser : ignoresBrowser currentBusinessIndex.
Proof. repeat split. Qed.

Lemma scrapeMember_settled (w : World) (globalIndex : nat)
  (businessLink : string) :
  returns (scrapeMember w globalIndex businessLink)
  /\ preserves currentBusinessIndex (scrapeMember w globalIndex businessLink).
Proof.
  unfold scrapeMember. split.
  - method.
    + intros s. rewrite awaitPoint_returns. discriminate.
    + apply settles_returns, scrapeBusinessDetails_returns.
  - method.
    + apply awaitPoint_preserves, index_ignores_control.
    + apply scrapeBusinessDetails_preserves, index_ignores_browser.
Qed.

Lemma sequentialBatch_last_index (w : World) (total batchStart : nat)
  (batch : list string) :
  forall i s,
    fst (sequentialBatch w total batchStart i batch s) = Ret tt
    /\ (batch <> [] ->
        currentBusinessIndex (snd (sequentialBatch w total batchStart i batch s))
        = batchStart + i + List.length batch - 1).
Proof.
  induction batch as [|businessLink rest IH]; intros i s.
  - split; [reflexivity|contradiction].
  - destruct (scrapeMember_settled w (batchStart + i) businessLink)
      as [Hret Hidx].
    set (s1 := set_index (batchStart + i) s).
    destruct (Hret s1) as [[] Hs1]. specialize (Hidx s1).
    set (s2 := snd (scrapeMember w (batchStart + i) businessLink s1)) in *.
    set (s3 := updateProgress (itemProgress (batchStart + i) total s2) s2).
    assert (Hrun : sequentialBatch w total batchStart i (businessLink :: rest) s
                   = sequentialBatch w total batchStart (S i) rest s3).
    { cbn [sequentialBatch].
      unfold bind at 1. unfold modify at 1. fold s1.
      change (try_catch _ _) with (scrapeMember w (batchStart + i) businessLink).
      rewrite (run_bind _ _ _ _ Hs1). reflexivity. }
    rewrite Hrun. destruct (IH (S i) s3) as [Hr Hlast].
    split; [exact Hr|]. intros _.
    destruct rest as [|l2 rest'].
    + simpl. rewrite Hidx. simpl. lia.
    + rewrite Hlast by discriminate. simpl. lia.
Qed.

(** X24: a sequential batch does not look at the control state.  Whatever
    the state of the scraper, cancelled included, and whatever commands
    arrive while the batch runs, the loop over the batch returns only after
    its last link: it leaves the index of the current target at that
    link. *)
Theorem sequential_batch_runs_through (w : World) (total batchStart : nat)
  (batch : list string) (s : Scraper) :
  batch <> [] ->
  fst (sequentialBatch w total batchStart 0 batch s) = Ret tt
  /\ currentBusinessIndex (snd (sequentialBatch w total batchStart 0 batch s))
     = batchStart + List.length batch - 1.
Proof.
  intros Hne.
  destruct (sequentialBatch_last_index w total batchStart batch 0 s)
    as [Hret Hidx].
  split; [exact Hret|]. rewrite (Hidx Hne), Nat.add_0_r. reflexivity.
Qed.

(** A cancel arrives while the first of three links is visited. *)
Lemma sequential_batch_runs_through_witness :
  let s := readyScraper [[Cancel]] in
  let run := sequentialBatch (plainWorld None) 3 0 0 ["a"; "b"; "c"] s in
  fst run = Ret tt /\ currentBusinessIndex (snd run) = 2.
Proof.
  apply (sequential_batch_runs_through (plainWorld None) 3 0 ["a"; "b"; "c"]
           (readyScraper [[Cancel]])).
  discriminate.
Defined.

(** ** The average rating of the page *)

Lemma wellFormed_rating (b : BusinessData) :
  wellFormed b ->
  if rated b
  then exists q, ratingOrZero b = Fin q /\ (0 < q /\ q <= 5)%Q
  else ratingOrZero b = ofZ 0.
Proof.
  intros [_ [_ [Hr _]]]. unfold rated, ratingOrZero.
  destruct (rating b) as [r|]; [|reflexivity].
  destruct (Hr r eq_refl) as [q [-> Hq]].
  destruct (truthyNum (Some (Fin q))); [|reflexivity].
  exists q. auto.
Qed.

Lemma count_succ (k : nat) :
  (inject_Z (Z.of_nat (S k)) == inject_Z (Z.of_nat k) + 1)%Q.
Proof. rewrite Nat2Z.inj_succ, <- Z.add_1_r, inject_Z_plus. reflexivity. Qed.

(** The sum that [reduce] computes lies between nothing and five times the
    number of rated records, and is above zero as soon as one is rated. *)
Lemma sum_of_ratings (businesses : list BusinessData) :
  Forall wellFormed businesses ->
  forall acc : Q,
    exists t,
      fold_left (fun sum b => add sum (ratingOrZero b)) businesses (Fin acc)
      = Fin t
      /\ (let k := inject_Z (Z.of_nat (List.length (filter rated businesses)))
          in acc <= t /\ t <= acc + 5 * k /\ (0 < k -> acc < t))%Q.
Proof.
  intros Hwf. induction Hwf as [|b rest Hb _ IH]; intros acc.
  - exists acc. split; [reflexivity|]. cbv zeta. cbn [filter List.length].
    change (inject_Z (Z.of_nat 0)) with 0%Q. lra.
  - pose proof (wellFormed_rating b Hb) as Hr. cbn [fold_left filter].
    destruct (rated b).
    + destruct Hr as [q [-> Hq]]. cbn [add].
      destruct (IH (Qred (acc + q))) as [t [Ht Hbound]].
      exists t. split; [exact Ht|].
      cbv zeta in *. cbn [List.length]. rewrite count_succ.
      rewrite Qred_correct in Hbound.
      set (k := inject_Z (Z.of_nat (List.length (filter rated rest)))) in *.
      assert (Hk : (0 <= k)%Q).
      { unfold k. change 0%Q with (inject_Z 0). rewrite <- Zle_Qle. lia. }
      clearbody k. lra.
    + rewrite Hr. cbn [add ofZ].
      destruct (IH (Qred (acc + inject_Z 0))) as [t [Ht Hbound]].
      exists t. split; [exact Ht|].
      cbv zeta in *. rewrite Qred_correct in Hbound.
      set (k := inject_Z (Z.of_nat (List.length (filter rated rest)))) in *.
      clearbody k. change (inject_Z 0) with 0%Q in Hbound. lra.
Qed.

(** X20: the average rating that the page shows for well-formed records.
    When at least one record is rated it is a number above 0 and at most 5;
    when there are records and none is rated it is NaN, the quotient of
    zero by zero, and not the 0 that the page gives for an empty list. *)
Theorem average_rating_of_results (businesses : list BusinessData) :
  Forall wellFormed businesses ->
  businesses <> [] ->
  if existsb rated businesses
  then exists q, avgRating businesses = Fin q /\ (0 < q /\ q <= 5)%Q
  else avgRating businesses = NaN.
Proof.
  intros Hwf Hne. unfold avgRating.
  destruct businesses as [|b0 rest0] eqn:E; [contradiction|].
  change (0 <? List.length (b0 :: rest0)) with true. cbv iota.
  rewrite <- E in *. clear E Hne.
  destruct (sum_of_ratings businesses Hwf 0) as [t [Ht Hbound]].
  unfold ofZ. change (inject_Z 0) with 0%Q. rewrite Ht.
  change (fun b => truthyNum (rating b)) with rated.
  cbv zeta in Hbound.
  set (n := List.length (filter rated businesses)) in *.
  assert (Hn : existsb rated businesses = negb (n =? 0)).
  { unfold n. clear. induction businesses as [|b rest IH]; [reflexivity|].
    simpl. destruct (rated b); [reflexivity|exact IH]. }
  rewrite Hn. unfold div, ofNat, ofZ, sgn.
  destruct n as [|n']; simpl negb; cbv iota.
  - change (inject_Z (Z.of_nat 0)) with 0%Q in *.
    assert (Ht0 : (t == 0)%Q) by lra.
    change (0 ?= 0)%Q with Eq. cbv iota.
    apply Qeq_alt in Ht0. rewrite Ht0. reflexivity.
  - set (k := inject_Z (Z.of_nat (S n'))) in *.
    assert (Hk : (0 < k)%Q).
    { unfold k. change 0%Q with (inject_Z 0). rewrite <- Zlt_Qlt. lia. }
    pose proof Hk as Hgt. apply Qgt_alt in Hgt. rewrite Hgt.
    eexists. split; [reflexivity|]. rewrite Qred_correct.
    destruct Hbound as [_ [Hup Hpos]]. specialize (Hpos Hk).
    split.
    + apply Qlt_shift_div_l; [exact Hk|]. lra.
    + apply Qle_shift_div_r; [exact Hk|]. lra.
Qed.

Lemma average_rating_of_results_witness :
  exists q,
    avgRating [makeBusiness (evaluateBusinessData (fun _ => Fin (9 # 2)) cafeDom) 0 1 None]
    = Fin q /\ (0 < q /\ q <= 5)%Q.
Proof.
  apply (average_rating_of_results
           [makeBusiness (evaluateBusinessData (fun _ => Fin (9 # 2)) cafeDom) 0 1 None]).
  - constructor; [|constructor]. apply makeBusiness_wellFormed.
  - discriminate.
Defined.

(** ** The exporter *)

Lemma escapeQuotes_injective (a : string) :
  forall b, escapeQuotes a = escapeQuotes b -> a = b.
Proof.
  induction a as [|x a IH]; intros [|y b]; simpl.
  - reflexivity.
  - destruct (Ascii.eqb y quote); discriminate.
  - destruct (Ascii.eqb x quote); discriminate.
  - destruct (Ascii.eqb x quote) eqn:Hx, (Ascii.eqb y quote) eqn:Hy;
      intros H; injection H.
    + intros H'. apply Ascii.eqb_eq in Hx, Hy. subst x y.
      f_equal. apply IH, H'.
    + intros _ <-. rewrite Ascii.eqb_refl in Hy. discriminate.
    + intros _ ->. rewrite Ascii.eqb_refl in Hx. discriminate.
    + intros H' <-. f_equal. apply IH, H'.
Qed.

Lemma append_cancel_last (c : ascii) (a : string) :
  forall b, (a ++ String c "")%string = (b ++ String c "")%string -> a = b.
Proof.
  induction a as [|x a IH]; intros [|y b]; simpl; intros H.
  - reflexivity.
  - injection H as _ H. destruct b; discriminate.
  - injection H as _ H. destruct a; discriminate.
  - injection H as <- H. f_equal. apply IH, H.
Qed.

(** X21: the cell that the exporter writes for a name or an address tells
    the text apart from every other: two texts with the same cell are the
    same text, whatever quotation marks they hold. *)
Theorem escaped_cell_determines_text (a b : string) :
  quoted (escapeQuotes a) = quoted (escapeQuotes b) -> a = b.
Proof.
  unfold quoted. intros H. injection H as H.
  apply escapeQuotes_injective, (append_cancel_last quote), H.
Qed.

Lemma escaped_cell_determines_text_witness :
  String quote "Joe" = String quote "Joe".
Proof.
  apply (escaped_cell_determines_text (String quote "Joe") (String quote "Joe")).
  reflexivity.
Defined.

(** ** Progress in a run that nobody interrupts *)

Lemma trace_ignores_browser : ignoresBrowser trace.
Proof. repeat split. Qed.

Lemma calm_trace (s s' : Scraper) : trace s' = trace s -> calm s -> calm s'.
Proof.
  unfold trace, calm. intros H [Hp Hs]. injection H as H1 H2 H3.
  rewrite H1, H2. auto.
Qed.

Lemma silent_preserves {A : Type} (c : M A) : preserves trace c -> silent c.
Proof. intros H s _. apply H. Qed.

Lemma silent_bind {A B : Type} (c : M A) (k : A -> M B) :
  silent c -> (forall a, silent (k a)) -> silent (bind c k).
Proof.
  intros Hc Hk s Hs. unfold bind. specialize (Hc s Hs).
  destruct (c s) as [[a|msg|] s']; simpl in *; auto.
  rewrite Hk; [exact Hc|]. exact (calm_trace _ _ Hc Hs).
Qed.

Lemma silent_try_catch {A : Type} (body : M A) (handler : string -> M A) :
  silent body -> (forall msg, silent (handler msg)) ->
  silent (try_catch body handler).
Proof.
  intros Hb Hh s Hs. unfold try_catch. specialize (Hb s Hs).
  destruct (body s) as [[a|msg|] s']; simpl in *; auto.
  rewrite Hh; [exact Hb|]. exact (calm_trace _ _ Hb Hs).
Qed.

Lemma silent_awaitPoint : silent awaitPoint.
Proof. intros s [Hp _]. unfold awaitPoint. rewrite Hp. reflexivity. Qed.

Lemma silent_waitForResume : silent waitForResume.
Proof.
  intros s [Hp Hs]. unfold waitForResume. rewrite Hp.
  unfold waitLoop, isPaused. rewrite Hs. simpl.
  unfold trace. simpl. rewrite Hp. reflexivity.
Qed.

(** One step of a proof that a method is silent. *)
Ltac quiet_step :=
  match goal with
  | |- silent (bind _ _) => apply silent_bind; [|intros ?]
  | |- silent (try_catch _ _) => apply silent_try_catch; [|intros ?]
  | |- silent awaitPoint => apply silent_awaitPoint
  | |- silent waitForResume => apply silent_waitForResume
  | |- silent (if ?b then _ else _) => destruct b
  | |- silent (match ?x with _ => _ end) => destruct x
  | |- silent _ => apply silent_preserves; solve [method]
  end.

Ltac quiet := repeat quiet_step.

Lemma silent_waitForResults (w : World) (selectors : list string) :
  silent (waitForResults w selectors).
Proof.
  induction selectors as [|selector rest IH]; simpl; quiet. exact IH.
Qed.

Lemma silent_scrollLoop (w : World) (fuel : nat) :
  forall st, silent (scrollLoop w fuel st).
Proof.
  induction fuel as [|fuel IH]; intros st; simpl; quiet. apply IH.
Qed.

Lemma silent_scrollAndLoadAllResults (w : World) :
  silent (scrollAndLoadAllResults w).
Proof. unfold scrollAndLoadAllResults. quiet. apply silent_scrollLoop. Qed.

Lemma silent_ensureBrowserHealth (h : Health) : silent (ensureBrowserHealth h).
Proof.
  unfold ensureBrowserHealth. quiet.
  apply silent_preserves, initialize_preserves, trace_ignores_browser.
Qed.

Lemma silent_openPages (tries : list PageTry) :
  forall pages, silent (openPages tries pages).
Proof.
  induction tries as [|t rest IH]; intros pages; simpl; quiet; apply IH.
Qed.

Lemma silent_createBatchPages (w : World) (batchStart : nat)
  (batch : list string) : silent (createBatchPages w batchStart batch).
Proof. unfold createBatchPages. quiet. apply silent_openPages. Qed.

Lemma silent_parallelBatch (w : World) (pages : list PageId)
  (batchStart : nat) (batch : list string) :
  silent (parallelBatch w pages batchStart batch).
Proof.
  unfold parallelBatch. quiet.
  - apply silent_preserves, batchPromises_preserves. repeat split.
  - apply silent_preserves, pushResults_unreported. reflexivity.
  - apply silent_preserves, closePages_unreported. reflexivity.
Qed.

Lemma within_lower (lo lo' hi : Q) (l : list ScrapingProgress) :
  (lo' <= lo)%Q -> within lo hi l -> within lo' hi l.
Proof.
  intros Hlo. destruct l as [|p rest]; [auto|].
  intros [q [Hp [H1 [H2 Hrest]]]].
  exists q. repeat split; auto. apply Qle_trans with lo; assumption.
Qed.

Lemma within_upper (lo hi hi' : Q) (l : list ScrapingProgress) :
  (hi <= hi')%Q -> within lo hi l -> within lo hi' l.
Proof.
  intros Hhi. revert lo. induction l as [|p rest IH]; intros lo; [auto|].
  intros [q [Hp [H1 [H2 Hrest]]]].
  exists q. repeat split; auto. apply Qle_trans with hi; assumption.
Qed.

Lemma within_app (lo mid hi : Q) (l1 l2 : list ScrapingProgress) :
  (lo <= mid)%Q -> (mid <= hi)%Q ->
  within lo mid l1 -> within mid hi l2 -> within lo hi (l1 ++ l2).
Proof.
  intros Hlo Hhi. revert lo Hlo.
  induction l1 as [|p rest IH]; intros lo Hlo H1 H2; simpl.
  - apply within_lower with mid; assumption.
  - destruct H1 as [q [Hp [Hq1 [Hq2 Hrest]]]].
    exists q. repeat split; auto.
    apply Qle_trans with mid; assumption.
Qed.

Lemma leb_Fin (a b : Q) : (a <= b)%Q -> leb (Fin a) (Fin b) = true.
Proof.
  intros H. unfold leb. apply (proj1 (Qle_alt a b)) in H.
  destruct (a ?= b)%Q; congruence.
Qed.

Lemma nonDecreasing_step (a b : ScrapingProgress)
  (rest : list ScrapingProgress) :
  nonDecreasing (a :: b :: rest)
  = (isError b || leb (progress a) (progress b)) && nonDecreasing (b :: rest).
Proof. reflexivity. Qed.

(** Percentages that rise never drop. *)
Lemma within_nonDecreasing (l : list ScrapingProgress) :
  forall lo hi, within lo hi l -> nonDecreasing l = true.
Proof.
  induction l as [|a rest IH]; intros lo hi H; [reflexivity|].
  destruct H as [q [Ha [_ [_ Hrest]]]].
  destruct rest as [|b rest']; [reflexivity|].
  rewrite nonDecreasing_step, (IH _ _ Hrest).
  destruct Hrest as [q' [Hb [Hle _]]].
  rewrite Ha, Hb, (leb_Fin _ _ Hle), orb_true_r. reflexivity.
Qed.

Lemma ordered_nonDecreasing (lo hi : Q) (l : list ScrapingProgress) :
  ordered lo hi l -> nonDecreasing l = true.
Proof.
  intros [H|[l' [e [-> [H He]]]]]; [exact (within_nonDecreasing _ _ _ H)|].
  pose proof (within_nonDecreasing _ _ _ H) as Hl'. clear H.
  induction l' as [|a rest IH]; [reflexivity|].
  destruct rest as [|b rest'].
  - simpl. rewrite He. reflexivity.
  - change ((a :: b :: rest') ++ [e]) with (a :: (b :: rest') ++ [e]).
    rewrite nonDecreasing_step in Hl'.
    apply andb_true_iff in Hl'. destruct Hl' as [H1 H2].
    change ((b :: rest') ++ [e]) with (b :: rest' ++ [e]).
    rewrite nonDecreasing_step, H1. apply IH, H2.
Qed.

Lemma emitsWithin_silent {A : Type} (lo hi : Q) (c : M A) :
  silent c -> emitsWithin lo hi c.
Proof.
  intros Hc s Hs. specialize (Hc s Hs).
  split; [exact (calm_trace _ _ Hc Hs)|].
  exists []. split; [|exact I].
  unfold trace in Hc. injection Hc as _ _ ->. rewrite app_nil_r. reflexivity.
Qed.

Lemma emitsWithin_bind {A B : Type} (lo mid hi : Q) (c : M A) (k : A -> M B) :
  (lo <= mid)%Q -> (mid <= hi)%Q ->
  emitsWithin lo mid c -> (forall a, emitsWithin mid hi (k a)) ->
  emitsWithin lo hi (bind c k).
Proof.
  intros Hlo Hhi Hc Hk s Hs. unfold bind.
  destruct (Hc s Hs) as [Hs' [l1 [He1 Hl1]]].
  destruct (c s) as [[a|msg|] s']; simpl in *.
  - destruct (Hk a s' Hs') as [Hs'' [l2 [He2 Hl2]]].
    split; [exact Hs''|]. exists (l1 ++ l2). split.
    + rewrite He2, He1, app_assoc. reflexivity.
    + apply within_app with mid; assumption.
  - split; [exact Hs'|]. exists l1. split; [exact He1|].
    apply within_upper with mid; assumption.
  - split; [exact Hs'|]. exists l1. split; [exact He1|].
    apply within_upper with mid; assumption.
Qed.

Lemma emitsWithin_after {A B : Type} (lo hi : Q) (c : M A) (k : A -> M B) :
  silent c -> (forall a, emitsWithin lo hi (k a)) ->
  emitsWithin lo hi (bind c k).
Proof.
  intros Hc Hk s Hs. unfold bind. specialize (Hc s Hs).
  pose proof (calm_trace _ _ Hc Hs) as Hs'.
  unfold trace in Hc. injection Hc as _ _ He.
  destruct (c s) as [[a|msg|] s']; simpl in *.
  - rewrite <- He. apply Hk, Hs'.
  - split; [exact Hs'|]. exists []. rewrite app_nil_r.
    split; [exact He|exact I].
  - split; [exact Hs'|]. exists []. rewrite app_nil_r.
    split; [exact He|exact I].
Qed.

Lemma emitsWithin_lower {A : Type} (lo lo' hi : Q) (c : M A) :
  (lo' <= lo)%Q -> emitsWithin lo hi c -> emitsWithin lo' hi c.
Proof.
  intros Hlo Hc s Hs. destruct (Hc s Hs) as [Hs' [l [He Hl]]].
  split; [exact Hs'|]. exists l. split; [exact He|].
  apply within_lower with lo; assumption.
Qed.

Lemma emitsWithin_snapshot (lo hi q : Q) (p : ScrapingProgress) :
  progress p = Fin q -> (lo <= q)%Q -> (q <= hi)%Q ->
  emitsWithin lo hi (modify (updateProgress p)).
Proof.
  intros Hp H1 H2 s Hs. split; [exact Hs|].
  exists [p]. split; [reflexivity|].
  exists q. repeat split; auto.
Qed.

Lemma percentOf_value (n g : nat) :
  0 < n ->
  exists q, progressPercent g n = Fin q /\ (q == percentOf n g)%Q.
Proof. apply progressPercent_value. Qed.

Lemma percentOf_rises (n i j : nat) :
  i <= j -> (percentOf n i <= percentOf n j)%Q.
Proof.
  intros Hij. unfold percentOf.
  assert (Hi : (inject_Z (Z.of_nat i) <= inject_Z (Z.of_nat j))%Q)
    by (rewrite <- Zle_Qle; lia).
  assert (Hn : (0 <= / inject_Z (Z.of_nat n))%Q).
  { apply Qinv_le_0_compat. change 0%Q with (inject_Z 0).
    rewrite <- Zle_Qle. lia. }
  unfold Qdiv.
  assert (H : (inject_Z (Z.of_nat i) * / inject_Z (Z.of_nat n)
               <= inject_Z (Z.of_nat j) * / inject_Z (Z.of_nat n))%Q)
    by (apply Qmult_le_compat_r; assumption).
  lra.
Qed.

Lemma percentOf_bounds (n g : nat) :
  g <= n -> (10 <= percentOf n g /\ percentOf n g <= 95)%Q.
Proof.
  intros Hg. split.
  - apply Qle_trans with (percentOf n 0); [|apply percentOf_rises; lia].
    unfold percentOf. simpl. unfold Qdiv. rewrite Qmult_0_l. lra.
  - apply Qle_trans with (percentOf n n); [apply percentOf_rises, Hg|].
    unfold percentOf. destruct n as [|n'].
    + simpl. unfold Qdiv. rewrite Qmult_0_l. lra.
    + unfold Qdiv. rewrite Qmult_inv_r.
      * lra.
      * intros H.
        assert (H0 : (0 < inject_Z (Z.of_nat (S n')))%Q).
        { change 0%Q with (inject_Z 0). rewrite <- Zlt_Qlt. lia. }
        rewrite H in H0. exact (Qlt_irrefl _ H0).
Qed.

Lemma finishes_emits {A : Type} (lo hi : Q) (c : M A) :
  emitsWithin lo hi c -> finishes (ordered lo hi) c.
Proof.
  intros Hc s Hs. destruct (Hc s Hs) as [_ [l [He Hl]]].
  exists l. split; [exact He|left; exact Hl].
Qed.

Lemma finishes_after {A B : Type} (lo hi : Q) (c : M A) (k : A -> M B) :
  silent c -> (forall a, finishes (ordered lo hi) (k a)) ->
  finishes (ordered lo hi) (bind c k).
Proof.
  intros Hc Hk s Hs. unfold bind. specialize (Hc s Hs).
  pose proof (calm_trace _ _ Hc Hs) as Hs'.
  unfold trace in Hc. injection Hc as _ _ He.
  destruct (c s) as [[a|msg|] s']; simpl in *.
  - rewrite <- He. apply Hk, Hs'.
  - exists []. rewrite app_nil_r. split; [exact He|left; exact I].
  - exists []. rewrite app_nil_r. split; [exact He|left; exact I].
Qed.

Lemma finishes_bind {A B : Type} (lo mid hi : Q) (c : M A) (k : A -> M B) :
  (lo <= mid)%Q -> (mid <= hi)%Q ->
  emitsWithin lo mid c -> (forall a, finishes (ordered mid hi) (k a)) ->
  finishes (ordered lo hi) (bind c k).
Proof.
  intros Hlo Hhi Hc Hk s Hs. unfold bind.
  destruct (Hc s Hs) as [Hs' [l1 [He1 Hl1]]].
  destruct (c s) as [[a|msg|] s']; simpl in *.
  - destruct (Hk a s' Hs') as [l2 [He2 Hl2]].
    exists (l1 ++ l2). split; [rewrite He2, He1, app_assoc; reflexivity|].
    destruct Hl2 as [Hl2|[l' [e [-> [Hl' He]]]]].
    + left. apply within_app with mid; assumption.
    + right. exists (l1 ++ l'), e. rewrite app_assoc.
      split; [reflexivity|]. split; [|exact He].
      apply within_app with mid; assumption.
  - exists l1. split; [exact He1|]. left.
    apply within_upper with mid; assumption.
  - exists l1. split; [exact He1|]. left.
    apply within_upper with mid; assumption.
Qed.

Lemma silent_member (w : World) (globalIndex : nat) (businessLink : string) :
  silent
    (try_catch
       (if truthy businessLink then
          awaitPoint ;;
          business <- scrapeBusinessDetails w globalIndex businessLink
                        (globalIndex + 1) ;;
          match business with
          | Some b => modify (pushBusiness b)
          | None => ret tt
          end
        else ret tt)
       (fun _ => ret tt)).
Proof.
  quiet.
  apply silent_preserves, scrapeBusinessDetails_preserves,
    trace_ignores_browser.
Qed.

Lemma sequentialBatch_emits (w : World) (total batchStart : nat)
  (batch : list string) :
  0 < total ->
  forall i,
    emitsWithin (percentOf total (batchStart + i))
      (percentOf total (batchStart + i + List.length batch))
      (sequentialBatch w total batchStart i batch).
Proof.
  intros Htotal. induction batch as [|businessLink rest IH]; intros i.
  - apply emitsWithin_silent. simpl. quiet.
  - cbn [sequentialBatch].
    apply emitsWithin_after; [quiet|intros _].
    apply emitsWithin_after; [apply silent_member|intros _].
    apply emitsWithin_after; [quiet|intros s].
    destruct (percentOf_value total (batchStart + i) Htotal) as [q [Hq Hv]].
    apply emitsWithin_bind with (percentOf total (batchStart + i)).
    + apply Qle_refl.
    + apply percentOf_rises. lia.
    + apply (emitsWithin_snapshot _ _ q); [exact Hq| |];
        rewrite Hv; apply Qle_refl.
    + intros _.
      replace (batchStart + i + List.length (businessLink :: rest))
        with (batchStart + S i + List.length rest) by (simpl; lia).
      apply emitsWithin_lower with (percentOf total (batchStart + S i));
        [apply percentOf_rises; lia|apply IH].
Qed.

Lemma batchLoop_emits (w : World) (links : list string) (fuel : nat) :
  forall batchStart,
    emitsWithin (percentOf (List.length links) batchStart) 95
      (batchLoop w links fuel batchStart).
Proof.
  induction fuel as [|fuel IH]; intros batchStart.
  - apply emitsWithin_silent. simpl. quiet.
  - cbn [batchLoop].
    destruct (batchStart <? List.length links) eqn:Hlt;
      [|apply emitsWithin_silent; quiet].
    apply Nat.ltb_lt in Hlt.
    apply emitsWithin_after; [quiet|intros s].
    destruct (isCancelled s); [apply emitsWithin_silent; quiet|].
    apply emitsWithin_after; [quiet|intros stop].
    destruct stop; [apply emitsWithin_silent; quiet|].
    apply emitsWithin_after; [apply silent_ensureBrowserHealth|intros healthOk].
    destruct (negb healthOk); [apply emitsWithin_silent; quiet|].
    apply emitsWithin_after; [apply silent_createBatchPages|intros pages].
    set (batchEnd := Nat.min (batchStart + batchSize w) (List.length links)).
    assert (Hlen : List.length
                     (firstn (batchEnd - batchStart) (skipn batchStart links))
                   = batchEnd - batchStart).
    { rewrite length_firstn, length_skipn. unfold batchEnd. lia. }
    apply emitsWithin_bind
      with (percentOf (List.length links) batchEnd).
    + apply percentOf_rises. unfold batchEnd. lia.
    + apply percentOf_bounds. unfold batchEnd. lia.
    + destruct (1 <? List.length pages).
      * apply emitsWithin_silent, silent_parallelBatch.
      * replace batchEnd
          with (batchStart + 0
                + List.length
                    (firstn (batchEnd - batchStart) (skipn batchStart links)))
          at 1 by (rewrite Hlen; unfold batchEnd; lia).
        replace (percentOf (List.length links) batchStart)
          with (percentOf (List.length links) (batchStart + 0))
          by (rewrite Nat.add_0_r; reflexivity).
        apply sequentialBatch_emits. lia.
    + intros _. apply emitsWithin_after; [quiet|intros _].
      apply emitsWithin_lower
        with (percentOf (List.length links) (batchStart + batchSize w)).
      * apply percentOf_rises. unfold batchEnd. lia.
      * apply IH.
Qed.

Lemma number_le (a b : Z) : (a <= b)%Z -> (inject_Z a <= inject_Z b)%Q.
Proof. intros H. rewrite <- Zle_Qle. exact H. Qed.

(** The end of a run whose batch loop was left by a calm scraper. *)
Lemma completion_finishes (links : list string) :
  finishes (ordered 95 100)
    (s <- get ;;
     (if isCancelled s then
        modify (updateProgress
                  (mkProgress st_cancelled "Scraping cancelled by user"
                     (round (mul (div (ofNat (currentBusinessIndex s))
                                      (ofNat (List.length links)))
                                 (ofZ 100)))
                     (Z.of_nat (List.length links))
                     (List.length (scrapedBusinesses s)) []))
      else
        modify (set_state completed) ;;
        modify (updateProgress
                  (mkProgress st_completed "Scraping completed!" (ofZ 100)
                     (Z.of_nat (List.length links))
                     (List.length (scrapedBusinesses s)) []))) ;;
     s <- get ;;
     ret (scrapedBusinesses s)).
Proof.
  intros s [Hp Hs]. unfold bind, get, isCancelled. cbv beta iota.
  rewrite Hs. simpl.
  eexists. split; [reflexivity|]. left.
  exists (inject_Z 100). split; [reflexivity|].
  split; [apply (number_le 95 100); lia|].
  split; [apply Qle_refl|exact I].
Qed.

Lemma extractAll_finishes (w : World) (params : SearchParams) :
  finishes (ordered 0 100) (extractAll w params).
Proof.
  unfold extractAll.
  destruct (List.length (harvest w) =? 0).
  - apply finishes_emits.
    apply emitsWithin_bind with 100%Q;
      [apply (number_le 0 100); lia|apply Qle_refl| |].
    + apply (emitsWithin_snapshot _ _ (inject_Z 100)); [reflexivity| |].
      * apply (number_le 0 100); lia.
      * apply Qle_refl.
    + intros _. apply emitsWithin_silent. quiet.
  - apply finishes_after; [quiet|intros _].
    apply finishes_bind with 10%Q;
      [apply (number_le 0 10); lia|apply (number_le 10 100); lia| |intros _].
    + apply (emitsWithin_snapshot _ _ (inject_Z 10)); [reflexivity| |].
      * apply (number_le 0 10); lia.
      * apply Qle_refl.
    + destruct (negb (w_pageStillValid w)).
      * intros s Hs. eexists. split; [reflexivity|].
        right. eexists [], _. split; [reflexivity|]. split; [exact I|].
        reflexivity.
      * apply finishes_bind with 95%Q;
          [apply (number_le 10 95); lia|apply (number_le 95 100); lia| |].
        -- apply emitsWithin_lower
             with (percentOf (List.length
                                (linksToProcess w params (harvest w))) 0).
           ++ apply percentOf_bounds. lia.
           ++ apply batchLoop_emits.
        -- intros _. apply completion_finishes.
Qed.

Lemma searchAndExtract_finishes (w : World) (params : SearchParams)
  (p : PageId) :
  finishes (ordered 0 100) (searchAndExtract w params p).
Proof.
  unfold searchAndExtract.
  apply finishes_after;
    [apply silent_preserves, goto_preserves; repeat split|intros _].
  apply finishes_after; [quiet|intros _].
  apply finishes_after; [quiet|intros s].
  destruct (isCancelled s);
    [apply finishes_emits, emitsWithin_silent; quiet|].
  apply finishes_after; [apply silent_waitForResults|intros resultsFound].
  destruct resultsFound as [[|]|];
    [|apply finishes_emits, emitsWithin_silent; quiet
     |apply finishes_emits, emitsWithin_silent; quiet].
  apply finishes_after; [apply silent_scrollAndLoadAllResults|intros _].
  apply finishes_after; [quiet|intros s'].
  destruct (isCancelled s');
    [apply finishes_emits, emitsWithin_silent; quiet|].
  apply extractAll_finishes.
Qed.

Lemma scrapeBusinesses_finishes (w : World) (params : SearchParams) :
  finishes (ordered 0 100) (scrapeBusinesses w params).
Proof.
  unfold scrapeBusinesses.
  apply finishes_after; [quiet|intros s].
  destruct (page s) as [p|];
    [|apply finishes_emits, emitsWithin_silent; quiet].
  apply finishes_after.
  { intros s0 [Hp Hs]. unfold trace. simpl. rewrite Hs. reflexivity. }
  intros _. apply finishes_after; [quiet|intros _].
  apply finishes_after; [quiet|intros _].
  apply finishes_bind with 0%Q; [apply Qle_refl|apply (number_le 0 100); lia| |].
  - apply (emitsWithin_snapshot _ _ (inject_Z 0)); [reflexivity| |];
      apply Qle_refl.
  - intros _. apply searchAndExtract_finishes.
Qed.

(** X22: in a run that no command interrupts, progress never drops: the
    percentage of each snapshot that the event stream carries is a number
    from 0 to 100 and at least that of the snapshot before it, except for
    a last snapshot that reports an error.  This holds whatever the browser
    answers, on the parallel path and on the sequential one. *)
Theorem progress_never_drops_unprompted (w : World) (params : SearchParams) :
  ordered 0 100 (snd (postStreaming w params []))
  /\ nonDecreasing (snd (postStreaming w params [])) = true.
Proof.
  assert (H : ordered 0 100 (snd (postStreaming w params []))).
  { unfold postStreaming.
    assert (Hrun : exists l,
               emitted (snd ((initialize (w_launch w) ;;
                              scrapeBusinesses w params) (newScraper [])))
               = [] ++ l /\ ordered 0 100 l).
    { apply (finishes_after 0 100); [|intros _; apply scrapeBusinesses_finishes|].
      - apply silent_preserves, initialize_preserves, trace_ignores_browser.
      - split; reflexivity. }
    destruct Hrun as [l [He Hl]]. simpl in He.
    destruct ((initialize (w_launch w) ;; scrapeBusinesses w params)
                (newScraper [])) as [[businesses|msg|] s];
      simpl in *; rewrite He; exact Hl. }
  split; [exact H|exact (ordered_nonDecreasing _ _ _ H)].
Qed.
